(** * STARWEAVE image-generation service: model lifecycle and cache manager

    A shallow embedding of [services/python/server/image_generation_servicer.py]
    (class [ImageGenerationServicer]) and the properties of its model
    registry, load/unload state machine, memory sweep, disk sweep and
    metadata store.

    Conventions of the embedding:
    - Python [int] is [Z]; [time.time()] and [os.path.getatime] stamps are
      [Z] ticks of the clock (only their order and equality are used);
    - [str] is [string]; an exception is represented by its [str(e)];
    - [self._models] is an insertion-ordered dict: an association list;
    - a [ModelInfo] object is shared between [self._models] and every list
      built from it, so the code below addresses it by its key in the one
      registry held in the servicer state;
    - the inference engine, the device and the file system are an oracle
      ([Engine]); a method of the servicer is a computation in the monad
      [M], which threads the servicer state and may raise;
    - the calls that may raise are those of the engine, the device and the
      file system that [Engine] gives an outcome to; [hasattr],
      [torch.cuda.is_available], [time.time], the logger and the creation
      of the random generator are total;
    - a comparison of an [int] with [x * 0.9] or [x * 0.7] is the
      comparison of the exact rationals;
    - the registry lock is held around every write to a [ModelInfo], so a
      method, or a loader thread, runs as one atomic step. *)

From Stdlib Require Import ZArith QArith List String Ascii Bool Lia.
From Stdlib Require Import Sorting.Permutation Sorting.Sorted.
From Stdlib Require Import DecimalString.
Import ListNotations.
Local Open Scope string_scope.
Local Open Scope Z_scope.

(** ** Constants *)

Definition DEFAULT_MODEL : string := "stabilityai/stable-diffusion-2-1".
Definition FALLBACK_MODEL : string := "runwayml/stable-diffusion-v1-5".
Definition MAX_IMAGE_SIZE : Z := 1024.
Definition MIN_IMAGE_SIZE : Z := 128.
Definition MAX_PROMPT_LENGTH : Z := 1000.
Definition MAX_STEPS : Z := 100.
Definition MAX_BATCH_SIZE : Z := 4.

(** ** Data model *)

Inductive ModelType := TEXT_TO_IMAGE | IMAGE_TO_IMAGE | INPAINTING.

Record ModelConfig := mkModelConfig {
  model_id : string;
  name : string;
  description : string;
  type : ModelType;
  default_size : Z * Z;
  supported_sizes : list (Z * Z);
  requires_safety_checker : bool;
  requires_scheduler : bool;
  requires_vae : bool;
  min_steps : Z;
  max_steps : Z;
  default_steps : Z;
  default_guidance_scale : Q;
  default_seed : Z;
  enabled : bool
}.

(** The result of an expression that may raise; an exception is kept as
    its message. *)
Inductive Outcome (A : Type) :=
| Return (a : A)
| Raise (e : string).
Arguments Return {A} a.
Arguments Raise {A} e.

(** What the servicer can observe of a pipeline object returned by the
    engine: the attributes it probes with [hasattr], its class, and what
    reading [pipe.unet.config] gives: an exception, a config without
    [sample_size] ([None]), or the sample size. *)
Record Pipeline := mkPipeline {
  pipe_name : string;
  class_name : string;
  is_StableDiffusionPipeline : bool;
  has_to : bool;
  has_scheduler : bool;
  has_unet : bool;
  has_text_encoder : bool;
  has_vae : bool;
  unet_config : Outcome (option Z)
}.

Record ModelInfo := mkModelInfo {
  config : ModelConfig;
  pipeline : option Pipeline;
  loaded : bool;
  loading : bool;
  load_error : option string;
  last_used : Z;
  memory_usage : Z;
  load_count : Z;
  error_count : Z
}.

(** [ModelInfo(config=config)] *)
Definition new_ModelInfo (c : ModelConfig) : ModelInfo :=
  mkModelInfo c None false false None 0 0 0 0.

Definition set_pipeline (p : option Pipeline) (m : ModelInfo) : ModelInfo :=
  mkModelInfo (config m) p (loaded m) (loading m) (load_error m)
              (last_used m) (memory_usage m) (load_count m) (error_count m).
Definition set_loaded (b : bool) (m : ModelInfo) : ModelInfo :=
  mkModelInfo (config m) (pipeline m) b (loading m) (load_error m)
              (last_used m) (memory_usage m) (load_count m) (error_count m).
Definition set_loading (b : bool) (m : ModelInfo) : ModelInfo :=
  mkModelInfo (config m) (pipeline m) (loaded m) b (load_error m)
              (last_used m) (memory_usage m) (load_count m) (error_count m).
Definition set_load_error (e : option string) (m : ModelInfo) : ModelInfo :=
  mkModelInfo (config m) (pipeline m) (loaded m) (loading m) e
              (last_used m) (memory_usage m) (load_count m) (error_count m).
Definition set_last_used (t : Z) (m : ModelInfo) : ModelInfo :=
  mkModelInfo (config m) (pipeline m) (loaded m) (loading m) (load_error m)
              t (memory_usage m) (load_count m) (error_count m).
Definition set_memory_usage (n : Z) (m : ModelInfo) : ModelInfo :=
  mkModelInfo (config m) (pipeline m) (loaded m) (loading m) (load_error m)
              (last_used m) n (load_count m) (error_count m).
Definition set_load_count (n : Z) (m : ModelInfo) : ModelInfo :=
  mkModelInfo (config m) (pipeline m) (loaded m) (loading m) (load_error m)
              (last_used m) (memory_usage m) n (error_count m).
Definition set_error_count (n : Z) (m : ModelInfo) : ModelInfo :=
  mkModelInfo (config m) (pipeline m) (loaded m) (loading m) (load_error m)
              (last_used m) (memory_usage m) (load_count m) n.

(** ** The registry: an insertion-ordered dict keyed by model id *)

Definition Registry := list (string * ModelInfo).

Fixpoint lookup (k : string) (r : Registry) : option ModelInfo :=
  match r with
  | [] => None
  | (k', m) :: r' => if String.eqb k k' then Some m else lookup k r'
  end.

(** In-place mutation of the object stored under [k]. *)
Fixpoint update (k : string) (f : ModelInfo -> ModelInfo) (r : Registry) : Registry :=
  match r with
  | [] => []
  | (k', m) :: r' =>
      if String.eqb k k' then (k', f m) :: r' else (k', m) :: update k f r'
  end.

(** [self._models[k] = m]: replaces the value in place or appends. *)
Fixpoint setitem (k : string) (m : ModelInfo) (r : Registry) : Registry :=
  match r with
  | [] => [(k, m)]
  | (k', m') :: r' =>
      if String.eqb k k' then (k', m) :: r' else (k', m') :: setitem k m r'
  end.

Definition keys (r : Registry) : list string := map fst r.
Definition values (r : Registry) : list ModelInfo := map snd r.

(** ** Persisted metadata and the on-disk cache *)

(** One JSON record of the metadata file; a key may be missing. *)
Record MetaRecord := mkMetaRecord {
  meta_last_used : option Z;
  meta_load_count : option Z;
  meta_error_count : option Z
}.

Definition MetaDoc := list (string * MetaRecord).

(** Contents of a file that is expected to hold the metadata document. *)
Inductive FileState :=
| Absent
| Torn                     (* a write that did not complete *)
| Unreadable (e : string)  (* [json.load] raises [e] *)
| Document (d : MetaDoc).

(** A child of the cache root as a disk sweep finds it. [atime = None]:
    [os.path.getatime] raises [OSError]. [files]: the size of every file
    below it, [None] where [os.path.getsize] raises. *)
Record DirEntry := mkDirEntry {
  entry_name : string;
  is_dir : bool;
  atime : option Z;
  files : list (option Z)
}.

(** The dicts appended to [model_dirs]. *)
Record CacheDir := mkCacheDir {
  cd_path : string;
  cd_last_used : Z;
  cd_size : Z
}.

(** ** Logging *)

Inductive Level := INFO | WARNING | ERROR.

(** A log record. [Msg] carries the message text; the other constructors
    stand for messages whose text formats a float. *)
Inductive LogMsg :=
| Msg (text : string)
| MsgRemovingCache (path : string) (size : Z)
| MsgLoaded (id : string)
| MsgHighGpu (allocated total : Z).

Definition LogRecord := (Level * LogMsg)%type.

(** ** Generation requests *)

(** The fields of the protobuf [ImageSettings] that the servicer reads; an
    unset numeric field reads as 0. *)
Record ImageSettings := mkImageSettings {
  width : Z;
  height : Z;
  steps : Z;
  guidance_scale : Q;
  seed : Z
}.

(** The keyword arguments of one call [pipe(...)]. *)
Record GenCall := mkGenCall {
  gen_pipe : Pipeline;
  gen_prompt : string;
  gen_width : Z;
  gen_height : Z;
  gen_steps : Z;
  gen_guidance_scale : Q;
  gen_seed : Z;
  gen_num_images : Z
}.

(** ** Servicer state *)

Inductive Dtype := float16 | float32.

Record Servicer := mkServicer {
  models : Registry;
  device : string;
  torch_dtype : Dtype;
  max_models_in_memory : Z;
  max_disk_cache_bytes : Z;
  metadata_file : FileState;
  metadata_tmp : FileState;
  cache_root : option (list DirEntry);
  loaders : list string;            (* started, unfinished ModelLoader threads *)
  pipe_calls : list GenCall;        (* every [pipe(...)] made so far *)
  log : list LogRecord
}.

Definition with_models (r : Registry) (s : Servicer) : Servicer :=
  mkServicer r (device s) (torch_dtype s) (max_models_in_memory s)
             (max_disk_cache_bytes s) (metadata_file s) (metadata_tmp s)
             (cache_root s) (loaders s) (pipe_calls s) (log s).
Definition with_device (d : string) (t : Dtype) (s : Servicer) : Servicer :=
  mkServicer (models s) d t (max_models_in_memory s)
             (max_disk_cache_bytes s) (metadata_file s) (metadata_tmp s)
             (cache_root s) (loaders s) (pipe_calls s) (log s).
Definition with_metadata_file (f : FileState) (s : Servicer) : Servicer :=
  mkServicer (models s) (device s) (torch_dtype s) (max_models_in_memory s)
             (max_disk_cache_bytes s) f (metadata_tmp s)
             (cache_root s) (loaders s) (pipe_calls s) (log s).
Definition with_metadata_tmp (f : FileState) (s : Servicer) : Servicer :=
  mkServicer (models s) (device s) (torch_dtype s) (max_models_in_memory s)
             (max_disk_cache_bytes s) (metadata_file s) f
             (cache_root s) (loaders s) (pipe_calls s) (log s).
Definition with_cache_root (c : option (list DirEntry)) (s : Servicer) : Servicer :=
  mkServicer (models s) (device s) (torch_dtype s) (max_models_in_memory s)
             (max_disk_cache_bytes s) (metadata_file s) (metadata_tmp s)
             c (loaders s) (pipe_calls s) (log s).
Definition with_loaders (l : list string) (s : Servicer) : Servicer :=
  mkServicer (models s) (device s) (torch_dtype s) (max_models_in_memory s)
             (max_disk_cache_bytes s) (metadata_file s) (metadata_tmp s)
             (cache_root s) l (pipe_calls s) (log s).
Definition with_pipe_calls (l : list GenCall) (s : Servicer) : Servicer :=
  mkServicer (models s) (device s) (torch_dtype s) (max_models_in_memory s)
             (max_disk_cache_bytes s) (metadata_file s) (metadata_tmp s)
             (cache_root s) (loaders s) l (log s).
Definition with_log (l : list LogRecord) (s : Servicer) : Servicer :=
  mkServicer (models s) (device s) (torch_dtype s) (max_models_in_memory s)
             (max_disk_cache_bytes s) (metadata_file s) (metadata_tmp s)
             (cache_root s) (loaders s) (pipe_calls s) l.

(** ** The monad of servicer methods *)

Definition M (A : Type) : Type := Servicer -> Outcome A * Servicer.

Definition ret {A} (a : A) : M A := fun s => (Return a, s).
Definition bind {A B} (c : M A) (k : A -> M B) : M B :=
  fun s => match c s with
           | (Return a, s') => k a s'
           | (Raise e, s') => (Raise e, s')
           end.
Definition raise {A} (e : string) : M A := fun s => (Raise e, s).

(** [try: c  except Exception as e: h e] *)
Definition try_except {A} (c : M A) (h : string -> M A) : M A :=
  fun s => match c s with
           | (Return a, s') => (Return a, s')
           | (Raise e, s') => h e s'
           end.

Definition get : M Servicer := fun s => (Return s, s).
Definition modify (f : Servicer -> Servicer) : M unit := fun s => (Return tt, f s).

(** Result of an engine call that may raise. *)
Definition lift {A} (o : Outcome A) : M A := fun s => (o, s).
(** An engine call made for its effect: [Some e] is the exception. *)
Definition effect (o : option string) : M unit :=
  fun s => match o with
           | None => (Return tt, s)
           | Some e => (Raise e, s)
           end.

Declare Scope servicer_scope.
Delimit Scope servicer_scope with servicer.
Notation "x <- c ;; k" := (bind c (fun x => k))
  (at level 100, c at next level, right associativity) : servicer_scope.
Notation "c ;; k" := (bind c (fun _ => k))
  (at level 100, right associativity) : servicer_scope.
Local Open Scope servicer_scope.

Definition when (b : bool) (c : M unit) : M unit := if b then c else ret tt.

Definition logger (l : Level) (m : LogMsg) : M unit :=
  modify (fun s => with_log (log s ++ [(l, m)]) s).

Definition get_models : M Registry := fun s => (Return (models s), s).
Definition mutate (k : string) (f : ModelInfo -> ModelInfo) : M unit :=
  modify (fun s => with_models (update k f (models s)) s).

(** [for x in l: body x], where [body] returns [true] on [break]. *)
Fixpoint for_each {A} (l : list A) (body : A -> M bool) : M unit :=
  match l with
  | [] => ret tt
  | x :: l' => brk <- body x ;; if brk then ret tt else for_each l' body
  end.

Definition is_Some {A} (o : option A) : bool :=
  match o with Some _ => true | None => false end.

(** ** The collaborators: inference engine, device, file system *)

Record Engine := mkEngine {
  DEFAULT_DEVICE : string;
  DEFAULT_TORCH_DTYPE : Dtype;
  os_posix : bool;                                   (* [os.name == 'posix'] *)
  cuda_is_available : bool;
  cuda_empty_cache : option string;
  cuda_total_memory : Outcome Z;
  cuda_memory_reserved : Outcome Z;
  cuda_memory_allocated : nat -> Outcome Z;          (* the n-th reading *)
  randint : Z;
  mkdir : string -> option string;
  from_pretrained : string -> bool -> Outcome Pipeline;  (* id, [revision="fp16"]? *)
  pipe_to : Pipeline -> string -> Outcome Pipeline;
  scheduler_from_config : Pipeline -> option string;
  pipe_call : GenCall -> option string;              (* the call and the unpacking of its result *)
  rmtree : string -> option string;
  open_tmp : option string;                          (* [open(temp_path, 'w')] *)
  json_dump : option string;
  os_replace : option string;
  os_remove : option string;
  os_rename : option string
}.

(** ** Strings *)

(** [needle in hay] *)
Fixpoint contains (needle hay : string) : bool :=
  if String.prefix needle hay then true
  else match hay with
       | EmptyString => false
       | String _ hay' => contains needle hay'
       end.

(** [str(n)] for an [int] *)
Definition str (n : Z) : string := NilZero.string_of_int (Z.to_int n).

(** [s[:n]] *)
Definition take (n : nat) (s : string) : string := String.substring 0 n s.

(** ** Stable sorting, as [list.sort] *)

Section Sort.
Context {A : Type} (le : A -> A -> bool).

Fixpoint insert (x : A) (l : list A) : list A :=
  match l with
  | [] => [x]
  | y :: l' => if le x y then x :: y :: l' else y :: insert x l'
  end.

(** [l.sort(key=...)]: elements with equal keys keep their order. *)
Fixpoint sort (l : list A) : list A :=
  match l with
  | [] => []
  | x :: l' => insert x (sort l')
  end.
End Sort.

(** Order of the key tuples [(last_used, error_count)]. *)
Definition tuple_le (a b : Z * Z) : bool :=
  (fst a <? fst b) || ((fst a =? fst b) && (snd a <=? snd b)).

(** ** The methods of [ImageGenerationServicer] *)

Definition SD21 : ModelConfig :=
  mkModelConfig "stabilityai/stable-diffusion-2-1" "Stable Diffusion 2.1"
    "Stable Diffusion 2.1 model with 768x768 resolution" TEXT_TO_IMAGE
    (768, 768) [(512, 512); (768, 768)] true true false
    10 100 30 (75 # 10) (-1) true.

Definition SD15 : ModelConfig :=
  mkModelConfig "runwayml/stable-diffusion-v1-5" "Stable Diffusion 1.5"
    "Stable Diffusion 1.5 model with 512x512 resolution" TEXT_TO_IMAGE
    (512, 512) [(384, 384); (512, 512)] true true false
    10 100 25 (75 # 10) (-1) true.

Definition model_configs : list ModelConfig := [SD21; SD15].

Definition _init_models : M unit :=
  modify (fun s =>
    with_models
      (fold_left (fun r c => setitem (model_id c) (new_ModelInfo c) r)
                 model_configs (models s)) s).

(** The live object behind an entry of a list built from [self._models]. *)
Definition field {A} (r : Registry) (f : ModelInfo -> A) (d : A) (k : string) : A :=
  match lookup k r with
  | Some m => f m
  | None => d
  end.

(** [info.loaded and info.pipeline is not None] *)
Definition resident (m : ModelInfo) : bool := loaded m && is_Some (pipeline m).

Definition loaded_ids (r : Registry) : list string :=
  map fst (filter (fun kv => resident (snd kv)) r).

Definition len {A} (l : list A) : Z := Z.of_nat (List.length l).

Section Methods.
Variable E : Engine.

(** *** Validation and warm-up *)

Definition _validate_model (pipe : Pipeline) (model_config : ModelConfig)
  : bool * string :=
  if negb (has_unet pipe) || negb (has_text_encoder pipe) || negb (has_vae pipe)
  then (false, "Missing required model components (UNet, TextEncoder, or VAE)")
  else
    if (match type model_config with TEXT_TO_IMAGE => true | _ => false end)
       && negb (is_StableDiffusionPipeline pipe)
    then (false, "Expected text-to-image model but got " ++ class_name pipe)
    else
      match unet_config pipe with
      | Raise e => (false, "Validation error: " ++ e)
      | Return None => (true, EmptyString)
      | Return (Some sample_size) =>
          let expected_size := 64 in
          if negb (sample_size =? expected_size)
          then (false, "Unexpected UNet sample size: " ++ str sample_size
                         ++ " (expected " ++ str expected_size ++ ")")
          else (true, EmptyString)
      end.

(** [x or d] on numbers *)
Definition or_Z (x d : Z) : Z := if x =? 0 then d else x.
Definition or_Q (x d : Q) : Q := if Qeq_bool x 0 then d else x.
Definition Qmin' (a b : Q) : Q := if Qle_bool a b then a else b.
Definition Qmax' (a b : Q) : Q := if Qle_bool b a then a else b.

Definition _generate_image (pipe : Pipeline) (prompt : string)
    (settings : ImageSettings) (num_images_per_prompt : Z) : M GenCall :=
  let width := Z.min (Z.max (or_Z (width settings) 512) MIN_IMAGE_SIZE) MAX_IMAGE_SIZE in
  let height := Z.min (Z.max (or_Z (height settings) 512) MIN_IMAGE_SIZE) MAX_IMAGE_SIZE in
  let num_inference_steps := Z.min (Z.max (or_Z (steps settings) 25) 1) MAX_STEPS in
  let guidance_scale :=
    Qmax' (Qmin' (or_Q (guidance_scale settings) (75 # 10)) (20 # 1)) (1 # 1) in
  let seed := if seed settings =? -1 then randint E else seed settings in
  let gen_kwargs :=
    mkGenCall pipe prompt width height num_inference_steps guidance_scale seed
              num_images_per_prompt in
  modify (fun s => with_pipe_calls (pipe_calls s ++ [gen_kwargs]) s) ;;
  effect (pipe_call E gen_kwargs) ;;
  ret gen_kwargs.

Definition _warmup_model (pipe : Pipeline) (model_config : ModelConfig)
  : M (bool * string) :=
  try_except
    (let test_prompt := "a small red square" in
     let test_settings := mkImageSettings 64 64 2 (1 # 1) 0 in
     _generate_image pipe test_prompt test_settings 1 ;;
     ret (true, EmptyString))
    (fun e => ret (false, "Warmup failed: " ++ e)).

(** *** Load and unload *)

Definition _unload_model (model_id : string) : M unit :=
  try_except
    (r <- get_models ;;
     match field r pipeline None model_id with
     | Some p =>
         when (has_to p) (lift (pipe_to E p "cpu") ;; ret tt) ;;
         when (cuda_is_available E) (effect (cuda_empty_cache E)) ;;
         mutate model_id (fun m => set_loaded false (set_pipeline None m)) ;;
         logger INFO (Msg ("Unloaded model: " ++ model_id))
     | None => ret tt
     end)
    (fun e =>
       logger ERROR (Msg ("Error unloading model " ++ model_id ++ ": " ++ e)) ;;
       mutate model_id (fun m => set_error_count (error_count m + 1) m)).

(** [threading.Thread(target=_load, ...).start()] *)
Definition start_loader (model_id : string) : M unit :=
  modify (fun s => with_loaders (loaders s ++ [model_id]) s).

Definition _load_model (model_id : string) : M bool :=
  r <- get_models ;;
  match lookup model_id r with
  | None =>
      logger WARNING (Msg ("Unknown model: " ++ model_id)) ;;
      ret false
  | Some model_info =>
      if loaded model_info then ret true
      else if loading model_info then ret false
      else
        mutate model_id (set_loading true) ;;
        start_loader model_id ;;
        ret true
  end.

(** [try: c] with the exception, if any, kept as a value: lets the
    handler know whether the body had bound its local [pipe]. *)
Definition attempt {A} (c : M A) : M (Outcome A) :=
  try_except (a <- c ;; ret (Return a)) (fun e => ret (Raise e)).

(** The three tiers of [StableDiffusionPipeline.from_pretrained]. *)
Definition construct (model_id : string) : M Pipeline :=
  if negb (String.eqb (DEFAULT_DEVICE E) "cpu") then
    try_except
      (lift (from_pretrained E model_id true))
      (fun e =>
         logger WARNING (Msg ("FP16 load failed, trying without revision: " ++ e)) ;;
         lift (from_pretrained E model_id false))
  else lift (from_pretrained E model_id false).

(** The inner [try] of [_load] from the move to the device up to the
    scheduler; returns [pipe] as validation will see it. *)
Definition ready (pipe : Pipeline) : M Pipeline :=
  pipe <- try_except
            (s <- get ;; lift (pipe_to E pipe (device s)))
            (fun e =>
               s <- get ;;
               logger WARNING (Msg ("Failed to move model to " ++ device s
                                      ++ ", falling back to CPU: " ++ e)) ;;
               modify (with_device "cpu" float32) ;;
               lift (pipe_to E pipe "cpu")) ;;
  when (has_scheduler pipe) (effect (scheduler_from_config E pipe)) ;;
  ret pipe.

(** The inner [try] of [_load] from validation on. *)
Definition commit (model_id : string) (model_config : ModelConfig)
    (now : Z) (pipe : Pipeline) : M (option bool) :=
  let (is_valid, validation_error) := _validate_model pipe model_config in
  if negb is_valid
  then raise ("Model validation failed: " ++ validation_error)
  else
    warm <- _warmup_model pipe model_config ;;
    let (warmup_ok, warmup_error) := warm : bool * string in
    when (negb warmup_ok)
         (logger WARNING
            (Msg ("Model warmup failed (continuing anyway): " ++ warmup_error))) ;;
    mutate model_id (fun m =>
      set_last_used now
        (set_load_count (load_count m + 1)
           (set_loading false (set_loaded true (set_pipeline (Some pipe) m))))) ;;
    when (String.prefix "cuda" (DEFAULT_DEVICE E) && cuda_is_available E)
         (n <- lift (cuda_memory_allocated E 0) ;;
          mutate model_id (set_memory_usage n)) ;;
    logger INFO (MsgLoaded model_id) ;;
    ret None.

(** The body of the inner [try] of [_load] once [pipe] is bound. *)
Definition finish (model_id : string) (model_config : ModelConfig)
    (now : Z) (pipe : Pipeline) : M (option bool) :=
  pipe <- ready pipe ;;
  commit model_id model_config now pipe.

(** [model_info.load_error = error_msg; model_info.loading = False;
    model_info.error_count += 1] *)
Definition record_failure (model_id error_msg : string) : M unit :=
  logger ERROR (Msg error_msg) ;;
  mutate model_id (fun m =>
    set_error_count (error_count m + 1)
      (set_loading false (set_load_error (Some error_msg) m))).

(** The handler of the inner [try] of [_load]. *)
Definition on_failure (model_id : string) (pipe_bound : bool) (e : string)
  : M (option bool) :=
  when pipe_bound (when (cuda_is_available E) (effect (cuda_empty_cache E))) ;;
  let fail_load :=
    record_failure model_id ("Failed to load model " ++ model_id ++ ": " ++ e) ;;
    ret None in
  if contains "Unexpected UNet sample size" e then
    logger WARNING (Msg "UNet sample size mismatch, trying with a different variant...") ;;
    if String.eqb model_id "stabilityai/stable-diffusion-2-1"
    then b <- _load_model "runwayml/stable-diffusion-v1-5" ;; ret (Some b)
    else fail_load
  else fail_load.

(** The handler of the outer [try] of [_load]. *)
Definition on_unexpected (model_id e : string) : M (option bool) :=
  record_failure model_id
    ("Unexpected error loading model " ++ model_id ++ ": " ++ e) ;;
  ret None.

(** The closure [_load] that [_load_model] hands to the loader thread;
    [now] is the reading of [time.time()] at the update. *)
Definition _load (model_id : string) (now : Z) : M (option bool) :=
  r <- get_models ;;
  match lookup model_id r with
  | None => ret None      (* the closure holds [model_info]: not reached *)
  | Some model_info =>
      try_except
        (logger INFO (Msg ("Loading model: " ++ model_id)) ;;
         effect (mkdir E model_id) ;;
         constructed <- attempt (construct model_id) ;;
         match constructed with
         | Return pipe =>
             try_except (finish model_id (config model_info) now pipe)
                        (on_failure model_id true)
         | Raise e => on_failure model_id false e
         end)
        (on_unexpected model_id)
  end.

Fixpoint remove_first (k : string) (l : list string) : list string :=
  match l with
  | [] => []
  | k' :: l' => if String.eqb k k' then l' else k' :: remove_first k l'
  end.

(** One loader thread running to its end. *)
Definition run_loader (model_id : string) (now : Z) : M unit :=
  _load model_id now ;;
  modify (fun s => with_loaders (remove_first model_id (loaders s)) s).

Definition _get_model_info (model_id : string) (now : Z) : M (option ModelInfo) :=
  r <- get_models ;;
  match lookup model_id r with
  | None => ret None
  | Some model_info =>
      mutate model_id (set_last_used now) ;;
      when (negb (loaded model_info) && negb (loading model_info))
           (_load_model model_id ;; ret tt) ;;
      r' <- get_models ;;
      ret (lookup model_id r')
  end.

(** *** The memory sweep *)

Definition skip_default (model_id : string) (loaded_models : list string) : bool :=
  String.eqb model_id DEFAULT_MODEL && (1 <? len loaded_models).

Definition by_age (r : Registry) (a b : string) : bool :=
  tuple_le (field r last_used 0 a, field r error_count 0 a)
           (field r last_used 0 b, field r error_count 0 b).

Definition by_size_desc (r : Registry) (a b : string) : bool :=
  field r memory_usage 0 b <=? field r memory_usage 0 a.

(** The first [if] of [_cleanup_models]. Returns whether the method
    returned there, and [loaded_models] as the in-place sort left it. *)
Definition count_sweep (loaded_models : list string) : M (bool * list string) :=
  s <- get ;;
  if max_models_in_memory s <? len loaded_models then
    let loaded_models := sort (by_age (models s)) loaded_models in
    let num_to_unload := len loaded_models - max_models_in_memory s in
    if num_to_unload <=? 0 then ret (true, loaded_models)
    else
      logger INFO (Msg ("Unloading " ++ str num_to_unload
                          ++ " models to maintain memory limit of "
                          ++ str (max_models_in_memory s))) ;;
      for_each (firstn (Z.to_nat num_to_unload) loaded_models)
        (fun model_id =>
           if skip_default model_id loaded_models then ret false
           else
             _unload_model model_id ;;
             r <- get_models ;;
             ret (len (filter resident (values r)) <=? max_models_in_memory s)) ;;
      ret (false, loaded_models)
  else ret (false, loaded_models).

(** The loop under [allocated > total_mem * 0.9]; [n] numbers the
    readings of [torch.cuda.memory_allocated]. The comparison with
    [total_mem * 0.7] is taken over the rationals. *)
Fixpoint pressure_loop (total_mem : Z) (loaded_models todo : list string)
    (n : nat) : M unit :=
  match todo with
  | [] => ret tt
  | model_id :: todo' =>
      if skip_default model_id loaded_models
      then pressure_loop total_mem loaded_models todo' n
      else
        _unload_model model_id ;;
        effect (cuda_empty_cache E) ;;
        allocated <- lift (cuda_memory_allocated E n) ;;
        if 10 * allocated <=? 7 * total_mem then ret tt
        else pressure_loop total_mem loaded_models todo' (S n)
  end.

(** The handler of the [try] around the CUDA readings. *)
Definition conservative_cleanup (loaded_models : list string) (e : string) : M unit :=
  logger ERROR (Msg ("Error checking CUDA memory: " ++ e)) ;;
  s <- get ;;
  when (1 <? len loaded_models)
    (for_each (tl loaded_models)
       (fun model_id =>
          _unload_model model_id ;;
          r <- get_models ;;
          ret (len (filter loaded (values r))
               <=? Z.max 1 (max_models_in_memory s / 2)))).

Definition cuda_readings : M (Z * Z) :=
  total_mem <- lift (cuda_total_memory E) ;;
  lift (cuda_memory_reserved E) ;;
  allocated <- lift (cuda_memory_allocated E 0) ;;
  ret (total_mem, allocated).

Definition _cleanup_models : M unit :=
  r <- get_models ;;
  let loaded_models := loaded_ids r in
  swept <- count_sweep loaded_models ;;
  let (returned, loaded_models) := swept : bool * list string in
  if returned then ret tt
  else
    when (cuda_is_available E)
      (readings <- attempt cuda_readings ;;
       match readings with
       | Raise e => conservative_cleanup loaded_models e
       | Return (total_mem, allocated) =>
           if 9 * total_mem <? 10 * allocated then
             logger WARNING (MsgHighGpu allocated total_mem) ;;
             r <- get_models ;;
             let loaded_models := sort (by_size_desc r) loaded_models in
             try_except
               (pressure_loop total_mem loaded_models loaded_models 1)
               (conservative_cleanup loaded_models)
           else ret tt
       end).
End Methods.

Section Maintenance.
Variable E : Engine.

(** *** The metadata store *)

Definition json_load (f : FileState) : M MetaDoc :=
  match f with
  | Document d => ret d
  | Unreadable e => raise e
  | Torn => raise "Expecting value"
  | Absent => raise "No such file or directory"
  end.

(** [d.get(key, 0)] *)
Definition get_or (d : Z) (v : option Z) : Z :=
  match v with Some x => x | None => d end.

Definition _load_cache_metadata : M unit :=
  s <- get ;;
  match metadata_file s with
  | Absent => ret tt
  | f =>
      try_except
        (cache_data <- json_load f ;;
         for_each cache_data
           (fun item =>
              let (model_id, model_info) := item : string * MetaRecord in
              r <- get_models ;;
              when (is_Some (lookup model_id r))
                (mutate model_id (fun m =>
                   set_error_count (get_or 0 (meta_error_count model_info))
                     (set_load_count (get_or 0 (meta_load_count model_info))
                        (set_last_used (get_or 0 (meta_last_used model_info)) m)))) ;;
              ret false))
        (fun e => logger WARNING (Msg ("Failed to load cache metadata: " ++ e)))
  end.

Definition cache_data_of (r : Registry) : MetaDoc :=
  map (fun kv => (fst kv,
                  mkMetaRecord (Some (last_used (snd kv)))
                               (Some (load_count (snd kv)))
                               (Some (error_count (snd kv))))) r.

Definition exists_file (f : FileState) : bool :=
  match f with Absent => false | _ => true end.

(** [os.replace] and [os.rename] of the temporary file onto the target. *)
Definition move_tmp : M unit :=
  modify (fun s => with_metadata_tmp Absent (with_metadata_file (metadata_tmp s) s)).

Definition _save_cache_metadata : M unit :=
  try_except
    (r <- get_models ;;
     let cache_data := cache_data_of r in
     effect (open_tmp E) ;;
     modify (with_metadata_tmp Torn) ;;
     effect (json_dump E) ;;
     modify (with_metadata_tmp (Document cache_data)) ;;
     if os_posix E then
       effect (os_replace E) ;;
       move_tmp
     else
       s <- get ;;
       when (exists_file (metadata_file s))
            (effect (os_remove E) ;; modify (with_metadata_file Absent)) ;;
       effect (os_rename E) ;;
       move_tmp)
    (fun e => logger ERROR (Msg ("Failed to save cache metadata: " ++ e))).

(** *** The disk sweep *)

(** [_get_disk_usage]: the sizes of the files under the directory, a
    file whose [os.path.getsize] raises ([None]) being left out. *)
Fixpoint _get_disk_usage (files : list (option Z)) : Z :=
  match files with
  | [] => 0
  | Some n :: fs => n + _get_disk_usage fs
  | None :: fs => _get_disk_usage fs
  end.


(** The first loop of [_cleanup_disk_cache]. *)
Definition scan (entries : list DirEntry) : list CacheDir :=
  flat_map
    (fun model_dir =>
       if negb (is_dir model_dir) then []
       else match atime model_dir with
            | Some last_used =>
                [mkCacheDir (entry_name model_dir) last_used
                            (_get_disk_usage (files model_dir))]
            | None => []
            end)
    entries.

(** What a successful [shutil.rmtree(path)] does to the cache root. *)
Definition remove_tree (path : string) (s : Servicer) : Servicer :=
  with_cache_root
    (option_map (filter (fun d => negb (String.eqb (entry_name d) path)))
                (cache_root s)) s.

(** The body of the [while] loop of [_cleanup_disk_cache] after the
    [pop]: returns [total_size] as the iteration leaves it. *)
Definition remove_cache (oldest : CacheDir) (total_size : Z) : M Z :=
  try_except
    (logger INFO (MsgRemovingCache (cd_path oldest) (cd_size oldest)) ;;
     effect (rmtree E (cd_path oldest)) ;;
     modify (remove_tree (cd_path oldest)) ;;
     ret (total_size - cd_size oldest))
    (fun e =>
       logger ERROR (Msg ("Failed to remove " ++ cd_path oldest ++ ": " ++ e)) ;;
       ret total_size).

(** The [while] loop of [_cleanup_disk_cache]; returns [model_dirs] and
    [total_size] as the loop leaves them. [total_size > quota * 0.9] is
    taken over the rationals. *)
Fixpoint disk_loop (quota : Z) (model_dirs : list CacheDir) (total_size : Z)
  : M (list CacheDir * Z) :=
  match model_dirs with
  | [] => ret ([], total_size)
  | oldest :: model_dirs' =>
      if 9 * quota <? 10 * total_size then
        total_size' <- remove_cache oldest total_size ;;
        disk_loop quota model_dirs' total_size'
      else ret (model_dirs, total_size)
  end.

Definition sum (l : list Z) : Z := fold_left Z.add l 0.

Definition by_last_used (a b : CacheDir) : bool := cd_last_used a <=? cd_last_used b.

Definition _cleanup_disk_cache : M unit :=
  s <- get ;;
  match cache_root s with
  | None => ret tt
  | Some entries =>
      let model_dirs := sort by_last_used (scan entries) in
      let total_size := sum (map cd_size model_dirs) in
      disk_loop (max_disk_cache_bytes s) model_dirs total_size ;;
      ret tt
  end.

(** *** Shutdown *)

(** The event and the two joins have no counterpart in the state. *)
Definition stop : M unit :=
  _save_cache_metadata ;;
  r <- get_models ;;
  for_each (keys r)
    (fun model_id =>
       r' <- get_models ;;
       when (field r' resident false model_id) (_unload_model E model_id) ;;
       ret false) ;;
  when (cuda_is_available E) (effect (cuda_empty_cache E)).

(** *** Construction *)

(** [__init__], with the loader of the default model started and the two
    maintenance threads left to the step relation below. *)
Definition __init__ : M bool :=
  _init_models ;;
  _load_cache_metadata ;;
  _load_model DEFAULT_MODEL.

End Maintenance.

(** The attributes set by [__init__] before [_init_models]. *)
Definition fresh (E : Engine) (max_models max_disk_bytes : Z)
    (file : FileState) (root : option (list DirEntry)) : Servicer :=
  mkServicer [] (DEFAULT_DEVICE E) (DEFAULT_TORCH_DTYPE E) max_models max_disk_bytes
             file Absent root [] [] [].

(** *** Model status, as [GetImageModels] reports it *)

(** Truth value of an [Optional[str]]. *)
Definition truthy (o : option string) : bool :=
  match o with
  | Some (String _ _) => true
  | _ => false
  end.

Definition status_of (info : ModelInfo) : string :=
  let status := if loaded info then "loaded" else "not_loaded" in
  if loading info then "loading"
  else if truthy (load_error info)
       then "error: " ++ take 100 (match load_error info with Some e => e | None => EmptyString end)
       else status.

(** The [status] parameter of every entry of the response, in order. *)
Definition GetImageModels : M (list (string * string)) :=
  r <- get_models ;;
  ret (map (fun kv => (fst kv, status_of (snd kv))) r).

(** * Executions *)

(** ** The writes of the request handlers

    [GenerateImage], [GenerateImageVariations] and [GenerateImageToImage]
    fetch their model with [_get_model_info]; apart from that they write
    [last_used] before generating and [error_count] when they fail. *)

Definition touch (model_id : string) (now : Z) : M unit :=
  mutate model_id (set_last_used now).

Definition count_error (model_id : string) : M unit :=
  mutate model_id (fun m => set_error_count (error_count m + 1) m).

(** One atomic action on the shared servicer: a method run to its end
    against some behaviour of the collaborators. [_load_model] and
    [_unload_model] run inside the other methods; they are steps of their
    own as well, so that what holds of every execution below holds of
    every interleaving of them too. *)
Inductive step : Servicer -> Servicer -> Prop :=
| step_load_model id s :
    step s (snd (_load_model id s))
| step_unload_model E id s :
    step s (snd (_unload_model E id s))
| step_get_model_info id now s :
    step s (snd (_get_model_info id now s))
| step_touch id now s :
    step s (snd (touch id now s))
| step_count_error id s :
    step s (snd (count_error id s))
| step_generate E pipe prompt settings n s :
    step s (snd (_generate_image E pipe prompt settings n s))
| step_loader E id now s :
    In id (loaders s) ->
    step s (snd (run_loader E id now s))
| step_cleanup_models E s :
    step s (snd (_cleanup_models E s))
| step_save_cache_metadata E s :
    step s (snd (_save_cache_metadata E s))
| step_cleanup_disk_cache E s :
    step s (snd (_cleanup_disk_cache E s))
| step_stop E s :
    step s (snd (stop E s)).

(** The states of a servicer from its construction on. *)
Inductive reachable : Servicer -> Prop :=
| reach_init E max_models max_disk_bytes file root :
    reachable (snd (__init__ (fresh E max_models max_disk_bytes file root)))
| reach_step s s' :
    reachable s -> step s s' -> reachable s'.

(** ** Phases *)

Inductive Phase := Unloaded | Loading | Loaded.

(** The phases in terms of the two flags of [ModelInfo]. *)
Definition in_phase (p : Phase) (m : ModelInfo) : Prop :=
  match p with
  | Unloaded => loaded m = false /\ loading m = false
  | Loading => loading m = true
  | Loaded => loaded m = true
  end.

Definition exactly_one_phase (m : ModelInfo) : Prop :=
  exists p, in_phase p m /\ forall q, in_phase q m -> q = p.

(** The invariant of the data model: never loaded and loading at once,
    and a pipeline handle exactly when loaded. *)
Definition phase_ok (m : ModelInfo) : Prop :=
  loaded m && loading m = false /\ is_Some (pipeline m) = loaded m.

(** A recorded load error is never the empty string. *)
Definition error_ok (m : ModelInfo) : Prop :=
  load_error m = None \/ truthy (load_error m) = true.

(** A property of every registry entry, given its key. *)
Definition all_models (P : string -> ModelInfo -> Prop) (s : Servicer) : Prop :=
  Forall (fun kv => P (fst kv) (snd kv)) (models s).

(** The state after [mutate k f]. *)
Definition write (k : string) (f : ModelInfo -> ModelInfo) (s : Servicer) : Servicer :=
  with_models (update k f (models s)) s.

(** A computation keeps a property of the state, whatever it returns. *)
Definition preserves {A} (I : Servicer -> Prop) (c : M A) : Prop :=
  forall s, I s -> I (snd (c s)).

(** ** Collaborators used in examples *)

(** A complete Stable Diffusion pipeline with the given UNet sample size. *)
Definition sd_pipeline (id : string) (sample_size : Z) : Pipeline :=
  mkPipeline id "StableDiffusionPipeline" true true true true true true
             (Return (Some sample_size)).

(** A CPU-only POSIX host on which nothing fails but, possibly, the
    download of the weights. *)
Definition cpu_host_with (weights : string -> Outcome Pipeline) : Engine :=
  mkEngine "cpu" float32 true false None (Return 0) (Return 0) (fun _ => Return 0) 7
    (fun _ => None) (fun id _ => weights id)
    (fun p _ => Return p) (fun _ => None) (fun _ => None) (fun _ => None)
    None None None None None.

(** The published weights of Stable Diffusion 2.1 have a UNet sample size
    of 96, those of Stable Diffusion 1.5 one of 64. *)
Definition cpu_host : Engine :=
  cpu_host_with (fun id => if String.eqb id DEFAULT_MODEL
                           then Return (sd_pipeline id 96)
                           else Return (sd_pipeline id 64)).

(** Weights that all pass validation. *)
Definition uniform_host : Engine :=
  cpu_host_with (fun id => Return (sd_pipeline id 64)).

(** The weights cannot be fetched. *)
Definition offline_host : Engine :=
  cpu_host_with (fun _ => Raise "Connection error").

(** The servicer as [__init__] leaves it on [cpu_host] with the default
    limits, no metadata file and no cache directory. *)
Definition started : Servicer :=
  snd (__init__ (fresh cpu_host 2 (10 * 1024 * 1024 * 1024) Absent None)).

(** ** Statements about executions *)

(** Zero or more steps. *)
Inductive execution : Servicer -> Servicer -> Prop :=
| exec_done s : execution s s
| exec_step s s' s'' : step s s' -> execution s' s'' -> execution s s''.

(** The status precedence, written out: loading first, then a recorded
    error, then the loaded flag. *)
Definition reported (m : ModelInfo) : string :=
  if loading m then "loading"
  else match load_error m with
       | Some e => "error: " ++ take 100 e
       | None => if loaded m then "loaded" else "not_loaded"
       end.

(** The model has a recorded load error. *)
Definition failed_before (id : string) (s : Servicer) : Prop :=
  exists m, lookup id (models s) = Some m /\ load_error m <> None.

(** ** The load task, seen from outside *)

(** The pipeline on which the load task of [id] calls [_validate_model]
    when [self.device] is [dev]: what the download tiers, the move to the
    device and the scheduler leave, or the exception that ends the task
    before validation. *)
Definition validated (E : Engine) (id dev : string) : Outcome Pipeline :=
  match mkdir E id with
  | Some e => Raise e
  | None =>
      let downloaded :=
        if negb (String.eqb (DEFAULT_DEVICE E) "cpu") then
          match from_pretrained E id true with
          | Return p => Return p
          | Raise _ => from_pretrained E id false
          end
        else from_pretrained E id false in
      match downloaded with
      | Raise e => Raise e
      | Return p0 =>
          let moved :=
            match pipe_to E p0 dev with
            | Return p => Return p
            | Raise _ => pipe_to E p0 "cpu"
            end in
          match moved with
          | Raise e => Raise e
          | Return p =>
              if has_scheduler p then
                match scheduler_from_config E p with
                | Some e => Raise e
                | None => Return p
                end
              else Return p
          end
      end
  end.

(** [ImageSettings(width=64, height=64, steps=2, guidance_scale=1.0)] as
    [_generate_image] passes it on to the pipeline. *)
Definition warmup_call (pipe : Pipeline) : GenCall :=
  mkGenCall pipe "a small red square" 128 128 2 (1 # 1) 0 1.

(** [needle] occurs in [s]. *)
Definition names (s needle : string) : Prop :=
  exists pre post, s = pre ++ needle ++ post.

(** The smallest of a list of resolutions, by pixel count. *)
Fixpoint smallest_size (l : list (Z * Z)) : option (Z * Z) :=
  match l with
  | [] => None
  | a :: l' =>
      match smallest_size l' with
      | None => Some a
      | Some b => if fst a * snd a <=? fst b * snd b then Some a else Some b
      end
  end.

(** The warm-up request that C6 describes. *)
Definition warmup_as_claimed (cfg : ModelConfig) (c : GenCall) : Prop :=
  Some (gen_width c, gen_height c) = smallest_size (supported_sizes cfg)
  /\ gen_steps c = min_steps cfg.

(** A pipeline that came back without its VAE. *)
Definition no_vae_pipeline (id : string) : Pipeline :=
  mkPipeline id "StableDiffusionPipeline" true true true true true false
             (Return (Some 64)).

Definition no_vae_host : Engine :=
  cpu_host_with (fun id => Return (no_vae_pipeline id)).

(** A host on which every generation runs out of memory. *)
Definition oom_host : Engine :=
  mkEngine "cpu" float32 true false None (Return 0) (Return 0) (fun _ => Return 0) 7
    (fun _ => None) (fun id _ => Return (sd_pipeline id 64))
    (fun p _ => Return p) (fun _ => None) (fun _ => Some "out of memory") (fun _ => None)
    None None None None None.

(** ** Releasing a pipeline *)

(** The exception, if any, raised by the two release calls of
    [_unload_model]: the move to the CPU and the emptying of the CUDA
    cache. *)
Definition release_error (E : Engine) (p : Pipeline) : option string :=
  match (if has_to p then pipe_to E p "cpu" else Return p) with
  | Raise e => Some e
  | Return _ => if cuda_is_available E then cuda_empty_cache E else None
  end.

(** What [_unload_model] leaves of a model that holds a pipeline. *)
Definition unloaded_or_counted (E : Engine) (m : ModelInfo) : ModelInfo :=
  match pipeline m with
  | None => m
  | Some p =>
      match release_error E p with
      | None => set_loaded false (set_pipeline None m)
      | Some _ => set_error_count (error_count m + 1) m
      end
  end.

(** A host whose device does not let go of a pipeline. *)
Definition busy_host : Engine :=
  mkEngine "cpu" float32 true false None (Return 0) (Return 0) (fun _ => Return 0) 7
    (fun _ => None) (fun id _ => Return (sd_pipeline id 64))
    (fun p _ => Raise "device busy") (fun _ => None) (fun _ => None) (fun _ => None)
    None None None None None.

(** The default model loaded on [uniform_host]. *)
Definition serving : Servicer :=
  snd (run_loader uniform_host DEFAULT_MODEL 5 started).

(** The default model after a load that found the host offline. *)
Definition failed_once : Servicer :=
  snd (run_loader offline_host DEFAULT_MODEL 10 started).

(** ... then requested again and loaded. *)
Definition recovered : Servicer :=
  snd (run_loader uniform_host DEFAULT_MODEL 30
         (snd (_get_model_info DEFAULT_MODEL 20 failed_once))).

(** ** The metadata document *)

Fixpoint doc_lookup (k : string) (d : MetaDoc) : option MetaRecord :=
  match d with
  | [] => None
  | (k', rec) :: d' => if String.eqb k k' then Some rec else doc_lookup k d'
  end.

(** The record that [_save_cache_metadata] writes for a model. *)
Definition record_of (m : ModelInfo) : MetaRecord :=
  mkMetaRecord (Some (last_used m)) (Some (load_count m)) (Some (error_count m)).

Definition is_None {A} (o : option A) : bool := negb (is_Some o).

(** No file operation of [_save_cache_metadata] raises, given what the
    target file is when the save starts. *)
Definition save_succeeds (E : Engine) (target : FileState) : bool :=
  is_None (open_tmp E) && is_None (json_dump E)
  && (if os_posix E then is_None (os_replace E)
      else (negb (exists_file target) || is_None (os_remove E))
           && is_None (os_rename E)).

(** The default model in [serving] and in [failed_once]. *)
Definition served_model : ModelInfo :=
  mkModelInfo SD21 (Some (sd_pipeline DEFAULT_MODEL 64)) true false None 5 0 1 0.

Definition failed_model : ModelInfo :=
  mkModelInfo SD21 None false false
    (Some "Failed to load model stabilityai/stable-diffusion-2-1: Connection error")
    0 0 0 1.

(** ** Shutdown and persistence *)

(** The body of the loop of [stop]. *)
Definition stop_body (E : Engine) (model_id : string) : M bool :=
  bind get_models (fun r' =>
    bind (when (field r' resident false model_id) (_unload_model E model_id))
         (fun _ => ret false)).

(** What [stop] leaves of a model. *)
Definition stopped (E : Engine) (m : ModelInfo) : ModelInfo :=
  if resident m then unloaded_or_counted E m else m.

(** [load] followed by [save]. *)
Definition load_then_save (E : Engine) : M unit :=
  bind _load_cache_metadata (fun _ => _save_cache_metadata E).

(** The body of the loop of [_load_cache_metadata]. *)
Definition absorb (rec : MetaRecord) (m : ModelInfo) : ModelInfo :=
  set_error_count (get_or 0 (meta_error_count rec))
    (set_load_count (get_or 0 (meta_load_count rec))
       (set_last_used (get_or 0 (meta_last_used rec)) m)).

Definition load_body (item : string * MetaRecord) : M bool :=
  let (model_id, model_info) := item in
  bind get_models (fun r =>
    bind (when (is_Some (lookup model_id r)) (mutate model_id (absorb model_info)))
         (fun _ => ret false)).

(** A record with its three counters. *)
Definition complete (rec : MetaRecord) : bool :=
  is_Some (meta_last_used rec) && is_Some (meta_load_count rec)
  && is_Some (meta_error_count rec).

(** Two documents hold the same mapping. *)
Definition same_mapping (d d' : MetaDoc) : Prop :=
  forall k, doc_lookup k d' = doc_lookup k d.

(** A metadata file left by a deployment that knew another model. *)
Definition legacy_doc : MetaDoc :=
  [("CompVis/stable-diffusion-v1-4", mkMetaRecord (Some 100) (Some 3) (Some 0))].

Definition legacy : Servicer := with_metadata_file (Document legacy_doc) started.

(** A metadata file as the servicer writes it. *)
Definition own_doc : MetaDoc :=
  [(DEFAULT_MODEL, mkMetaRecord (Some 100) (Some 3) (Some 0));
   (FALLBACK_MODEL, mkMetaRecord (Some 90) (Some 1) (Some 2))].

Definition restarted : Servicer := with_metadata_file (Document own_doc) started.

(** A host that is not POSIX and on which the final rename fails. *)
Definition windows_host : Engine :=
  mkEngine "cpu" float32 false false None (Return 0) (Return 0) (fun _ => Return 0) 7
    (fun _ => None) (fun id _ => Return (sd_pipeline id 64))
    (fun p _ => Return p) (fun _ => None) (fun _ => None) (fun _ => None)
    None None None None (Some "Access is denied").

(** ** The disk sweep, seen from outside *)

(** [shutil.rmtree] of the subtree succeeds. *)
Definition deleted (E : Engine) (d : CacheDir) : bool := is_None (rmtree E (cd_path d)).

(** The bytes that the deletions among [l] took off the accounted size. *)
Definition freed (E : Engine) (l : list CacheDir) : Z :=
  sum (map cd_size (filter (deleted E) l)).

(** The entry is not one of the subtrees of [l] that were deleted. *)
Definition survives (E : Engine) (l : list CacheDir) (e : DirEntry) : bool :=
  negb (existsb (fun d => deleted E d && String.eqb (entry_name e) (cd_path d)) l).

Definition older_or_same (a b : CacheDir) : Prop := cd_last_used a <= cd_last_used b.

Definition GB : Z := 1024 * 1024 * 1024.

(** Three cached models of 5, 3 and 2 GB, the largest the least recently
    accessed, as the directory lists them. *)
Definition cache_5 : DirEntry := mkDirEntry "models--five" true (Some 1000) [Some (3 * GB); Some (2 * GB)].
Definition cache_3 : DirEntry := mkDirEntry "models--three" true (Some 2000) [Some (3 * GB)].
Definition cache_2 : DirEntry := mkDirEntry "models--two" true (Some 3000) [Some GB; None; Some GB].

(** A servicer with a quota of 8 GB over that cache. *)
Definition with_cache : Servicer :=
  snd (__init__ (fresh cpu_host 2 (8 * GB) Absent (Some [cache_2; cache_5; cache_3]))).

(** A host on which the 5 GB subtree cannot be removed. *)
Definition locked_host : Engine :=
  mkEngine "cpu" float32 true false None (Return 0) (Return 0) (fun _ => Return 0) 7
    (fun _ => None) (fun id _ => Return (sd_pipeline id 64))
    (fun p _ => Return p) (fun _ => None) (fun _ => None)
    (fun path => if String.eqb path "models--five" then Some "Permission denied" else None)
    None None None None None.

(** [model_dirs] and [total_size] as the disk sweep has them before its
    [while] loop. *)
Definition sorted_dirs (entries : list DirEntry) : list CacheDir :=
  sort by_last_used (scan entries).

Definition scanned_size (entries : list DirEntry) : Z :=
  sum (map cd_size (sorted_dirs entries)).

(** ** The memory sweep on three resident models *)

(** A third model, added to the catalogue as [_init_models] invites. *)
Definition EXTRA_MODEL : string := "stabilityai/sd-turbo".

Definition SDT : ModelConfig :=
  mkModelConfig EXTRA_MODEL "SD Turbo" "SD Turbo model with 512x512 resolution"
    TEXT_TO_IMAGE (512, 512) [(512, 512)] true true false
    10 100 25 (75 # 10) (-1) true.

(** A model loaded once and last used at [t]. *)
Definition resident_model (c : ModelConfig) (t : Z) : ModelInfo :=
  mkModelInfo c (Some (sd_pipeline (model_id c) 64)) true false None t 0 1 0.

(** Three resident models under a limit of two, last used at [t1], [t2]
    and [t3]. *)
Definition three_loaded (t1 t2 t3 : Z) : Servicer :=
  mkServicer [(DEFAULT_MODEL, resident_model SD21 t1);
              (FALLBACK_MODEL, resident_model SD15 t2);
              (EXTRA_MODEL, resident_model SDT t3)]
             "cpu" float32 2 (10 * GB) Absent Absent None [] [] [].

(** The shipped catalogue under a limit of one: the default model loaded
    at 5, the other requested at 6 and loaded at 7. *)
Definition crowded : Servicer :=
  snd (run_loader uniform_host FALLBACK_MODEL 7
         (snd (_get_model_info FALLBACK_MODEL 6
                 (snd (run_loader uniform_host DEFAULT_MODEL 5
                         (snd (__init__ (fresh uniform_host 1 (10 * GB) Absent None)))))))).

(** The model is loading and no loader thread runs for it. *)
Definition stuck_loading (id : string) (s : Servicer) : Prop :=
  (exists m, lookup id (models s) = Some m /\ loading m = true)
  /\ ~ In id (loaders s).

(** * Request handling *)

(** ** Prompts *)

(** [c.isspace()] for a character below U+0100, the range of the
    characters of a [string]: the ASCII white space, the four separators
    U+001C to U+001F, U+0085 and U+00A0. *)
Definition isspace (c : ascii) : bool :=
  let n := nat_of_ascii c in
  ((9 <=? n) && (n <=? 13) || (28 <=? n) && (n <=? 32) || (n =? 133) || (n =? 160))%nat.

Fixpoint lstrip (s : string) : string :=
  match s with
  | EmptyString => EmptyString
  | String c s' => if isspace c then lstrip s' else s
  end.

Fixpoint rstrip (s : string) : string :=
  match s with
  | EmptyString => EmptyString
  | String c s' =>
      match rstrip s' with
      | EmptyString => if isspace c then EmptyString else String c EmptyString
      | t => String c t
      end
  end.

(** [s.strip()] *)
Definition strip (s : string) : string := rstrip (lstrip s).

(** Every character of the string is white space. *)
Fixpoint blank (s : string) : bool :=
  match s with
  | EmptyString => true
  | String c s' => isspace c && blank s'
  end.

(** ** Requests and responses *)

(** The protobuf [ImageRequest]. [settings = None]: [request.settings]
    is falsy. An unset [model] reads as the empty string. *)
Record ImageRequest := mkImageRequest {
  prompt : string;
  model : string;
  settings : option ImageSettings
}.

(** [ImageSettings()] *)
Definition no_settings : ImageSettings := mkImageSettings 0 0 0 0 0.

(** The two shapes of [ImageResponse] that [GenerateImage] builds. The
    image of a response is that of the call that produced it;
    [generation_time_ms] and [debug_info], which format clock readings
    and floats, are left out. *)
Inductive ImageResponse :=
| Failed (request_id error : string)
| Generated (request_id : string) (image_of : GenCall) (format : string)
            (metadata_model : string) (metadata_seed : Z).

(** What a request handler gets from outside the servicer. *)
Record RequestEnv := mkRequestEnv {
  uuid4 : string;                            (* [str(uuid.uuid4())] *)
  image_save : GenCall -> option string      (* [image.save(...)] of the image of a call *)
}.

Definition _validate_image_request (request : ImageRequest) : bool * string :=
  if (String.length (prompt request) =? 0)%nat
     || (String.length (strip (prompt request)) =? 0)%nat
  then (false, "Prompt cannot be empty")
  else if MAX_PROMPT_LENGTH <? Z.of_nat (String.length (prompt request))
  then (false, "Prompt too long (max " ++ str MAX_PROMPT_LENGTH ++ " characters)")
  else
    match settings request with
    | Some settings =>
        if (width settings <? MIN_IMAGE_SIZE) || (MAX_IMAGE_SIZE <? width settings)
        then (false, "Width must be between " ++ str MIN_IMAGE_SIZE
                       ++ " and " ++ str MAX_IMAGE_SIZE)
        else if (height settings <? MIN_IMAGE_SIZE) || (MAX_IMAGE_SIZE <? height settings)
        then (false, "Height must be between " ++ str MIN_IMAGE_SIZE
                       ++ " and " ++ str MAX_IMAGE_SIZE)
        else if (steps settings <? 1) || (MAX_STEPS <? steps settings)
        then (false, "Steps must be between 1 and " ++ str MAX_STEPS)
        else if negb (Qle_bool (1 # 1) (guidance_scale settings))
                || negb (Qle_bool (guidance_scale settings) (20 # 1))
        then (false, "Guidance scale must be between 1.0 and 20.0")
        else (true, EmptyString)
    | None => (true, EmptyString)
    end.

Section Handlers.
Variable E : Engine.
Variable R : RequestEnv.

(** The [except] clause of [GenerateImage]. [model_info] is the key of
    the object bound to the local of that name, when it is bound and not
    [None]. *)
Definition on_generation_error (request_id : string) (model_info : option string)
    (e : string) : M ImageResponse :=
  let error_msg := "Image generation failed: " ++ e in
  logger ERROR (Msg "Error in GenerateImage") ;;
  match model_info with
  | Some model_id => count_error model_id
  | None => ret tt
  end ;;
  ret (Failed request_id error_msg).

(** The handler run to its end without another thread in between (it
    writes [last_used] and [error_count] outside the registry lock).
    [now] and [now'] are the readings of [time.time()] in
    [_get_model_info] and at the update of [last_used]. *)
Definition GenerateImage (request : ImageRequest) (now now' : Z) : M ImageResponse :=
  let request_id := uuid4 R in
  try_except
    (let (is_valid, error_msg) := _validate_image_request request in
     if negb is_valid
     then ret (Failed request_id ("Invalid request: " ++ error_msg))
     else
       let model_id :=
         if (String.length (model request) =? 0)%nat then DEFAULT_MODEL
         else model request in
       model_info <- _get_model_info model_id now ;;
       let unavailable :=
         ret (Failed request_id
                ("Model " ++ model_id ++ " is not available or failed to load")) in
       match model_info with
       | None => unavailable
       | Some info =>
           if negb (loaded info) || negb (is_Some (pipeline info)) then unavailable
           else
             match pipeline info with
             | None => unavailable          (* excluded by the test above *)
             | Some pipe =>
                 generated <- attempt
                   (touch model_id now' ;;
                    gen_metadata <- _generate_image E pipe (prompt request)
                                      (match settings request with
                                       | Some settings => settings
                                       | None => no_settings
                                       end) 1 ;;
                    effect (image_save R gen_metadata) ;;
                    ret (Generated request_id gen_metadata "image/png" model_id
                                   (gen_seed gen_metadata))) ;;
                 match generated with
                 | Return response => ret response
                 | Raise e => on_generation_error request_id (Some model_id) e
                 end
             end
       end)
    (on_generation_error request_id None).

(** One round of [_cleanup_models_loop] and of [_manage_disk_cache_loop],
    without the wait. *)
Definition _cleanup_models_loop : M unit :=
  try_except
    (_cleanup_models E ;; _save_cache_metadata E)
    (fun e => logger ERROR (Msg ("Error in cleanup thread: " ++ e))).

Definition _manage_disk_cache_loop : M unit :=
  try_except
    (_cleanup_disk_cache E)
    (fun e => logger ERROR (Msg ("Error in disk cache manager: " ++ e))).

End Handlers.

(** ** Statements about requests *)

(** The limits within which a pipeline is called. *)
Definition within_limits (c : GenCall) : Prop :=
  MIN_IMAGE_SIZE <= gen_width c <= MAX_IMAGE_SIZE
  /\ MIN_IMAGE_SIZE <= gen_height c <= MAX_IMAGE_SIZE
  /\ 1 <= gen_steps c <= MAX_STEPS
  /\ (1 # 1 <= gen_guidance_scale c)%Q /\ (gen_guidance_scale c <= 20 # 1)%Q.

(** The settings that [_validate_image_request] accepts. *)
Definition acceptable (settings : ImageSettings) : Prop :=
  MIN_IMAGE_SIZE <= width settings <= MAX_IMAGE_SIZE
  /\ MIN_IMAGE_SIZE <= height settings <= MAX_IMAGE_SIZE
  /\ 1 <= steps settings <= MAX_STEPS
  /\ (1 # 1 <= guidance_scale settings)%Q /\ (guidance_scale settings <= 20 # 1)%Q.

(** The model that a request names. *)
Definition requested (request : ImageRequest) : string :=
  if (String.length (model request) =? 0)%nat then DEFAULT_MODEL else model request.

(** The call that [_generate_image] makes of settings within the limits. *)
Definition call_of (E : Engine) (pipe : Pipeline) (prompt : string)
    (settings : ImageSettings) : GenCall :=
  mkGenCall pipe prompt (width settings) (height settings) (steps settings)
            (guidance_scale settings)
            (if seed settings =? -1 then randint E else seed settings) 1.

(** A request handler on a host where nothing fails. *)
Definition quiet_env : RequestEnv := mkRequestEnv "req-1" (fun _ => None).

Definition fox : ImageRequest :=
  mkImageRequest "a red fox" EmptyString (Some (mkImageSettings 512 768 30 (7 # 1) 42)).

(** The same prompt for the other model of the catalogue, without
    settings. *)
Definition fox_on_fallback : ImageRequest :=
  mkImageRequest "a red fox" FALLBACK_MODEL None.

(** A prompt of white space. *)
Definition blank_request : ImageRequest :=
  mkImageRequest "   " EmptyString (Some (mkImageSettings 512 768 30 (7 # 1) 42)).

(** The response reports a generation that raised. *)
Definition generation_failed (response : ImageResponse) : bool :=
  match response with
  | Failed _ error => String.prefix "Image generation failed: " error
  | Generated _ _ _ _ _ => false
  end.

(** ** Statements about the registry *)

(** A loader thread runs for a model at most once at a time, and only
    while the model is loading. *)
Definition one_loader_each (s : Servicer) : Prop :=
  NoDup (loaders s)
  /\ forall id, In id (loaders s) ->
       exists m, lookup id (models s) = Some m /\ loading m = true.

(** The same while the loader of [k] runs: [k] itself may have left the
    loading phase already. *)
Definition loaders_but (k : string) (s : Servicer) : Prop :=
  NoDup (loaders s)
  /\ forall id, In id (loaders s) -> id <> k ->
       exists m, lookup id (models s) = Some m /\ loading m = true.

(** Every pipeline held by a model has passed [_validate_model]. *)
Definition pipeline_validated (m : ModelInfo) : Prop :=
  forall p, pipeline m = Some p -> fst (_validate_model p (config m)) = true.

(** Successive requests for one model, at the given times. *)
Definition ask (id : string) (times : list Z) : M unit :=
  for_each times (fun now => bind (_get_model_info id now) (fun _ => ret false)).

(** [m'] is [m] but, possibly, for an eviction and for errors counted. *)
Definition evicted_at_most (m m' : ModelInfo) : Prop :=
  config m' = config m /\ loading m' = loading m /\ load_error m' = load_error m
  /\ last_used m' = last_used m /\ load_count m' = load_count m
  /\ memory_usage m' = memory_usage m
  /\ (pipeline m' = pipeline m \/ pipeline m' = None)
  /\ (loaded m' = loaded m \/ loaded m' = false)
  /\ error_count m <= error_count m'.

(** [m'] is [m] but, possibly, for its three persisted counters. *)
Definition same_but_counters (m m' : ModelInfo) : Prop :=
  config m' = config m /\ pipeline m' = pipeline m /\ loaded m' = loaded m
  /\ loading m' = loading m /\ load_error m' = load_error m
  /\ memory_usage m' = memory_usage m.

(** [s] holds the default model as [s0] does. *)
Definition same_default (s0 s : Servicer) : Prop :=
  lookup DEFAULT_MODEL (models s) = lookup DEFAULT_MODEL (models s0).

(** The computation never raises. *)
Definition returns {A} (c : M A) : Prop :=
  forall s, exists a, fst (c s) = Return a.

(** No reading of the CUDA device raises. *)
Definition cuda_quiet (E : Engine) : Prop :=
  cuda_empty_cache E = None
  /\ (exists t, cuda_total_memory E = Return t)
  /\ (exists r, cuda_memory_reserved E = Return r)
  /\ forall n, exists a, cuda_memory_allocated E n = Return a.

(** The first reading of the memory in use is at most 90% of the total. *)
Definition no_pressure (E : Engine) : Prop :=
  exists t r a,
    cuda_total_memory E = Return t /\ cuda_memory_reserved E = Return r
    /\ cuda_memory_allocated E 0 = Return a /\ 10 * a <= 9 * t.

(** A CUDA host with 10 units of memory of which the given readings are
    in use; nothing fails. *)
Definition cuda_host (allocated : nat -> Z) : Engine :=
  mkEngine "cuda" float16 true true None (Return 10) (Return 0)
    (fun n => Return (allocated n)) 7
    (fun _ => None) (fun id _ => Return (sd_pipeline id 64))
    (fun p _ => Return p) (fun _ => None) (fun _ => None) (fun _ => None)
    None None None None None.

(** A CUDA host on which the memory in use cannot be read. *)
Definition blind_cuda_host : Engine :=
  mkEngine "cuda" float16 true true None (Return 10) (Return 0)
    (fun _ => Raise "CUDA error: unknown error") 7
    (fun _ => None) (fun id _ => Return (sd_pipeline id 64))
    (fun p _ => Return p) (fun _ => None) (fun _ => None) (fun _ => None)
    None None None None None.

(** A host that announces a CUDA device to which no pipeline can be
    moved. *)
Definition no_gpu_host : Engine :=
  mkEngine "cuda" float16 true false None (Return 0) (Return 0) (fun _ => Return 0) 7
    (fun _ => None) (fun id _ => Return (sd_pipeline id 64))
    (fun p dev => if String.eqb dev "cpu" then Return p else Raise "CUDA out of memory")
    (fun _ => None) (fun _ => None) (fun _ => None)
    None None None None None.

(** The servicer as [__init__] leaves it on that host. *)
Definition gpu_started : Servicer :=
  snd (__init__ (fresh no_gpu_host 2 (10 * GB) Absent None)).

(** Both models of the catalogue resident under a limit of two. *)
Definition both_loaded : Servicer :=
  mkServicer [(DEFAULT_MODEL, resident_model SD21 10);
              (FALLBACK_MODEL, resident_model SD15 20)]
             "cuda" float16 2 (10 * GB) Absent Absent None [] [] [].

(** ** Statements about the disk cache *)

(** Every [shutil.rmtree] succeeds. *)
Definition removals_succeed (E : Engine) : Prop := forall path, rmtree E path = None.

(** The cache root after a sweep, [None] when the directory is missing. *)
Definition swept (E : Engine) (s : Servicer) : option (list DirEntry) :=
  cache_root (snd (_cleanup_disk_cache E s)).

(** A plain file and a directory that cannot be read, beside the
    cached models. *)
Definition stray_file : DirEntry := mkDirEntry "version.txt" false (Some 1) [Some (9 * GB)].
Definition sealed_dir : DirEntry := mkDirEntry "lost+found" true None [Some (9 * GB)].

Definition with_strays : Servicer :=
  snd (__init__ (fresh cpu_host 2 (8 * GB) Absent
                   (Some [stray_file; cache_2; cache_5; sealed_dir; cache_3]))).

(** ** Statements about the metadata *)

(** A servicer constructed anew over the metadata file left by [s]. *)
Definition restart (E : Engine) (s : Servicer) : Servicer :=
  snd (__init__ (fresh E (max_models_in_memory s) (max_disk_cache_bytes s)
                       (metadata_file s) (cache_root s))).

(** A record of the metadata file without its counters. *)
Definition partial_doc : MetaDoc :=
  [(DEFAULT_MODEL, mkMetaRecord (Some 100) None None);
   ("CompVis/stable-diffusion-v1-4", mkMetaRecord (Some 50) (Some 3) (Some 1))].

(** * Properties *)

(** ** The registry *)

Lemma lookup_update k k' f r :
  lookup k (update k' f r)
  = if String.eqb k k' then option_map f (lookup k r) else lookup k r.
Proof.
  induction r as [|[k0 m0] r IH]; simpl.
  - destruct (String.eqb k k'); reflexivity.
  - destruct (String.eqb k' k0) eqn:E0; simpl.
    + apply String.eqb_eq in E0; subst k0.
      destruct (String.eqb k k') eqn:E1; reflexivity.
    + destruct (String.eqb k k0) eqn:E1.
      * apply String.eqb_eq in E1; subst k0.
        rewrite String.eqb_sym, E0. reflexivity.
      * exact IH.
Qed.

Lemma keys_update k f r : keys (update k f r) = keys r.
Proof.
  induction r as [|[k0 m0] r IH]; simpl; [reflexivity|].
  destruct (String.eqb k k0); simpl; [reflexivity|].
  f_equal. exact IH.
Qed.

Lemma Forall_update (P : string -> ModelInfo -> Prop) k f r :
  Forall (fun kv => P (fst kv) (snd kv)) r ->
  (forall m, lookup k r = Some m -> P k m -> P k (f m)) ->
  Forall (fun kv => P (fst kv) (snd kv)) (update k f r).
Proof.
  induction r as [|[k0 m0] r IH]; simpl; intros HF Hf; [constructor|].
  inversion HF as [|x l Hx Hl]; subst. simpl in Hx.
  destruct (String.eqb k k0) eqn:E0.
  - apply String.eqb_eq in E0; subst k0.
    constructor; [simpl; apply Hf; auto | exact Hl].
  - constructor; [exact Hx | apply IH; auto].
Qed.

Lemma lookup_In k m r : lookup k r = Some m -> In (k, m) r.
Proof.
  induction r as [|[k0 m0] r IH]; simpl; [discriminate|].
  destruct (String.eqb k k0) eqn:E0.
  - apply String.eqb_eq in E0; subst k0. intros H; inversion H; auto.
  - auto.
Qed.

Lemma update_absent k f r : lookup k r = None -> update k f r = r.
Proof.
  induction r as [|[k0 m0] r IH]; simpl; [reflexivity|].
  destruct (String.eqb k k0); [discriminate|].
  intros H. now rewrite IH.
Qed.

Lemma update_ext k f g r m :
  lookup k r = Some m -> f m = g m -> update k f r = update k g r.
Proof.
  induction r as [|[k0 m0] r IH]; simpl; [discriminate|].
  destruct (String.eqb k k0).
  - intros H Hfg. inversion H; subst. now rewrite Hfg.
  - intros H Hfg. now rewrite IH.
Qed.

(** ** Reasoning about computations in [M] *)

Section Preservation.
Variable I : Servicer -> Prop.

Lemma preserves_ret A (a : A) : preserves I (ret a).
Proof. intros s H. exact H. Qed.

Lemma preserves_raise A e : preserves I (@raise A e).
Proof. intros s H. exact H. Qed.

Lemma preserves_lift A (o : Outcome A) : preserves I (lift o).
Proof. intros s H. exact H. Qed.

Lemma preserves_effect o : preserves I (effect o).
Proof. intros s H. unfold effect. destruct o; exact H. Qed.

Lemma preserves_get : preserves I get.
Proof. intros s H. exact H. Qed.

Lemma preserves_get_models : preserves I get_models.
Proof. intros s H. exact H. Qed.

Lemma preserves_bind A B (c : M A) (k : A -> M B) :
  preserves I c -> (forall a, preserves I (k a)) -> preserves I (bind c k).
Proof.
  intros Hc Hk s H. unfold bind.
  specialize (Hc s H). destruct (c s) as [[a|e] s']; simpl in *.
  - apply Hk, Hc.
  - exact Hc.
Qed.

Lemma preserves_try_except A (c : M A) (h : string -> M A) :
  preserves I c -> (forall e, preserves I (h e)) -> preserves I (try_except c h).
Proof.
  intros Hc Hh s H. unfold try_except.
  specialize (Hc s H). destruct (c s) as [[a|e] s']; simpl in *.
  - exact Hc.
  - apply Hh, Hc.
Qed.

Lemma preserves_attempt A (c : M A) :
  preserves I c -> preserves I (attempt c).
Proof.
  intros Hc. unfold attempt. apply preserves_try_except.
  - apply preserves_bind; [exact Hc | intros a; apply preserves_ret].
  - intros e. apply preserves_ret.
Qed.

Lemma preserves_when b (c : M unit) :
  preserves I c -> preserves I (when b c).
Proof. intros Hc. destruct b; simpl; [exact Hc | apply preserves_ret]. Qed.

Lemma preserves_for_each A (l : list A) (body : A -> M bool) :
  (forall x, preserves I (body x)) -> preserves I (for_each l body).
Proof.
  intros Hb. induction l as [|x l IH]; simpl.
  - apply preserves_ret.
  - apply preserves_bind; [apply Hb|].
    intros [|]; [apply preserves_ret | exact IH].
Qed.

(** A write that leaves what [I] looks at alone. *)
Lemma preserves_modify f :
  (forall s, I s -> I (f s)) -> preserves I (modify f).
Proof. intros Hf s H. apply Hf, H. Qed.
End Preservation.

(** ** An invariant kept by the writes to [ModelInfo] is kept by every method *)

Section Invariant.
Variable I : Servicer -> Prop.
(** The models whose loader may run. *)
Variable owner : string -> Prop.
Hypothesis I_loader : forall s k, I s -> In k (loaders s) -> owner k.
Hypothesis I_frame : forall s s',
  models s' = models s -> loaders s' = loaders s -> I s -> I s'.
Hypothesis I_started : forall k s m,
  lookup k (models s) = Some m -> loaded m = false -> loading m = false ->
  I s -> I (with_loaders (loaders s ++ [k]) (write k (set_loading true) s)).
Hypothesis I_finished : forall k s,
  I s -> I (with_loaders (remove_first k (loaders s)) s).
Hypothesis I_unloaded : forall k s,
  I s -> I (write k (fun m => set_loaded false (set_pipeline None m)) s).
Hypothesis I_success : forall k pipe now s,
  owner k ->
  I s ->
  I (write k (fun m =>
       set_last_used now
         (set_load_count (load_count m + 1)
            (set_loading false (set_loaded true (set_pipeline (Some pipe) m))))) s).
Hypothesis I_failure : forall k msg s,
  owner k ->
  truthy (Some msg) = true ->
  I s ->
  I (write k (fun m =>
       set_error_count (error_count m + 1)
         (set_loading false (set_load_error (Some msg) m))) s).
Hypothesis I_counters : forall k a b c s,
  I s ->
  I (write k (fun m => set_error_count a (set_load_count b (set_last_used c m))) s).
Hypothesis I_last_used : forall k t s, I s -> I (write k (set_last_used t) s).
Hypothesis I_memory_usage : forall k n s, I s -> I (write k (set_memory_usage n) s).
Hypothesis I_error_count : forall k s,
  I s -> I (write k (fun m => set_error_count (error_count m + 1) m) s).

Lemma inv_logger l m : preserves I (logger l m).
Proof. intros s H. revert H. apply I_frame; reflexivity. Qed.

Lemma inv_modify f :
  (forall s, models (f s) = models s) -> (forall s, loaders (f s) = loaders s) ->
  preserves I (modify f).
Proof. intros Hf Hl s H. revert H. apply I_frame; [apply Hf | apply Hl]. Qed.

Lemma inv_unload_model E id : preserves I (_unload_model E id).
Proof.
  unfold _unload_model. apply preserves_try_except.
  - apply preserves_bind; [apply preserves_get_models|]. intros r.
    destruct (field r pipeline None id) as [p|]; [|apply preserves_ret].
    apply preserves_bind.
    { apply preserves_when, preserves_bind;
        [apply preserves_lift | intros; apply preserves_ret]. }
    intros _. apply preserves_bind.
    { apply preserves_when, preserves_effect. }
    intros _. apply preserves_bind; [|intros; apply inv_logger].
    intros s H; apply I_unloaded, H.
  - intros e. apply preserves_bind; [apply inv_logger|].
    intros _. intros s H; apply I_error_count, H.
Qed.

Lemma inv_load_model id : preserves I (_load_model id).
Proof.
  intros s H. unfold _load_model. unfold bind at 1, get_models.
  destruct (lookup id (models s)) as [m|] eqn:L.
  - destruct (loaded m) eqn:Ld; [exact H|].
    destruct (loading m) eqn:Lg; [exact H|].
    exact (I_started id s m L Ld Lg H).
  - revert H. apply preserves_bind; [apply inv_logger | intros; apply preserves_ret].
Qed.

Lemma inv_record_failure id msg :
  owner id -> truthy (Some msg) = true -> preserves I (record_failure id msg).
Proof.
  intros Ho Hm. unfold record_failure.
  apply preserves_bind; [apply inv_logger|]. intros _.
  intros s H; now apply I_failure.
Qed.

Lemma inv_generate_image E pipe prompt settings n :
  preserves I (_generate_image E pipe prompt settings n).
Proof.
  unfold _generate_image.
  apply preserves_bind; [apply inv_modify; reflexivity|]. intros _.
  apply preserves_bind; [apply preserves_effect|]. intros _.
  apply preserves_ret.
Qed.

Lemma inv_warmup_model E pipe cfg : preserves I (_warmup_model E pipe cfg).
Proof.
  unfold _warmup_model. apply preserves_try_except.
  - apply preserves_bind; [apply inv_generate_image|]. intros; apply preserves_ret.
  - intros; apply preserves_ret.
Qed.

Lemma inv_construct E id : preserves I (construct E id).
Proof.
  unfold construct. destruct (negb _); [|apply preserves_lift].
  apply preserves_try_except; [apply preserves_lift|].
  intros e. apply preserves_bind; [apply inv_logger|]. intros; apply preserves_lift.
Qed.

Lemma inv_ready E pipe : preserves I (ready E pipe).
Proof.
  unfold ready. apply preserves_bind.
  { apply preserves_try_except.
    - apply preserves_bind; [apply preserves_get|]. intros; apply preserves_lift.
    - intros e. apply preserves_bind; [apply preserves_get|]. intros s0.
      apply preserves_bind; [apply inv_logger|]. intros _.
      apply preserves_bind; [apply inv_modify; reflexivity|]. intros _.
      apply preserves_lift. }
  intros p. apply preserves_bind; [apply preserves_when, preserves_effect|].
  intros _. apply preserves_ret.
Qed.

Lemma inv_commit E id cfg now p : owner id -> preserves I (commit E id cfg now p).
Proof.
  intros Ho. unfold commit. destruct (_validate_model p cfg) as [ok err].
  destruct (negb ok); [apply preserves_raise|].
  apply preserves_bind; [apply inv_warmup_model|]. intros [wok werr].
  apply preserves_bind; [apply preserves_when, inv_logger|]. intros _.
  apply preserves_bind; [intros s H; now apply I_success|].
  intros _. apply preserves_bind.
  { apply preserves_when, preserves_bind; [apply preserves_lift|].
    intros n. intros s H; apply I_memory_usage, H. }
  intros _. apply preserves_bind; [apply inv_logger|]. intros; apply preserves_ret.
Qed.

Lemma inv_finish E id cfg now pipe :
  owner id -> preserves I (finish E id cfg now pipe).
Proof.
  intros Ho. unfold finish.
  apply preserves_bind; [apply inv_ready | intros; now apply inv_commit].
Qed.

Lemma inv_on_failure E id b e : owner id -> preserves I (on_failure E id b e).
Proof.
  intros Ho. unfold on_failure. apply preserves_bind.
  { apply preserves_when, preserves_when, preserves_effect. }
  intros _.
  assert (G : preserves I
                (bind (record_failure id ("Failed to load model " ++ id ++ ": " ++ e))
                      (fun _ => ret (@None bool)))).
  { apply preserves_bind; [apply inv_record_failure; [exact Ho | reflexivity]|].
    intros; apply preserves_ret. }
  destruct (contains _ e); [|exact G].
  apply preserves_bind; [apply inv_logger|]. intros _.
  destruct (String.eqb id _); [|exact G].
  apply preserves_bind; [apply inv_load_model|]. intros; apply preserves_ret.
Qed.

Lemma inv_load E id now : owner id -> preserves I (_load E id now).
Proof.
  intros Ho. unfold _load. apply preserves_bind; [apply preserves_get_models|]. intros r.
  destruct (lookup id r) as [m|]; [|apply preserves_ret].
  apply preserves_try_except.
  - apply preserves_bind; [apply inv_logger|]. intros _.
    apply preserves_bind; [apply preserves_effect|]. intros _.
    apply preserves_bind; [apply preserves_attempt, inv_construct|].
    intros [pipe|e]; [|now apply inv_on_failure].
    apply preserves_try_except;
      [now apply inv_finish | intros; now apply inv_on_failure].
  - intros e. apply preserves_bind;
      [apply inv_record_failure; [exact Ho | reflexivity]|].
    intros; apply preserves_ret.
Qed.

Lemma inv_run_loader E id now : owner id -> preserves I (run_loader E id now).
Proof.
  intros Ho. unfold run_loader. apply preserves_bind; [now apply inv_load|].
  intros _ s H. now apply I_finished.
Qed.

Lemma inv_get_model_info id now : preserves I (_get_model_info id now).
Proof.
  unfold _get_model_info. apply preserves_bind; [apply preserves_get_models|].
  intros r. destruct (lookup id r) as [m|]; [|apply preserves_ret].
  apply preserves_bind; [intros s H; apply I_last_used, H|].
  intros _. apply preserves_bind.
  { apply preserves_when, preserves_bind; [apply inv_load_model|].
    intros; apply preserves_ret. }
  intros _. apply preserves_bind; [apply preserves_get_models|].
  intros; apply preserves_ret.
Qed.

Lemma inv_count_sweep E l : preserves I (count_sweep E l).
Proof.
  unfold count_sweep. apply preserves_bind; [apply preserves_get|]. intros s0.
  destruct (_ <? _); [|apply preserves_ret].
  destruct (_ <=? _); [apply preserves_ret|].
  apply preserves_bind; [apply inv_logger|]. intros _.
  apply preserves_bind; [|intros; apply preserves_ret].
  apply preserves_for_each. intros id.
  destruct (skip_default _ _); [apply preserves_ret|].
  apply preserves_bind; [apply inv_unload_model|]. intros _.
  apply preserves_bind; [apply preserves_get_models|]. intros; apply preserves_ret.
Qed.

Lemma inv_pressure_loop E total all todo n :
  preserves I (pressure_loop E total all todo n).
Proof.
  revert n. induction todo as [|id todo IH]; intros n; simpl.
  - apply preserves_ret.
  - destruct (skip_default _ _); [apply IH|].
    apply preserves_bind; [apply inv_unload_model|]. intros _.
    apply preserves_bind; [apply preserves_effect|]. intros _.
    apply preserves_bind; [apply preserves_lift|]. intros a.
    destruct (_ <=? _); [apply preserves_ret | apply IH].
Qed.

Lemma inv_conservative_cleanup E l e :
  preserves I (conservative_cleanup E l e).
Proof.
  unfold conservative_cleanup. apply preserves_bind; [apply inv_logger|].
  intros _. apply preserves_bind; [apply preserves_get|]. intros s0.
  apply preserves_when, preserves_for_each. intros id.
  apply preserves_bind; [apply inv_unload_model|]. intros _.
  apply preserves_bind; [apply preserves_get_models|]. intros; apply preserves_ret.
Qed.

Lemma inv_cleanup_models E : preserves I (_cleanup_models E).
Proof.
  unfold _cleanup_models. apply preserves_bind; [apply preserves_get_models|].
  intros r. apply preserves_bind; [apply inv_count_sweep|].
  intros [returned l]. destruct returned; [apply preserves_ret|].
  apply preserves_when, preserves_bind.
  { apply preserves_attempt. unfold cuda_readings.
    repeat (apply preserves_bind; [apply preserves_lift|]; intros).
    apply preserves_ret. }
  intros [[total allocated]|e]; [|apply inv_conservative_cleanup].
  destruct (_ <? _); [|apply preserves_ret].
  apply preserves_bind; [apply inv_logger|]. intros _.
  apply preserves_bind; [apply preserves_get_models|]. intros r'.
  apply preserves_try_except;
    [apply inv_pressure_loop | intros; apply inv_conservative_cleanup].
Qed.

Lemma inv_load_cache_metadata : preserves I _load_cache_metadata.
Proof.
  unfold _load_cache_metadata. apply preserves_bind; [apply preserves_get|].
  intros s0.
  assert (G : forall f, preserves I
    (try_except
       (bind (json_load f) (fun cache_data =>
          for_each cache_data (fun item =>
            let (model_id, model_info) := item : string * MetaRecord in
            bind get_models (fun r =>
              bind (when (is_Some (lookup model_id r))
                      (mutate model_id (fun m =>
                         set_error_count (get_or 0 (meta_error_count model_info))
                           (set_load_count (get_or 0 (meta_load_count model_info))
                              (set_last_used (get_or 0 (meta_last_used model_info)) m)))))
                   (fun _ => ret false)))))
       (fun e => logger WARNING (Msg ("Failed to load cache metadata: " ++ e))))).
  { intros f. apply preserves_try_except; [|intros; apply inv_logger].
    apply preserves_bind.
    { destruct f; simpl; first [apply preserves_ret | apply preserves_raise]. }
    intros d. apply preserves_for_each. intros [k rec].
    apply preserves_bind; [apply preserves_get_models|]. intros r.
    apply preserves_bind; [|intros; apply preserves_ret].
    apply preserves_when. intros s H; apply I_counters, H. }
  destruct (metadata_file s0); first [apply preserves_ret | apply G].
Qed.

Lemma inv_save_cache_metadata E : preserves I (_save_cache_metadata E).
Proof.
  unfold _save_cache_metadata, move_tmp.
  apply preserves_try_except; [|intros; apply inv_logger].
  apply preserves_bind; [apply preserves_get_models|]. intros r.
  apply preserves_bind; [apply preserves_effect|]. intros _.
  apply preserves_bind; [apply inv_modify; reflexivity|]. intros _.
  apply preserves_bind; [apply preserves_effect|]. intros _.
  apply preserves_bind; [apply inv_modify; reflexivity|]. intros _.
  destruct (os_posix E).
  - apply preserves_bind; [apply preserves_effect|]. intros _.
    apply inv_modify; reflexivity.
  - apply preserves_bind; [apply preserves_get|]. intros s0.
    apply preserves_bind.
    { apply preserves_when, preserves_bind; [apply preserves_effect|].
      intros _. apply inv_modify; reflexivity. }
    intros _. apply preserves_bind; [apply preserves_effect|]. intros _.
    apply inv_modify; reflexivity.
Qed.

Lemma inv_remove_cache E d total : preserves I (remove_cache E d total).
Proof.
  unfold remove_cache. apply preserves_try_except.
  - apply preserves_bind; [apply inv_logger|]. intros _.
    apply preserves_bind; [apply preserves_effect|]. intros _.
    apply preserves_bind; [apply inv_modify; reflexivity|]. intros _.
    apply preserves_ret.
  - intros e. apply preserves_bind; [apply inv_logger|].
    intros; apply preserves_ret.
Qed.

Lemma inv_disk_loop E quota dirs total :
  preserves I (disk_loop E quota dirs total).
Proof.
  revert total. induction dirs as [|d dirs IH]; intros total; simpl.
  - apply preserves_ret.
  - destruct (_ <? _); [|apply preserves_ret].
    apply preserves_bind; [apply inv_remove_cache | intros; apply IH].
Qed.

Lemma inv_cleanup_disk_cache E : preserves I (_cleanup_disk_cache E).
Proof.
  unfold _cleanup_disk_cache. apply preserves_bind; [apply preserves_get|].
  intros s0. destruct (cache_root s0); [|apply preserves_ret].
  apply preserves_bind; [apply inv_disk_loop | intros; apply preserves_ret].
Qed.

Lemma inv_stop E : preserves I (stop E).
Proof.
  unfold stop. apply preserves_bind; [apply inv_save_cache_metadata|]. intros _.
  apply preserves_bind; [apply preserves_get_models|]. intros r.
  apply preserves_bind; [|intros; apply preserves_when, preserves_effect].
  apply preserves_for_each. intros id.
  apply preserves_bind; [apply preserves_get_models|]. intros r'.
  apply preserves_bind; [apply preserves_when, inv_unload_model|].
  intros; apply preserves_ret.
Qed.

Lemma inv_step s s' : step s s' -> I s -> I s'.
Proof.
  intros Hs H. destruct Hs.
  - now apply inv_load_model.
  - now apply inv_unload_model.
  - now apply inv_get_model_info.
  - apply I_last_used, H.
  - apply I_error_count, H.
  - now apply inv_generate_image.
  - apply inv_run_loader; [|exact H]. now apply (I_loader s).
  - now apply inv_cleanup_models.
  - now apply inv_save_cache_metadata.
  - now apply inv_cleanup_disk_cache.
  - now apply inv_stop.
Qed.

(** Construction: [I] after [_init_models] is [I] after [__init__]. *)
Lemma inv_init s :
  I (snd (_init_models s)) -> I (snd (__init__ s)).
Proof.
  intros H0. unfold __init__.
  change (I (snd (bind _load_cache_metadata (fun _ => _load_model DEFAULT_MODEL)
                       (snd (_init_models s))))).
  revert H0. apply preserves_bind;
    [apply inv_load_cache_metadata | intros; apply inv_load_model].
Qed.

Lemma inv_reachable s :
  (forall E mm md file root, I (snd (_init_models (fresh E mm md file root)))) ->
  reachable s -> I s.
Proof.
  intros H0. induction 1 as [E mm md file root | s s' _ IH Hs].
  - apply inv_init, H0.
  - exact (inv_step s s' Hs IH).
Qed.
End Invariant.

(** ** Instances: properties of every entry, and the key set *)

Section EveryModel.
Variable P : string -> ModelInfo -> Prop.
Hypothesis P_start : forall k m,
  loaded m = false -> loading m = false -> P k m -> P k (set_loading true m).
Hypothesis P_unloaded : forall k m,
  P k m -> P k (set_loaded false (set_pipeline None m)).
Hypothesis P_success : forall k pipe now m,
  P k m ->
  P k (set_last_used now
         (set_load_count (load_count m + 1)
            (set_loading false (set_loaded true (set_pipeline (Some pipe) m))))).
Hypothesis P_failure : forall k msg m,
  truthy (Some msg) = true ->
  P k m ->
  P k (set_error_count (error_count m + 1)
         (set_loading false (set_load_error (Some msg) m))).
Hypothesis P_last_used : forall k t m, P k m -> P k (set_last_used t m).
Hypothesis P_load_count : forall k n m, P k m -> P k (set_load_count n m).
Hypothesis P_memory_usage : forall k n m, P k m -> P k (set_memory_usage n m).
Hypothesis P_error_count : forall k n m, P k m -> P k (set_error_count n m).

Lemma all_models_frame s s' :
  models s' = models s -> loaders s' = loaders s -> all_models P s -> all_models P s'.
Proof. unfold all_models. intros H _. now rewrite H. Qed.

Lemma all_models_started k s m :
  lookup k (models s) = Some m -> loaded m = false -> loading m = false ->
  all_models P s ->
  all_models P (with_loaders (loaders s ++ [k]) (write k (set_loading true) s)).
Proof.
  intros L Ld Lg H. apply Forall_update; [exact H|].
  intros m' L'. simpl in L'. rewrite L in L'. inversion L'; subst m'. now apply P_start.
Qed.

Lemma all_models_write k f s :
  (forall m, P k m -> P k (f m)) -> all_models P s -> all_models P (write k f s).
Proof. intros Hf H. apply Forall_update; auto. Qed.

Lemma all_models_step s s' : step s s' -> all_models P s -> all_models P s'.
Proof.
  apply (inv_step (all_models P) (fun _ => True));
    [ trivial | exact all_models_frame | exact all_models_started
    | intros k s0 H; exact H
    | intros; apply all_models_write; auto .. ].
Qed.

Hypothesis P_new : forall c, P (model_id c) (new_ModelInfo c).

Lemma all_models_reachable s : reachable s -> all_models P s.
Proof.
  induction 1 as [E mm md file root | s s' _ IH Hs].
  - apply inv_init;
      [ exact all_models_frame | exact all_models_started
      | intros; apply all_models_write; auto | ].
    repeat constructor; simpl; [apply (P_new SD21) | apply (P_new SD15)].
  - exact (all_models_step s s' Hs IH).
Qed.
End EveryModel.

(** ** C2: the phase invariant *)

Lemma phase_ok_phases m :
  phase_ok m ->
  exactly_one_phase m /\ (pipeline m <> None <-> in_phase Loaded m).
Proof.
  intros [H1 H2]. split.
  - destruct (loaded m) eqn:Ld, (loading m) eqn:Lg; try discriminate H1.
    + exists Loaded. split; [exact Ld|].
      intros [] Hq; simpl in Hq; try reflexivity;
        [destruct Hq; congruence | congruence].
    + exists Loading. split; [exact Lg|].
      intros [] Hq; simpl in Hq; try reflexivity;
        [destruct Hq; congruence | congruence].
    + exists Unloaded. split; [split; assumption|].
      intros [] Hq; simpl in Hq; try reflexivity; congruence.
  - simpl. rewrite <- H2. destruct (pipeline m); simpl; split; congruence.
Qed.

(** Conversely, the invariant of the data model is [phase_ok]. *)
Lemma phases_phase_ok m :
  exactly_one_phase m -> (pipeline m <> None <-> in_phase Loaded m) -> phase_ok m.
Proof.
  intros (p & Hp & Huniq) Hh. split.
  - destruct (loaded m) eqn:Ld, (loading m) eqn:Lg; try reflexivity.
    assert (A : Loaded = p) by (apply Huniq; exact Ld).
    assert (B : Loading = p) by (apply Huniq; exact Lg).
    congruence.
  - simpl in Hh. destruct (pipeline m) as [x|], (loaded m); simpl; try reflexivity.
    + assert (A : false = true) by (apply Hh; discriminate). discriminate A.
    + destruct Hh as [_ Hh]. exfalso. now apply Hh.
Qed.

Ltac phase_writes :=
  unfold phase_ok; simpl; intros; intuition auto;
  first [ apply andb_false_r
        | match goal with H : loaded _ = false |- _ => now rewrite H end ].

Lemma phase_ok_step s s' :
  step s s' -> all_models (fun _ => phase_ok) s -> all_models (fun _ => phase_ok) s'.
Proof. apply all_models_step; phase_writes. Qed.

Lemma phase_ok_reachable s : reachable s -> all_models (fun _ => phase_ok) s.
Proof. apply all_models_reachable; phase_writes. Qed.

(** Every operation that writes to a [ModelInfo] keeps the invariant,
    from any state in which it holds. *)
Lemma phase_invariant_step s s' :
  step s s' ->
  (forall id m, In (id, m) (models s) ->
     exactly_one_phase m /\ (pipeline m <> None <-> in_phase Loaded m)) ->
  forall id m, In (id, m) (models s') ->
     exactly_one_phase m /\ (pipeline m <> None <-> in_phase Loaded m).
Proof.
  intros Hs H id m Hin.
  assert (A : all_models (fun _ => phase_ok) s).
  { apply Forall_forall. intros [k x] Hx. simpl.
    destruct (H k x Hx). now apply phases_phase_ok. }
  pose proof (phase_ok_step s s' Hs A) as B.
  unfold all_models in B. rewrite Forall_forall in B.
  apply phase_ok_phases. exact (B (id, m) Hin).
Qed.



(** ** C10: the reported status *)

Lemma error_ok_reachable s : reachable s -> all_models (fun _ => error_ok) s.
Proof.
  apply all_models_reachable; unfold error_ok; simpl; intros; auto.
Qed.

Lemma status_of_reported m : error_ok m -> status_of m = reported m.
Proof.
  unfold error_ok, status_of, reported. intros [H|H].
  - rewrite H. reflexivity.
  - destruct (load_error m) as [[|c e]|]; simpl in *; try discriminate H; reflexivity.
Qed.

(** No method clears a recorded load error. *)
Lemma failed_before_write k f id s :
  (forall m, load_error m <> None -> load_error (f m) <> None) ->
  failed_before id s -> failed_before id (write k f s).
Proof.
  intros Hf (m & L & He). unfold failed_before, write. simpl.
  rewrite lookup_update, L. destruct (String.eqb id k); simpl; eauto.
Qed.

Lemma failed_before_frame id s s' :
  models s' = models s -> failed_before id s -> failed_before id s'.
Proof. unfold failed_before. intros H. now rewrite H. Qed.

Lemma failed_before_step id s s' :
  step s s' -> failed_before id s -> failed_before id s'.
Proof.
  apply (inv_step (failed_before id) (fun _ => True)); [trivial | ..].
  - intros s0 s1 Hm _. now apply failed_before_frame.
  - intros k s0 m L Ld Lg H.
    apply (failed_before_frame id (write k (set_loading true) s0)); [reflexivity|].
    apply failed_before_write; auto.
  - intros k s0 H. exact H.
  - intros; apply failed_before_write; auto.
  - intros; apply failed_before_write; auto.
  - intros; apply failed_before_write; auto. simpl. discriminate.
  - intros; apply failed_before_write; auto.
  - intros; apply failed_before_write; auto.
  - intros; apply failed_before_write; auto.
Qed.

Lemma failed_before_execution id s s' :
  execution s s' -> failed_before id s -> failed_before id s'.
Proof.
  induction 1 as [|s s' s'' Hs _ IH]; [auto|].
  intros H. apply IH. exact (failed_before_step id s s' Hs H).
Qed.

Lemma reachable_execution s s' : execution s s' -> reachable s -> reachable s'.
Proof.
  induction 1 as [|s s' s'' Hs _ IH]; [auto|].
  intros H. apply IH. exact (reach_step s s' H Hs).
Qed.

(** C10. For every model in every state of an execution, the reported
    status is "loading" when the loading flag is set; otherwise "error: "
    followed by the first 100 characters of the load error when one is
    recorded, whether or not the model is loaded; otherwise "loaded" or
    "not_loaded" by the loaded flag. No later step clears a recorded load
    error, so a model that has failed to load once and is loaded later is
    reported with an error status, not as "loaded". *)
Theorem status_precedence s id m :
  reachable s -> lookup id (models s) = Some m ->
  status_of m = reported m
  /\ (exists l, GetImageModels s = (Return l, s) /\ In (id, reported m) l)
  /\ (load_error m <> None ->
      forall s' m',
        execution s s' -> lookup id (models s') = Some m' ->
        loading m' = false ->
        exists e, load_error m' = Some e
                  /\ status_of m' = "error: " ++ take 100 e
                  /\ status_of m' <> "loaded").
Proof.
  intros Hr L.
  assert (R0 : status_of m = reported m).
  { apply status_of_reported.
    pose proof (error_ok_reachable s Hr) as A.
    unfold all_models in A. rewrite Forall_forall in A.
    exact (A (id, m) (lookup_In id m (models s) L)). }
  split; [exact R0|]. split.
  - eexists. split; [reflexivity|]. rewrite <- R0.
    apply (in_map (fun kv => (fst kv, status_of (snd kv))) (models s) (id, m)).
    now apply lookup_In.
  - intros He s' m' Hx L' Lg.
    assert (F : failed_before id s') by
      (apply (failed_before_execution id s s' Hx); exists m; auto).
    destruct F as (m0 & L0 & He0). rewrite L' in L0. inversion L0; subst m0.
    destruct (load_error m') as [e|] eqn:Le; [|congruence].
    exists e. split; [reflexivity|].
    assert (R : status_of m' = reported m').
    { apply status_of_reported.
      pose proof (error_ok_reachable s' (reachable_execution s s' Hx Hr)) as A.
      unfold all_models in A. rewrite Forall_forall in A.
      exact (A (id, m') (lookup_In id m' (models s') L')). }
    rewrite R. unfold reported. rewrite Lg, Le.
    split; [reflexivity | discriminate].
Qed.

(** ** The load task *)

(** Case analysis on the next call whose result decides the path. *)
Ltac next_case :=
  match goal with
  | |- context [match ?x with _ => _ end] =>
      lazymatch x with
      | context [match _ with _ => _ end] => fail
      | _ => destruct x eqn:?
      end
  end.

Ltac run_load :=
  unfold _load, finish, ready, commit, on_failure, on_unexpected, record_failure,
    construct, attempt, _warmup_model,
    _generate_image, _load_model, start_loader, mutate, logger, modify, when, effect,
    lift, try_except, bind, ret, raise, get, get_models.

Ltac same_model L :=
  simpl; rewrite ?lookup_update, ?String.eqb_refl, ?L; simpl; try reflexivity.

(** Every path of the load task but the substitution of the fallback
    model ends the loading phase: the task returns [None], never raises,
    and leaves the model loaded, or as it was with an error recorded and
    counted. The substitution path returns what [_load_model] returned. *)
Lemma load_task_outcome E id now s m :
  lookup id (models s) = Some m ->
  match _load E id now s with
  | (Raise _, _) => False
  | (Return (Some _), _) => id = DEFAULT_MODEL
  | (Return None, s') =>
      exists m', lookup id (models s') = Some m' /\ loading m' = false
        /\ ((loaded m' = true /\ pipeline m' <> None
             /\ load_count m' = load_count m + 1)
            \/ (loaded m' = loaded m /\ pipeline m' = pipeline m
                /\ load_error m' <> None /\ error_count m' = error_count m + 1))
  end.
Proof.
  intros L. run_load. rewrite L.
  repeat (next_case; simpl in *; try discriminate).
  all: try (apply String.eqb_eq; assumption).
  all: eexists; split; [same_model L|]; simpl; split; [reflexivity|].
  all: first [ left; repeat split; discriminate
             | right; repeat split; discriminate ].
Qed.

Ltac pair_eq :=
  repeat match goal with
         | H : (_, _) = (_, _) |- _ => inversion H; subst; clear H
         | H : Return _ = Return _ |- _ => inversion H; subst; clear H
         | H : Some _ = Some _ |- _ => inversion H; subst; clear H
         end.

Ltac next_case_but K :=
  match goal with
  | |- context [match ?x with _ => _ end] =>
      lazymatch x with
      | context [match _ with _ => _ end] => fail
      | K _ _ => fail
      | _ => destruct x eqn:?
      end
  end.

(** The load task up to validation: when [validated] gives [p], the task
    is the rest of its inner [try] run on [p], in a state that differs from
    the initial one in the log and the device only. *)
Lemma load_validated E id now s m p :
  lookup id (models s) = Some m ->
  validated E id (device s) = Return p ->
  exists s1,
    _load E id now s
    = try_except (try_except (commit E id (config m) now p) (on_failure E id true))
                 (on_unexpected id) s1
    /\ models s1 = models s /\ pipe_calls s1 = pipe_calls s /\ loaders s1 = loaders s.
Proof.
  intros L V. unfold validated in V.
  remember (commit E id (config m) now) as K.
  unfold _load, finish, ready, construct, attempt, logger, modify, when, effect,
    lift, try_except, bind, ret, raise, get, get_models.
  rewrite L.
  repeat (next_case_but K; simpl in *; pair_eq; try congruence).
  all: eexists; repeat split.
Qed.

Ltac run_commit :=
  unfold commit, on_failure, on_unexpected, record_failure, _load_model, start_loader,
    mutate, logger, modify, when, effect, lift, try_except, bind, ret, raise, get,
    get_models.

(** The substitution path: when the pipeline of the default model fails
    validation on its UNet sample size, the task hands over to
    [_load_model] for the fallback model and returns; nothing is written
    to the default model. *)
Lemma load_task_substitution E now s m p n :
  lookup DEFAULT_MODEL (models s) = Some m ->
  validated E DEFAULT_MODEL (device s) = Return p ->
  _validate_model p (config m)
  = (false, "Unexpected UNet sample size: " ++ str n ++ " (expected 64)") ->
  (cuda_is_available E = true -> cuda_empty_cache E = None) ->
  exists b s',
    _load E DEFAULT_MODEL now s = (Return (Some b), s')
    /\ lookup DEFAULT_MODEL (models s') = Some m.
Proof.
  intros L V W C.
  destruct (load_validated E _ now s m p L V) as (s1 & Eq & Hm & _).
  rewrite Eq. clear Eq. rewrite <- Hm in L. clear Hm V.
  run_commit. rewrite W. simpl.
  repeat (next_case; simpl in *; pair_eq; try congruence).
  all: try (specialize (C eq_refl); discriminate).
  all: do 2 eexists; split; [reflexivity|]; simpl; rewrite ?lookup_update; exact L.
Qed.

(** A model that is loading while no loader thread runs for it stays so
    in every execution: only its loader ends the loading phase. *)
Lemma In_remove_first x k l : In x (remove_first k l) -> In x l.
Proof.
  induction l as [|y l IH]; simpl; [auto|].
  destruct (String.eqb k y); simpl; intuition auto.
Qed.

Lemma stuck_write id k f s :
  (k <> id \/ forall m, loading (f m) = loading m) ->
  stuck_loading id s -> stuck_loading id (write k f s).
Proof.
  intros Hk ((m & L & Lg) & Hn). split; [|exact Hn].
  simpl. rewrite lookup_update, L.
  destruct (String.eqb id k) eqn:K; [|eauto].
  apply String.eqb_eq in K. subst k. destruct Hk as [Hk|Hk]; [congruence|].
  simpl. eexists. split; [reflexivity|]. now rewrite Hk.
Qed.

Lemma stuck_step id s s' : step s s' -> stuck_loading id s -> stuck_loading id s'.
Proof.
  apply (inv_step (stuck_loading id) (fun k => k <> id)).
  - intros s0 k (_ & Hn) Hin Hk. subst k. now apply Hn.
  - unfold stuck_loading. intros s0 s1 Hm Hl. now rewrite Hm, Hl.
  - intros k s0 m L Ld Lg H.
    assert (Hk : k <> id).
    { intros ->. destruct H as ((m0 & L0 & Lg0) & _). congruence. }
    destruct (stuck_write id k (set_loading true) s0 (or_introl Hk) H) as (Hm & Hn).
    split; [exact Hm|]. simpl. rewrite in_app_iff. simpl. intros [Hi|[Hi|[]]]; auto.
  - intros k s0 (Hm & Hn). split; [exact Hm|]. simpl.
    intros Hi. apply Hn. now apply In_remove_first in Hi.
  - intros; apply stuck_write; auto.
  - intros; apply stuck_write; auto.
  - intros; apply stuck_write; auto.
  - intros; apply stuck_write; auto.
  - intros; apply stuck_write; auto.
  - intros; apply stuck_write; auto.
Qed.

Lemma stuck_execution id s s' :
  execution s s' -> stuck_loading id s -> stuck_loading id s'.
Proof.
  induction 1 as [|s s' s'' Hs _ IH]; [auto|].
  intros H. apply IH. exact (stuck_step id s s' Hs H).
Qed.

(** C1, at the input on which the code leaves the loading phase open:
    the default model as [__init__] starts it, with the published weights
    of Stable Diffusion 2.1 (UNet sample size 96). The load task returns
    what [_load_model] of the fallback model returned; when it has ended,
    the default model is still loading, without an error and without a
    loader thread, and the fallback model has been started instead.
    Whatever happens afterwards, the default model stays in the loading
    phase. *)
Theorem load_task_substitution_keeps_loading :
  fst (_load cpu_host DEFAULT_MODEL 5 started) = Return (Some true)
  /\ lookup DEFAULT_MODEL (models (snd (run_loader cpu_host DEFAULT_MODEL 5 started)))
     = Some (set_loading true (new_ModelInfo SD21))
  /\ lookup FALLBACK_MODEL (models (snd (run_loader cpu_host DEFAULT_MODEL 5 started)))
     = Some (set_loading true (new_ModelInfo SD15))
  /\ loaders (snd (run_loader cpu_host DEFAULT_MODEL 5 started)) = [FALLBACK_MODEL]
  /\ forall s',
       execution (snd (run_loader cpu_host DEFAULT_MODEL 5 started)) s' ->
       exists m, lookup DEFAULT_MODEL (models s') = Some m
                 /\ loading m = true /\ status_of m = "loading".
Proof.
  repeat split.
  intros s' Hx.
  destruct (stuck_execution DEFAULT_MODEL _ s' Hx) as ((m & L & Lg) & _).
  - split.
    + eexists. split; reflexivity.
    + simpl. intros [H|[]]. discriminate H.
  - exists m. repeat split; auto. unfold status_of. now rewrite Lg.
Qed.

(** ** C7: validation rejects an incomplete pipeline *)

(** C7. When the pipeline that the load task validates lacks its UNet,
    text encoder or VAE, the task ends with an error message recorded that
    contains the model identifier, the model unloaded (not loading, not
    loaded, no pipeline) and its error count one higher than before. *)
Theorem validation_rejects_incomplete_pipeline E id now s m p :
  lookup id (models s) = Some m ->
  loading m = true -> phase_ok m ->
  validated E id (device s) = Return p ->
  has_unet p && has_text_encoder p && has_vae p = false ->
  exists s' m' msg,
    _load E id now s = (Return None, s')
    /\ lookup id (models s') = Some m'
    /\ load_error m' = Some msg /\ names msg id
    /\ loading m' = false /\ loaded m' = false /\ pipeline m' = None
    /\ error_count m' = error_count m + 1.
Proof.
  intros L Lg [P1 P2] V W. rewrite Lg, andb_true_r in P1.
  rewrite P1 in P2. destruct (pipeline m) eqn:Pm; [discriminate P2|].
  assert (Hv : _validate_model p (config m)
               = (false, "Missing required model components (UNet, TextEncoder, or VAE)")).
  { unfold _validate_model.
    destruct (has_unet p), (has_text_encoder p), (has_vae p);
      simpl in *; congruence. }
  destruct (load_validated E id now s m p L V) as (s1 & Eq & Hm & _).
  rewrite Eq. clear Eq. rewrite <- Hm in L. clear Hm V.
  run_commit. rewrite Hv. simpl.
  repeat (next_case; simpl in *; pair_eq; try congruence).
  all: do 3 eexists; split; [reflexivity|]; split; [same_model L|]; simpl.
  all: split; [reflexivity|]; split; [|auto].
  all: first [ exists "Failed to load model "; eexists; reflexivity
             | exists "Unexpected error loading model "; eexists; reflexivity ].
Qed.

Lemma validation_rejects_incomplete_pipeline_witness :
  exists s' m' msg,
    _load no_vae_host DEFAULT_MODEL 5 started = (Return None, s')
    /\ lookup DEFAULT_MODEL (models s') = Some m'
    /\ load_error m' = Some msg /\ names msg DEFAULT_MODEL
    /\ loading m' = false /\ loaded m' = false /\ pipeline m' = None
    /\ error_count m' = error_count (set_loading true (new_ModelInfo SD21)) + 1.
Proof.
  apply (validation_rejects_incomplete_pipeline no_vae_host DEFAULT_MODEL 5 started
           (set_loading true (new_ModelInfo SD21)) (no_vae_pipeline DEFAULT_MODEL)).
  - reflexivity.
  - reflexivity.
  - split; reflexivity.
  - reflexivity.
  - reflexivity.
Defined.

(** ** C6: warm-up *)

(** Warm-up never raises and makes one call of the pipeline, the same for
    every model: the 64x64, 2-step request after the clamping of
    [_generate_image]. *)
Lemma warmup_model_run E p cfg s :
  _warmup_model E p cfg s
  = (Return (match pipe_call E (warmup_call p) with
             | None => (true, EmptyString)
             | Some e => (false, "Warmup failed: " ++ e)
             end),
     with_pipe_calls (pipe_calls s ++ [warmup_call p]) s).
Proof.
  unfold _warmup_model, _generate_image, try_except, bind, modify, effect, ret.
  change (mkGenCall p "a small red square" _ _ _ _ _ 1) with (warmup_call p).
  destruct (pipe_call E (warmup_call p)); reflexivity.
Qed.

(** C6, as the code has it. Whenever the pipeline of a load passes
    validation, the load makes exactly one generation call, the warm-up,
    at 128x128 with 2 steps whatever the supported sizes and the step
    bounds of the model; and when that call raises, the failure is logged
    as a warning and the model is loaded all the same. *)
Theorem warmup_request_is_fixed E id now s m p :
  lookup id (models s) = Some m ->
  validated E id (device s) = Return p ->
  fst (_validate_model p (config m)) = true ->
  pipe_calls (snd (_load E id now s)) = (pipe_calls s ++ [warmup_call p])%list
  /\ (forall e,
        pipe_call E (warmup_call p) = Some e ->
        In (WARNING, Msg ("Model warmup failed (continuing anyway): Warmup failed: " ++ e))
           (log (snd (_load E id now s)))
        /\ exists m', lookup id (models (snd (_load E id now s))) = Some m'
                      /\ loaded m' = true /\ loading m' = false
                      /\ pipeline m' = Some p).
Proof.
  intros L V W.
  destruct (load_validated E id now s m p L V) as (s1 & Eq & Hm & Hc & _).
  rewrite Eq. clear Eq. rewrite <- Hm in L. rewrite <- Hc. clear Hm Hc V.
  destruct (_validate_model p (config m)) as [ok err] eqn:Hv. simpl in W. subst ok.
  run_commit. rewrite Hv. simpl. rewrite warmup_model_run.
  repeat (next_case; simpl in *; pair_eq; try congruence).
  all: repeat match goal with
              | H : String.eqb _ _ = true |- _ => apply String.eqb_eq in H; subst
              end.
  all: split; [reflexivity|]; intros ? He; inversion He; subst.
  all: split; [rewrite !in_app_iff; simpl; tauto|].
  all: eexists; split; [simpl; rewrite ?lookup_update, ?String.eqb_refl, ?L; reflexivity|].
  all: simpl; auto.
Qed.

Lemma warmup_request_is_fixed_witness :
  pipe_calls (snd (_load oom_host DEFAULT_MODEL 5 started))
  = (pipe_calls started ++ [warmup_call (sd_pipeline DEFAULT_MODEL 64)])%list
  /\ (forall e,
        pipe_call oom_host (warmup_call (sd_pipeline DEFAULT_MODEL 64)) = Some e ->
        In (WARNING, Msg ("Model warmup failed (continuing anyway): Warmup failed: " ++ e))
           (log (snd (_load oom_host DEFAULT_MODEL 5 started)))
        /\ exists m', lookup DEFAULT_MODEL
                        (models (snd (_load oom_host DEFAULT_MODEL 5 started))) = Some m'
                      /\ loaded m' = true /\ loading m' = false
                      /\ pipeline m' = Some (sd_pipeline DEFAULT_MODEL 64)).
Proof.
  apply (warmup_request_is_fixed oom_host DEFAULT_MODEL 5 started
           (set_loading true (new_ModelInfo SD21))).
  - reflexivity.
  - reflexivity.
  - reflexivity.
Defined.

(** C6 as stated fails: loading Stable Diffusion 2.1 (smallest supported
    size 512x512, at least 10 steps) warms up at 128x128 with 2 steps. *)
Lemma warmup_ignores_model_config :
  exists c,
    pipe_calls (snd (_load uniform_host DEFAULT_MODEL 5 started)) = [c]
    /\ field (models (snd (_load uniform_host DEFAULT_MODEL 5 started)))
             loaded false DEFAULT_MODEL = true
    /\ (gen_width c, gen_height c, gen_steps c) = (128, 128, 2)
    /\ smallest_size (supported_sizes SD21) = Some (512, 512)
    /\ min_steps SD21 = 10
    /\ ~ warmup_as_claimed SD21 c.
Proof.
  exists (warmup_call (sd_pipeline DEFAULT_MODEL 64)).
  repeat split. intros [H _]. discriminate H.
Qed.

Lemma status_precedence_witness :
  status_of failed_model = reported failed_model
  /\ (exists l, GetImageModels failed_once = (Return l, failed_once)
                /\ In (DEFAULT_MODEL, reported failed_model) l)
  /\ (load_error failed_model <> None ->
      forall s' m',
        execution failed_once s' -> lookup DEFAULT_MODEL (models s') = Some m' ->
        loading m' = false ->
        exists e, load_error m' = Some e
                  /\ status_of m' = "error: " ++ take 100 e
                  /\ status_of m' <> "loaded").
Proof.
  apply (status_precedence failed_once DEFAULT_MODEL failed_model).
  - apply (reach_step started).
    + exact (reach_init cpu_host 2 (10 * 1024 * 1024 * 1024) Absent None).
    + apply (step_loader offline_host DEFAULT_MODEL 10 started). left. reflexivity.
  - reflexivity.
Defined.

(** The default model fails to load, is requested again and loads: it is
    loaded and reported with the old error. *)
Example status_after_recovery :
  exists m, lookup DEFAULT_MODEL (models recovered) = Some m
            /\ loaded m = true /\ loading m = false
            /\ status_of m
               = "error: Failed to load model stabilityai/stable-diffusion-2-1: Connection error".
Proof. eexists. repeat split. Qed.

(** ** C5: eviction *)

Ltac run_unload :=
  unfold _unload_model, field, mutate, logger, modify, when, effect, lift,
    try_except, bind, ret, raise, get, get_models.

Lemma unload_model_models E id s :
  models (snd (_unload_model E id s)) = update id (unloaded_or_counted E) (models s).
Proof.
  run_unload.
  destruct (lookup id (models s)) as [m|] eqn:L; simpl;
    [|now rewrite update_absent].
  destruct (pipeline m) as [p|] eqn:Pm; simpl.
  - repeat (next_case; simpl in *; pair_eq; try congruence).
    all: apply (update_ext _ _ _ _ m L); unfold unloaded_or_counted, release_error.
    all: rewrite Pm; repeat match goal with H : _ = _ |- _ => rewrite H end; reflexivity.
  - symmetry. rewrite (update_ext id _ (fun m => m) _ m L).
    + clear. induction (models s) as [|[k0 m0] r IH]; simpl; [reflexivity|].
      destruct (String.eqb id k0); [reflexivity | now rewrite IH].
    + unfold unloaded_or_counted. now rewrite Pm.
Qed.

Lemma unload_model_returns E id s : fst (_unload_model E id s) = Return tt.
Proof.
  run_unload.
  repeat (next_case; simpl in *; pair_eq; try congruence).
Qed.

Lemma unload_model_frame E id s :
  metadata_file (snd (_unload_model E id s)) = metadata_file s
  /\ metadata_tmp (snd (_unload_model E id s)) = metadata_tmp s
  /\ loaders (snd (_unload_model E id s)) = loaders s
  /\ pipe_calls (snd (_unload_model E id s)) = pipe_calls s
  /\ cache_root (snd (_unload_model E id s)) = cache_root s.
Proof.
  run_unload.
  repeat (next_case; simpl in *; pair_eq; try congruence); auto.
Qed.

Lemma unload_model_logs E id s m p e :
  lookup id (models s) = Some m -> pipeline m = Some p ->
  release_error E p = Some e ->
  In (ERROR, Msg ("Error unloading model " ++ id ++ ": " ++ e))
     (log (snd (_unload_model E id s))).
Proof.
  intros L Pm R. unfold release_error in R. run_unload. rewrite L. simpl. rewrite Pm.
  repeat (next_case; simpl in *; pair_eq; try congruence).
  all: rewrite in_app_iff; simpl; auto.
Qed.

(** C5, as the code has it. Evicting a loaded model unloads it and drops
    its pipeline handle when the release of the device raises nothing;
    when the release raises, the error is logged and counted against the
    model, which stays loaded and keeps its handle. *)
Theorem unload_model_transitions E id s m p :
  lookup id (models s) = Some m -> loaded m = true -> pipeline m = Some p ->
  exists m',
    lookup id (models (snd (_unload_model E id s))) = Some m'
    /\ (release_error E p = None ->
        loaded m' = false /\ pipeline m' = None /\ error_count m' = error_count m)
    /\ (forall e,
          release_error E p = Some e ->
          loaded m' = true /\ pipeline m' = Some p
          /\ error_count m' = error_count m + 1
          /\ In (ERROR, Msg ("Error unloading model " ++ id ++ ": " ++ e))
                (log (snd (_unload_model E id s)))).
Proof.
  intros L Ld Pm. exists (unloaded_or_counted E m).
  rewrite unload_model_models, lookup_update, String.eqb_refl, L.
  split; [reflexivity|]. unfold unloaded_or_counted. rewrite Pm. split.
  - intros R. rewrite R. simpl. auto.
  - intros e R. rewrite R. simpl. repeat split; auto.
    now apply (unload_model_logs E id s m p e).
Qed.

Lemma unload_model_transitions_witness :
  exists m',
    lookup DEFAULT_MODEL (models (snd (_unload_model busy_host DEFAULT_MODEL serving)))
    = Some m'
    /\ (release_error busy_host (sd_pipeline DEFAULT_MODEL 64) = None ->
        loaded m' = false /\ pipeline m' = None
        /\ error_count m' = error_count served_model)
    /\ (forall e,
          release_error busy_host (sd_pipeline DEFAULT_MODEL 64) = Some e ->
          loaded m' = true /\ pipeline m' = Some (sd_pipeline DEFAULT_MODEL 64)
          /\ error_count m' = error_count served_model + 1
          /\ In (ERROR, Msg ("Error unloading model " ++ DEFAULT_MODEL ++ ": " ++ e))
                (log (snd (_unload_model busy_host DEFAULT_MODEL serving)))).
Proof.
  apply (unload_model_transitions busy_host DEFAULT_MODEL serving served_model).
  - reflexivity.
  - reflexivity.
  - reflexivity.
Defined.

(** C5 as stated fails: on a host whose device raises on the move to the
    CPU, the evicted model is still loaded and still holds its handle. *)
Lemma unload_model_keeps_handle_on_error :
  exists m',
    lookup DEFAULT_MODEL (models serving) = Some served_model
    /\ in_phase Loaded served_model
    /\ lookup DEFAULT_MODEL (models (snd (_unload_model busy_host DEFAULT_MODEL serving)))
       = Some m'
    /\ ~ in_phase Unloaded m' /\ pipeline m' <> None.
Proof.
  eexists. split; [reflexivity|]. split; [reflexivity|]. split; [reflexivity|].
  split; [intros [H _]; discriminate H | discriminate].
Qed.

(** ** C9: shutdown *)

Ltac run_save :=
  unfold _save_cache_metadata, move_tmp, logger, modify, when, effect, lift,
    try_except, bind, ret, raise, get, get_models.

Lemma save_cache_metadata_models E s :
  models (snd (_save_cache_metadata E s)) = models s.
Proof.
  run_save. repeat (next_case; simpl in *; pair_eq; try congruence).
Qed.

Lemma save_cache_metadata_written E s :
  save_succeeds E (metadata_file s) = true ->
  metadata_file (snd (_save_cache_metadata E s)) = Document (cache_data_of (models s)).
Proof.
  unfold save_succeeds, is_None, is_Some. run_save.
  repeat (next_case; simpl in *; pair_eq; try congruence).
Qed.

Lemma save_cache_metadata_atomic E s :
  os_posix E = true ->
  metadata_file (snd (_save_cache_metadata E s)) = metadata_file s
  \/ metadata_file (snd (_save_cache_metadata E s)) = Document (cache_data_of (models s)).
Proof.
  intros P. run_save. rewrite P.
  repeat (next_case; simpl in *; pair_eq; try congruence); auto.
Qed.

Lemma doc_lookup_cache_data k r :
  doc_lookup k (cache_data_of r) = option_map record_of (lookup k r).
Proof.
  induction r as [|[k0 m0] r IH]; simpl; [reflexivity|].
  destruct (String.eqb k k0); [reflexivity | exact IH].
Qed.

Lemma stop_body_run E id s :
  fst (stop_body E id s) = Return false
  /\ models (snd (stop_body E id s)) = update id (stopped E) (models s)
  /\ metadata_file (snd (stop_body E id s)) = metadata_file s.
Proof.
  unfold stop_body, bind, get_models, when, field.
  destruct (lookup id (models s)) as [m|] eqn:L.
  - destruct (resident m) eqn:R.
    + pose proof (unload_model_returns E id s) as Hr.
      pose proof (unload_model_models E id s) as Hm.
      pose proof (unload_model_frame E id s) as (Hf & _).
      destruct (_unload_model E id s) as [o s1]. simpl in *. subst o. simpl.
      repeat split; auto. rewrite Hm.
      apply (update_ext _ _ _ _ m L). unfold stopped. now rewrite R.
    + simpl. repeat split.
      rewrite (update_ext id (stopped E) (fun m => m) _ m L).
      * clear. induction (models s) as [|[k0 m0] r IH]; simpl; [reflexivity|].
        destruct (String.eqb id k0); [reflexivity | now rewrite <- IH].
      * unfold stopped. now rewrite R.
  - simpl. repeat split. now rewrite update_absent.
Qed.

Lemma stop_loop_run E l :
  NoDup l ->
  forall s k,
    lookup k (models (snd (for_each l (stop_body E) s)))
    = (if existsb (String.eqb k) l
       then option_map (stopped E) (lookup k (models s))
       else lookup k (models s))
    /\ metadata_file (snd (for_each l (stop_body E) s)) = metadata_file s.
Proof.
  induction 1 as [|a l Ha Hl IH]; intros s k; simpl; [auto|].
  unfold bind. destruct (stop_body_run E a s) as (Hr & Hm & Hf).
  destruct (stop_body E a s) as [o s1]. simpl in *. subst o.
  destruct (IH s1 k) as (IHm & IHf). rewrite IHm, IHf, Hm, Hf, lookup_update.
  split; [|reflexivity].
  destruct (String.eqb k a) eqn:Ka; simpl.
  - apply String.eqb_eq in Ka; subst a.
    destruct (existsb (String.eqb k) l) eqn:X; [|reflexivity].
    exfalso. apply Ha. apply existsb_exists in X. destruct X as (x & Hx & Kx).
    apply String.eqb_eq in Kx. now subst x.
  - reflexivity.
Qed.

Lemma save_cache_metadata_returns E s : fst (_save_cache_metadata E s) = Return tt.
Proof.
  run_save. repeat (next_case; simpl in *; pair_eq; try congruence).
Qed.

Lemma stop_loop_returns E l s : fst (for_each l (stop_body E) s) = Return tt.
Proof.
  revert s. induction l as [|a l IH]; intros s; simpl; [reflexivity|].
  unfold bind. destruct (stop_body_run E a s) as (Hr & _).
  destruct (stop_body E a s) as [o s1]. simpl in *. subst o. apply IH.
Qed.

Lemma lookup_keys k r m : lookup k r = Some m -> existsb (String.eqb k) (keys r) = true.
Proof.
  induction r as [|[k0 m0] r IH]; simpl; [discriminate|].
  destruct (String.eqb k k0); simpl; auto.
Qed.

Lemma bind_run {A B} (c : M A) (k : A -> M B) s :
  bind c k s
  = match c s with
    | (Return a, s') => k a s'
    | (Raise e, s') => (Raise e, s')
    end.
Proof. reflexivity. Qed.

Lemma stop_state E s :
  snd (stop E s)
  = snd (for_each (keys (models (snd (_save_cache_metadata E s)))) (stop_body E)
                  (snd (_save_cache_metadata E s))).
Proof.
  unfold stop. rewrite bind_run.
  pose proof (save_cache_metadata_returns E s) as Hr.
  destruct (_save_cache_metadata E s) as [o s1] eqn:Hs. simpl in Hr. subst o.
  cbv beta iota. rewrite bind_run. unfold get_models at 1. cbv beta iota.
  rewrite bind_run.
  change (for_each (keys (models s1)) _ s1)
    with (for_each (keys (models s1)) (stop_body E) s1).
  pose proof (stop_loop_returns E (keys (models s1)) s1) as Hl.
  simpl (snd (Return tt, s1)).
  destruct (for_each (keys (models s1)) (stop_body E) s1) as [o s2] eqn:Hf.
  simpl in Hl. subst o. unfold when, effect, ret.
  destruct (cuda_is_available E); try destruct (cuda_empty_cache E); reflexivity.
Qed.

(** C9, as the code has it. After [stop], a model that was loaded and
    whose release raised nothing is unloaded and holds no pipeline; a
    model whose release raised is still loaded, holds its pipeline and has
    one more error counted; a model that is loading is left as it is.
    [stop] saves the metadata before it unloads: when no file operation of
    the save failed, the file holds [last_used], [load_count] and
    [error_count] of every model as they stood when [stop] was called,
    which are the values when [stop] returns but for the error count of a
    model whose release raised. *)
Theorem stop_outcome E s id m :
  NoDup (keys (models s)) -> lookup id (models s) = Some m -> phase_ok m ->
  exists m',
    lookup id (models (snd (stop E s))) = Some m'
    /\ (loading m = false ->
        (forall p, pipeline m = Some p -> release_error E p = None) ->
        in_phase Unloaded m' /\ pipeline m' = None)
    /\ (forall p e, pipeline m = Some p -> release_error E p = Some e ->
        in_phase Loaded m' /\ pipeline m' = Some p
        /\ error_count m' = error_count m + 1)
    /\ (loading m = true -> m' = m)
    /\ (save_succeeds E (metadata_file s) = true ->
        exists d, metadata_file (snd (stop E s)) = Document d
                  /\ doc_lookup id d = Some (record_of m))
    /\ last_used m' = last_used m /\ load_count m' = load_count m
    /\ (error_count m' <> error_count m ->
        exists p e, pipeline m = Some p /\ release_error E p = Some e).
Proof.
  intros ND L [P1 P2]. rewrite stop_state.
  pose proof (save_cache_metadata_models E s) as Hm1.
  set (s1 := snd (_save_cache_metadata E s)) in *.
  rewrite <- Hm1 in ND.
  destruct (stop_loop_run E (keys (models s1)) ND s1 id) as (Hk & Hf).
  rewrite Hm1 in Hk at 2. rewrite Hm1 in Hk at 2.
  rewrite Hm1 in Hk at 2.
  rewrite (lookup_keys id _ m L), L in Hk. simpl in Hk.
  assert (W : save_succeeds E (metadata_file s) = true ->
              exists d, metadata_file
                          (snd (for_each (keys (models s1)) (stop_body E) s1))
                        = Document d
                        /\ doc_lookup id d = Some (record_of m)).
  { intros Hs. rewrite Hf. unfold s1.
    rewrite (save_cache_metadata_written E s Hs).
    eexists. split; [reflexivity|].
    now rewrite doc_lookup_cache_data, L. }
  exists (stopped E m). split; [exact Hk|].
  unfold stopped, resident, unloaded_or_counted.
  destruct (loaded m) eqn:Ld, (pipeline m) as [p|] eqn:Pm; simpl in *;
    try discriminate P2.
  all: try (destruct (release_error E p) as [e|] eqn:R; simpl).
  all: repeat split; intros; pair_eq; auto; try congruence.
  all: try match goal with
           | H : forall q, Some ?p = Some q -> _ |- _ => specialize (H p eq_refl)
           end; try congruence; eauto.
Qed.

Lemma stop_outcome_witness :
  exists m',
    lookup DEFAULT_MODEL (models (snd (stop busy_host serving))) = Some m'
    /\ (loading served_model = false ->
        (forall p, pipeline served_model = Some p -> release_error busy_host p = None) ->
        in_phase Unloaded m' /\ pipeline m' = None)
    /\ (forall p e, pipeline served_model = Some p ->
                    release_error busy_host p = Some e ->
        in_phase Loaded m' /\ pipeline m' = Some p
        /\ error_count m' = error_count served_model + 1)
    /\ (loading served_model = true -> m' = served_model)
    /\ (save_succeeds busy_host (metadata_file serving) = true ->
        exists d, metadata_file (snd (stop busy_host serving)) = Document d
                  /\ doc_lookup DEFAULT_MODEL d = Some (record_of served_model))
    /\ last_used m' = last_used served_model
    /\ load_count m' = load_count served_model
    /\ (error_count m' <> error_count served_model ->
        exists p e, pipeline served_model = Some p
                    /\ release_error busy_host p = Some e).
Proof.
  apply (stop_outcome busy_host serving DEFAULT_MODEL served_model).
  - repeat constructor; simpl; intuition discriminate.
  - reflexivity.
  - split; reflexivity.
Defined.

(** C9 as stated fails: when the device does not release the pipeline of
    the default model, [stop] returns with the model still loaded, and the
    file it wrote holds an error count of 0 where the model has 1. *)
Lemma stop_leaves_loaded_and_stale :
  exists m' d rec,
    lookup DEFAULT_MODEL (models (snd (stop busy_host serving))) = Some m'
    /\ ~ in_phase Unloaded m' /\ pipeline m' <> None
    /\ metadata_file (snd (stop busy_host serving)) = Document d
    /\ doc_lookup DEFAULT_MODEL d = Some rec
    /\ meta_error_count rec = Some 0 /\ error_count m' = 1.
Proof.
  do 3 eexists. split; [reflexivity|].
  split; [intros [H _]; discriminate H|].
  split; [discriminate|]. repeat split.
Qed.

(** ** C8: the metadata store *)

Lemma load_body_run item s :
  fst (load_body item s) = Return false
  /\ models (snd (load_body item s)) = update (fst item) (absorb (snd item)) (models s)
  /\ metadata_file (snd (load_body item s)) = metadata_file s.
Proof.
  destruct item as [k rec]. unfold load_body, bind, get_models, when, mutate, modify, ret.
  destruct (lookup k (models s)) eqn:L; simpl; repeat split.
  now rewrite update_absent.
Qed.

Lemma for_each_cons {A} (x : A) l body s :
  for_each (x :: l) body s
  = match body x s with
    | (Return true, s') => (Return tt, s')
    | (Return false, s') => for_each l body s'
    | (Raise e, s') => (Raise e, s')
    end.
Proof.
  simpl. unfold bind. destruct (body x s) as [[[|]|e] s']; reflexivity.
Qed.

Lemma load_loop_run d :
  NoDup (map fst d) ->
  forall s,
    fst (for_each d load_body s) = Return tt
    /\ (forall k,
          lookup k (models (snd (for_each d load_body s)))
          = match doc_lookup k d with
            | Some rec => option_map (absorb rec) (lookup k (models s))
            | None => lookup k (models s)
            end)
    /\ metadata_file (snd (for_each d load_body s)) = metadata_file s.
Proof.
  induction d as [|[a rec] d IH]; intros ND s; [simpl; auto|].
  inversion ND as [|x l Ha Hd]; subst.
  rewrite for_each_cons. destruct (load_body_run (a, rec) s) as (Hr & Hm & Hf).
  destruct (load_body (a, rec) s) as [o s1]. simpl in Hr, Hm, Hf. subst o.
  simpl doc_lookup.
  destruct (IH Hd s1) as (IHr & IHm & IHf).
  split; [exact IHr|]. split; [|congruence].
  intros k. rewrite IHm, Hm, lookup_update.
  destruct (String.eqb k a) eqn:Ka; [|reflexivity].
  apply String.eqb_eq in Ka; subst a.
  destruct (doc_lookup k d) as [rec'|] eqn:Dk; [|reflexivity].
  exfalso. apply Ha. clear - Dk.
  induction d as [|[k0 r0] d IH]; simpl in *; [discriminate|].
  destruct (String.eqb k k0) eqn:K0; [left; symmetry; now apply String.eqb_eq | right; auto].
Qed.

Lemma load_cache_metadata_missing s :
  metadata_file s = Absent -> _load_cache_metadata s = (Return tt, s).
Proof.
  intros H. unfold _load_cache_metadata, bind, get. rewrite H. reflexivity.
Qed.

Lemma load_loop_returns d s : fst (for_each d load_body s) = Return tt.
Proof.
  revert s. induction d as [|item d IH]; intros s; [reflexivity|].
  rewrite for_each_cons. destruct (load_body_run item s) as (Hr & _).
  destruct (load_body item s) as [o s1]. simpl in Hr. subst o. apply IH.
Qed.

Lemma load_cache_metadata_document s d :
  metadata_file s = Document d ->
  _load_cache_metadata s = for_each d load_body s.
Proof.
  intros H. unfold _load_cache_metadata. rewrite bind_run. unfold get at 1.
  cbv beta iota. rewrite H. unfold try_except, json_load. rewrite bind_run.
  unfold ret at 1. cbv beta iota.
  change (for_each d _ s) with (for_each d load_body s).
  pose proof (load_loop_returns d s) as Hr.
  destruct (for_each d load_body s) as [o s1]. simpl in Hr. now subst o.
Qed.

Lemma complete_absorbed rec m :
  complete rec = true -> record_of (absorb rec m) = rec.
Proof.
  destruct rec as [[a|] [b|] [c|]]; simpl; try discriminate. reflexivity.
Qed.




(** ** C4: the disk sweep *)

Section SortFacts.
Context {A : Type} (le : A -> A -> bool) (R : A -> A -> Prop).
Hypothesis le_R : forall a b, le a b = true -> R a b.
Hypothesis le_total : forall a b, le a b = false -> R b a.

Lemma insert_perm x l : Permutation (x :: l) (insert le x l).
Proof.
  induction l as [|y l IH]; simpl; [reflexivity|].
  destruct (le x y); [reflexivity|].
  rewrite perm_swap. now apply perm_skip.
Qed.

Lemma sort_perm l : Permutation l (sort le l).
Proof.
  induction l as [|x l IH]; simpl; [constructor|].
  rewrite <- insert_perm. now apply perm_skip.
Qed.

Lemma insert_sorted x l : Sorted R l -> Sorted R (insert le x l).
Proof.
  induction 1 as [|y l Hs IH Hd]; simpl; [repeat constructor|].
  destruct (le x y) eqn:C.
  - constructor; [now constructor | constructor; now apply le_R].
  - constructor; [exact IH|].
    destruct Hd as [|z l Hz]; simpl.
    + constructor. now apply le_total.
    + destruct (le x z); constructor; [now apply le_total | exact Hz].
Qed.

Lemma sort_sorted l : Sorted R (sort le l).
Proof.
  induction l as [|x l IH]; simpl; [constructor | now apply insert_sorted].
Qed.
End SortFacts.

Lemma by_last_used_sorted l : Sorted older_or_same (sort by_last_used l).
Proof.
  apply sort_sorted; unfold by_last_used, older_or_same; intros a b H.
  - now apply Z.leb_le.
  - apply Z.leb_gt in H. lia.
Qed.

Lemma sum_from l : forall a, fold_left Z.add l a = a + fold_left Z.add l 0.
Proof.
  induction l as [|x l IH]; intros a; simpl; [lia|].
  rewrite (IH (a + x)), (IH x). lia.
Qed.

Lemma sum_cons x l : sum (x :: l) = x + sum l.
Proof. unfold sum. simpl. apply sum_from. Qed.

Lemma freed_cons E d l :
  freed E (d :: l) = (if deleted E d then cd_size d else 0) + freed E l.
Proof.
  unfold freed. simpl. destruct (deleted E d); simpl; [apply sum_cons | reflexivity].
Qed.

Lemma remove_cache_run E oldest total s :
  exists s',
    remove_cache E oldest total s
    = (Return (total - (if deleted E oldest then cd_size oldest else 0)), s')
    /\ cache_root s'
       = (if deleted E oldest
          then option_map (filter (fun e => negb (String.eqb (entry_name e) (cd_path oldest))))
                          (cache_root s)
          else cache_root s)
    /\ models s' = models s /\ max_disk_cache_bytes s' = max_disk_cache_bytes s.
Proof.
  unfold remove_cache, deleted, is_None, is_Some, try_except, bind, logger, modify,
    effect, ret.
  destruct (rmtree E (cd_path oldest)); simpl; eexists;
    (split; [apply f_equal2; [f_equal; lia | reflexivity] | repeat split]).
Qed.

Lemma filter_filter {A} (f g : A -> bool) l :
  filter g (filter f l) = filter (fun x => f x && g x) l.
Proof.
  induction l as [|x l IH]; simpl; [reflexivity|].
  destruct (f x); simpl; [destruct (g x); now rewrite IH | exact IH].
Qed.

Lemma filter_ext' {A} (f g : A -> bool) l :
  (forall x, f x = g x) -> filter f l = filter g l.
Proof. intros H. induction l as [|x l IH]; simpl; [reflexivity|]. now rewrite H, IH. Qed.

Lemma disk_loop_cons E quota d dirs total s :
  disk_loop E quota (d :: dirs) total s
  = if 9 * quota <? 10 * total
    then match remove_cache E d total s with
         | (Return total', s') => disk_loop E quota dirs total' s'
         | (Raise e, s') => (Raise e, s')
         end
    else (Return (d :: dirs, total), s).
Proof. cbn [disk_loop]. destruct (9 * quota <? 10 * total); reflexivity. Qed.

Lemma disk_loop_run E quota dirs :
  forall total s,
  exists attempted kept s',
    disk_loop E quota dirs total s = (Return (kept, total - freed E attempted), s')
    /\ dirs = (attempted ++ kept)%list
    /\ (forall pre x post,
          attempted = (pre ++ x :: post)%list ->
          9 * quota < 10 * (total - freed E pre))
    /\ (kept = [] \/ 10 * (total - freed E attempted) <= 9 * quota)
    /\ cache_root s' = option_map (filter (survives E attempted)) (cache_root s).
Proof.
  induction dirs as [|d dirs IH]; intros total s.
  - exists [], [], s. change (freed E []) with 0. rewrite Z.sub_0_r.
    simpl. repeat split; auto.
    + intros [|? ?] ? ? H; discriminate H.
    + destruct (cache_root s) as [l|]; simpl; [|reflexivity].
      f_equal. induction l as [|e l IHl]; simpl; [reflexivity | now rewrite <- IHl].
  - rewrite disk_loop_cons. destruct (9 * quota <? 10 * total) eqn:C.
    + destruct (remove_cache_run E d total s) as (s1 & Hr & Hc & _).
      rewrite Hr.
      destruct (IH (total - (if deleted E d then cd_size d else 0)) s1)
        as (att & kept & s' & Hl & Hd & Hw & Hs & Hc').
      exists (d :: att), kept, s'. rewrite freed_cons.
      split.
      { rewrite Hl.
        replace (total - (if deleted E d then cd_size d else 0) - freed E att)
          with (total - ((if deleted E d then cd_size d else 0) + freed E att)) by lia.
        reflexivity. }
      split; [simpl; now rewrite Hd|].
      split; [|split].
      * intros [|y pre] x post H; simpl in H; inversion H; subst.
        -- change (freed E []) with 0. rewrite Z.sub_0_r. now apply Z.ltb_lt.
        -- rewrite freed_cons.
           specialize (Hw pre x post eq_refl). lia.
      * destruct Hs as [Hs|Hs]; [now left | right; lia].
      * rewrite Hc', Hc. unfold survives. simpl.
        destruct (cache_root s) as [l|]; destruct (deleted E d); simpl; try reflexivity.
        -- f_equal. rewrite filter_filter. apply filter_ext'. intros e.
           destruct (String.eqb (entry_name e) (cd_path d)); reflexivity.
    + exists [], (d :: dirs), s. change (freed E []) with 0. rewrite Z.sub_0_r.
      apply Z.ltb_ge in C.
      split; [reflexivity|]. split; [reflexivity|].
      split; [intros [|? ?] ? ? H; discriminate H|].
      split; [right; exact C|]. simpl.
      destruct (cache_root s) as [l|]; simpl; [|reflexivity].
      f_equal. induction l as [|e l IHl]; simpl; [reflexivity | now rewrite <- IHl].
Qed.

Lemma cleanup_disk_cache_state E s entries :
  cache_root s = Some entries ->
  snd (_cleanup_disk_cache E s)
  = snd (disk_loop E (max_disk_cache_bytes s) (sorted_dirs entries)
                   (scanned_size entries) s).
Proof.
  intros H. unfold _cleanup_disk_cache. rewrite bind_run. unfold get at 1.
  cbv beta iota. rewrite H. rewrite bind_run.
  fold (sorted_dirs entries). fold (scanned_size entries).
  destruct (disk_loop_run E (max_disk_cache_bytes s) (sorted_dirs entries)
              (scanned_size entries) s) as (att & kept & s' & Hl & _).
  rewrite Hl. reflexivity.
Qed.

(** C4. The disk sweep sorts the scanned subtrees by last access time,
    oldest first, and works through a prefix of that list: each removal is
    attempted only while the accounted size exceeds 90% of the quota, and
    the loop ends as soon as the accounted size is at or below it (or no
    subtree is left). The accounted size goes down by the size of a
    subtree only when its removal succeeded; a subtree whose removal
    failed stays in the cache, where the next sweep finds it. With
    subtrees of 5, 3 and 2 GB, the 5 GB one the oldest, and a quota of
    8 GB, exactly the 5 GB subtree is removed. *)
Theorem disk_sweep_policy E s entries :
  cache_root s = Some entries ->
  exists attempted kept total' s',
    disk_loop E (max_disk_cache_bytes s) (sorted_dirs entries) (scanned_size entries) s
    = (Return (kept, total'), s')
    /\ snd (_cleanup_disk_cache E s) = s'
    /\ Sorted older_or_same (sorted_dirs entries)
    /\ Permutation (scan entries) (sorted_dirs entries)
    /\ sorted_dirs entries = (attempted ++ kept)%list
    /\ (forall pre x post,
          attempted = (pre ++ x :: post)%list ->
          9 * max_disk_cache_bytes s < 10 * (scanned_size entries - freed E pre))
    /\ total' = scanned_size entries - freed E attempted
    /\ (kept = [] \/ 10 * total' <= 9 * max_disk_cache_bytes s)
    /\ cache_root s' = Some (filter (survives E attempted) entries)
    /\ (forall x e,
          In x attempted -> deleted E x = false ->
          In e entries -> entry_name e = cd_path x ->
          In e (filter (survives E attempted) entries))
    /\ cache_root (snd (_cleanup_disk_cache cpu_host with_cache))
       = Some [cache_2; cache_3].
Proof.
  intros H.
  destruct (disk_loop_run E (max_disk_cache_bytes s) (sorted_dirs entries)
              (scanned_size entries) s) as (att & kept & s' & Hl & Hd & Hw & Hs & Hc).
  exists att, kept, (scanned_size entries - freed E att), s'.
  split; [exact Hl|].
  split; [rewrite (cleanup_disk_cache_state E s entries H), Hl; reflexivity|].
  split; [apply by_last_used_sorted|].
  split; [apply sort_perm|].
  split; [exact Hd|]. split; [exact Hw|]. split; [reflexivity|].
  split; [exact Hs|].
  split; [rewrite Hc, H; reflexivity|].
  split; [|reflexivity].
  intros x e Hx Hf He Hn. apply filter_In. split; [exact He|].
  unfold survives. apply negb_true_iff.
  destruct (existsb _ att) eqn:X; [|reflexivity].
  apply existsb_exists in X. destruct X as (d & _ & Hd').
  apply andb_true_iff in Hd'. destruct Hd' as [D N].
  apply String.eqb_eq in N. unfold deleted in *. rewrite <- N, Hn, Hf in D.
  discriminate D.
Qed.

Lemma disk_sweep_policy_witness :
  exists attempted kept total' s',
    disk_loop locked_host (max_disk_cache_bytes with_cache)
              (sorted_dirs [cache_2; cache_5; cache_3])
              (scanned_size [cache_2; cache_5; cache_3]) with_cache
    = (Return (kept, total'), s')
    /\ snd (_cleanup_disk_cache locked_host with_cache) = s'
    /\ Sorted older_or_same (sorted_dirs [cache_2; cache_5; cache_3])
    /\ Permutation (scan [cache_2; cache_5; cache_3])
                   (sorted_dirs [cache_2; cache_5; cache_3])
    /\ sorted_dirs [cache_2; cache_5; cache_3] = (attempted ++ kept)%list
    /\ (forall pre x post,
          attempted = (pre ++ x :: post)%list ->
          9 * max_disk_cache_bytes with_cache
          < 10 * (scanned_size [cache_2; cache_5; cache_3] - freed locked_host pre))
    /\ total' = scanned_size [cache_2; cache_5; cache_3] - freed locked_host attempted
    /\ (kept = [] \/ 10 * total' <= 9 * max_disk_cache_bytes with_cache)
    /\ cache_root s'
       = Some (filter (survives locked_host attempted) [cache_2; cache_5; cache_3])
    /\ (forall x e,
          In x attempted -> deleted locked_host x = false ->
          In e [cache_2; cache_5; cache_3] -> entry_name e = cd_path x ->
          In e (filter (survives locked_host attempted) [cache_2; cache_5; cache_3]))
    /\ cache_root (snd (_cleanup_disk_cache cpu_host with_cache))
       = Some [cache_2; cache_3].
Proof.
  apply (disk_sweep_policy locked_host with_cache [cache_2; cache_5; cache_3]).
  reflexivity.
Defined.

(** When the 5 GB subtree cannot be removed, its size stays in the
    accounted total, the 3 GB subtree is removed next, and the 5 GB subtree
    is still there for the next sweep, which tries it again. *)
Example disk_sweep_retries :
  cache_root (snd (_cleanup_disk_cache locked_host with_cache))
  = Some [cache_2; cache_5]
  /\ In (ERROR, Msg "Failed to remove models--five: Permission denied")
        (log (snd (_cleanup_disk_cache locked_host
                     (snd (_cleanup_disk_cache locked_host with_cache))))).
Proof. split; [reflexivity|]. vm_compute. auto. Qed.

(** ** C3: the memory sweep *)

(** Three resident models under a limit of two, last used at
    [t1 < t2 < t3], no CUDA device. When the default model is the least
    recently used, the sweep evicts nothing; when another model is, the
    sweep evicts exactly that one. *)
Lemma cleanup_models_by_age t1 t2 t3 :
  t1 < t2 < t3 ->
  loaded_ids (models (snd (_cleanup_models cpu_host (three_loaded t1 t2 t3))))
  = [DEFAULT_MODEL; FALLBACK_MODEL; EXTRA_MODEL]
  /\ loaded_ids (models (snd (_cleanup_models cpu_host (three_loaded t2 t1 t3))))
     = [DEFAULT_MODEL; EXTRA_MODEL]
  /\ loaded_ids (models (snd (_cleanup_models cpu_host (three_loaded t3 t2 t1))))
     = [DEFAULT_MODEL; FALLBACK_MODEL].
Proof.
  intros [H12 H23].
  assert (A : forall a b, a < b ->
              tuple_le (a, 0) (b, 0) = true /\ tuple_le (b, 0) (a, 0) = false).
  { intros a b Hab. unfold tuple_le. simpl.
    assert ((a <? b) = true) by (apply Z.ltb_lt; lia).
    assert ((b <? a) = false) by (apply Z.ltb_ge; lia).
    assert ((b =? a) = false) by (apply Z.eqb_neq; lia).
    rewrite H, H0, H1. auto. }
  destruct (A t1 t2 H12) as [A12 A21].
  destruct (A t2 t3 H23) as [A23 A32].
  assert (H13 : t1 < t3) by lia.
  destruct (A t1 t3 H13) as [A13 A31].
  assert (S1 : forall r l, r = models (three_loaded t1 t2 t3) ->
            l = [DEFAULT_MODEL; FALLBACK_MODEL; EXTRA_MODEL] ->
            sort (by_age r) l
            = [DEFAULT_MODEL; FALLBACK_MODEL; EXTRA_MODEL]).
  { intros r l -> ->. unfold by_age, field.
    repeat (cbn -[tuple_le]; rewrite ?A12, ?A21, ?A23, ?A32, ?A13, ?A31).
    reflexivity. }
  assert (S2 : forall r l, r = models (three_loaded t2 t1 t3) ->
            l = [DEFAULT_MODEL; FALLBACK_MODEL; EXTRA_MODEL] ->
            sort (by_age r) l
            = [FALLBACK_MODEL; DEFAULT_MODEL; EXTRA_MODEL]).
  { intros r l -> ->. unfold by_age, field.
    repeat (cbn -[tuple_le]; rewrite ?A12, ?A21, ?A23, ?A32, ?A13, ?A31).
    reflexivity. }
  assert (S3 : forall r l, r = models (three_loaded t3 t2 t1) ->
            l = [DEFAULT_MODEL; FALLBACK_MODEL; EXTRA_MODEL] ->
            sort (by_age r) l
            = [EXTRA_MODEL; FALLBACK_MODEL; DEFAULT_MODEL]).
  { intros r l -> ->. unfold by_age, field.
    repeat (cbn -[tuple_le]; rewrite ?A12, ?A21, ?A23, ?A32, ?A13, ?A31).
    reflexivity. }
  unfold _cleanup_models, count_sweep, bind, get_models, get.
  repeat split.
  - cbn -[sort by_age]. erewrite S1 by reflexivity. reflexivity.
  - cbn -[sort by_age]. erewrite S2 by reflexivity. reflexivity.
  - cbn -[sort by_age]. erewrite S3 by reflexivity. reflexivity.
Qed.

(** C3, at the inputs on which the code evicts nothing. Three models are
    resident under a limit of two, last used at 10, 20 and 30, the default
    model the oldest: the sweep announces that it unloads one model, skips
    the default model and ends; all three stay resident. The same on the
    shipped catalogue under a limit of one, in a state that the servicer
    reaches: both models stay resident. *)
Theorem cleanup_models_skips_default_without_replacement :
  loaded_ids (models (three_loaded 10 20 30))
  = [DEFAULT_MODEL; FALLBACK_MODEL; EXTRA_MODEL]
  /\ max_models_in_memory (three_loaded 10 20 30) = 2
  /\ loaded_ids (models (snd (_cleanup_models cpu_host (three_loaded 10 20 30))))
     = [DEFAULT_MODEL; FALLBACK_MODEL; EXTRA_MODEL]
  /\ log (snd (_cleanup_models cpu_host (three_loaded 10 20 30)))
     = [(INFO, Msg "Unloading 1 models to maintain memory limit of 2")]
  /\ reachable crowded
  /\ max_models_in_memory crowded = 1
  /\ loaded_ids (models (snd (_cleanup_models uniform_host crowded)))
     = [DEFAULT_MODEL; FALLBACK_MODEL].
Proof.
  repeat split.
  apply (reach_step
           (snd (_get_model_info FALLBACK_MODEL 6
                   (snd (run_loader uniform_host DEFAULT_MODEL 5
                           (snd (__init__ (fresh uniform_host 1 (10 * GB) Absent None)))))))).
  - apply (reach_step
             (snd (run_loader uniform_host DEFAULT_MODEL 5
                     (snd (__init__ (fresh uniform_host 1 (10 * GB) Absent None)))))).
    + apply (reach_step (snd (__init__ (fresh uniform_host 1 (10 * GB) Absent None)))).
      * apply reach_init.
      * apply step_loader. left. reflexivity.
    + apply step_get_model_info.
  - apply step_loader. left. reflexivity.
Qed.

(** * Further properties of the code

    Properties of the request handlers, the registry, the sweeps and the
    metadata store that hold of the code as it is. *)

(** ** Request validation *)

Lemma rstrip_empty s : rstrip s = EmptyString <-> blank s = true.
Proof.
  induction s as [|c s IH]; simpl; [tauto|].
  destruct (rstrip s) eqn:Rs.
  - assert (B : blank s = true) by now apply IH.
    rewrite B, andb_true_r.
    destruct (isspace c); split; intros H; try reflexivity; discriminate H.
  - assert (B : blank s = false).
    { destruct (blank s); [|reflexivity]. destruct IH as [_ IH]. discriminate (IH eq_refl). }
    rewrite B, andb_false_r. split; intros H; discriminate H.
Qed.

Lemma blank_lstrip s : blank (lstrip s) = blank s.
Proof.
  induction s as [|c s IH]; simpl; [reflexivity|].
  destruct (isspace c) eqn:C; simpl; [exact IH|].
  now rewrite C.
Qed.

Lemma strip_empty s : (String.length (strip s) =? 0)%nat = blank s.
Proof.
  unfold strip. rewrite <- (blank_lstrip s).
  destruct (rstrip_empty (lstrip s)) as [H1 H2].
  destruct (rstrip (lstrip s)) eqn:Rs; simpl.
  - symmetry. now apply H1.
  - destruct (blank (lstrip s)); [discriminate (H2 eq_refl) | reflexivity].
Qed.

Lemma blank_empty s : String.length s = 0%nat -> blank s = true.
Proof. destruct s; [reflexivity | discriminate]. Qed.


Lemma accepted_settings request st :
  fst (_validate_image_request request) = true ->
  settings request = Some st -> acceptable st.
Proof.
  unfold _validate_image_request, acceptable. intros V S. rewrite S in V.
  repeat match type of V with
         | context [if ?c then _ else _] => destruct c eqn:?; try discriminate V
         end.
  repeat match goal with
         | H : _ || _ = false |- _ => apply orb_false_iff in H; destruct H
         | H : negb _ = false |- _ => apply negb_false_iff in H
         | H : (_ <? _) = false |- _ => apply Z.ltb_ge in H
         | H : Qle_bool _ _ = true |- _ => apply Qle_bool_iff in H
         end.
  repeat split; assumption.
Qed.


(** ** Generation *)

Lemma Qmax'_bounds a : (1 # 1 <= Qmax' a (1 # 1))%Q
  /\ ((a <= 20 # 1)%Q -> (Qmax' a (1 # 1) <= 20 # 1)%Q).
Proof.
  unfold Qmax'. destruct (Qle_bool (1 # 1) a) eqn:C.
  - apply Qle_bool_iff in C. auto.
  - split; [apply Qle_refl | intros _; discriminate].
Qed.

Lemma Qmin'_bound a : (Qmin' a (20 # 1) <= 20 # 1)%Q.
Proof.
  unfold Qmin'. destruct (Qle_bool a (20 # 1)) eqn:C.
  - now apply Qle_bool_iff in C.
  - apply Qle_refl.
Qed.

Lemma generate_image_run E pipe prompt st n s :
  exists c,
    _generate_image E pipe prompt st n s
    = (match pipe_call E c with None => Return c | Some e => Raise e end,
       with_pipe_calls (pipe_calls s ++ [c]) s)
    /\ within_limits c
    /\ gen_pipe c = pipe /\ gen_prompt c = prompt /\ gen_num_images c = n
    /\ (acceptable st -> c = mkGenCall pipe prompt (width st) (height st) (steps st)
                              (guidance_scale st)
                              (if seed st =? -1 then randint E else seed st) n)
    /\ (st = no_settings -> c = mkGenCall pipe prompt 512 512 25 (75 # 10) 0 n).
Proof.
  unfold _generate_image, bind, modify, effect, ret.
  match goal with |- context [pipe_call E ?c] => exists c end. split.
  { match goal with |- context [pipe_call E ?c] => destruct (pipe_call E c) end;
      reflexivity. }
  split.
  { unfold within_limits, MIN_IMAGE_SIZE, MAX_IMAGE_SIZE, MAX_STEPS. simpl.
    repeat split; try lia.
    - apply Qmax'_bounds.
    - apply Qmax'_bounds, Qmin'_bound. }
  split; [reflexivity|]. split; [reflexivity|]. split; [reflexivity|]. split.
  - unfold acceptable, MIN_IMAGE_SIZE, MAX_IMAGE_SIZE, MAX_STEPS, or_Z, or_Q, Qmin', Qmax'.
    intros (Hw & Hh & Hs & G1 & G2).
    assert ((width st =? 0) = false) as -> by (apply Z.eqb_neq; lia).
    assert ((height st =? 0) = false) as -> by (apply Z.eqb_neq; lia).
    assert ((steps st =? 0) = false) as -> by (apply Z.eqb_neq; lia).
    assert (Qeq_bool (guidance_scale st) 0 = false) as ->.
    { destruct (Qeq_bool (guidance_scale st) 0) eqn:C; [|reflexivity].
      apply Qeq_bool_iff in C. rewrite C in G1. unfold Qle in G1. simpl in G1. lia. }
    apply Qle_bool_iff in G1, G2. rewrite G2, G1.
    f_equal; lia.
  - intros ->. reflexivity.
Qed.

(** X3. The settings of a request that [_validate_image_request] accepts
    reach the pipeline as they are: [_generate_image] calls it with the
    requested width, height, steps and guidance scale, and with the
    requested seed unless that is -1. *)
Theorem accepted_settings_are_used_as_given E request st pipe s :
  fst (_validate_image_request request) = true ->
  settings request = Some st ->
  pipe_calls (snd (_generate_image E pipe (prompt request) st 1 s))
  = (pipe_calls s ++ [call_of E pipe (prompt request) st])%list.
Proof.
  intros V S.
  pose proof (accepted_settings request st V S) as A.
  destruct (generate_image_run E pipe (prompt request) st 1 s) as (c & Hr & _ & _ & _ & _ & Hc & _).
  rewrite Hr, (Hc A). reflexivity.
Qed.

Lemma accepted_settings_are_used_as_given_witness :
  pipe_calls (snd (_generate_image uniform_host (sd_pipeline DEFAULT_MODEL 64)
                     (prompt fox) (mkImageSettings 512 768 30 (7 # 1) 42) 1 serving))
  = (pipe_calls serving
       ++ [call_of uniform_host (sd_pipeline DEFAULT_MODEL 64) (prompt fox)
                   (mkImageSettings 512 768 30 (7 # 1) 42)])%list.
Proof.
  apply (accepted_settings_are_used_as_given uniform_host fox); reflexivity.
Defined.

Lemma get_model_info_run id now s m :
  lookup id (models s) = Some m ->
  _get_model_info id now s
  = if loaded m || loading m
    then (Return (Some (set_last_used now m)), write id (set_last_used now) s)
    else (Return (Some (set_loading true (set_last_used now m))),
          with_loaders (loaders s ++ [id])
            (write id (set_loading true) (write id (set_last_used now) s))).
Proof.
  intros L.
  unfold _get_model_info, _load_model, start_loader, mutate, modify, when, bind, ret,
    get_models, write.
  rewrite L. simpl.
  destruct (loaded m) eqn:Ld; destruct (loading m) eqn:Lg; simpl;
    rewrite ?lookup_update, ?String.eqb_refl, ?L; simpl;
    rewrite ?Ld, ?Lg; simpl;
    rewrite ?lookup_update, ?String.eqb_refl, ?L; reflexivity.
Qed.

Lemma get_model_info_unknown id now s :
  lookup id (models s) = None -> _get_model_info id now s = (Return None, s).
Proof.
  intros L. unfold _get_model_info, bind, get_models, ret. now rewrite L.
Qed.

(** ** The handler [GenerateImage] *)

Lemma GenerateImage_invalid E R request now now' s :
  fst (_validate_image_request request) = false ->
  GenerateImage E R request now now' s
  = (Return (Failed (uuid4 R)
               ("Invalid request: " ++ snd (_validate_image_request request))), s).
Proof.
  intros V. unfold GenerateImage, try_except.
  destruct (_validate_image_request request) as [ok msg]. simpl in V. subst ok.
  reflexivity.
Qed.

Lemma GenerateImage_unknown E R request now now' s :
  fst (_validate_image_request request) = true ->
  lookup (requested request) (models s) = None ->
  GenerateImage E R request now now' s
  = (Return (Failed (uuid4 R)
               ("Model " ++ requested request ++ " is not available or failed to load")),
     s).
Proof.
  intros V L. unfold GenerateImage, try_except.
  destruct (_validate_image_request request) as [ok msg]. simpl in V. subst ok.
  change (negb true) with false. cbv beta iota. rewrite bind_run.
  fold (requested request). rewrite (get_model_info_unknown _ now s L). reflexivity.
Qed.

Lemma GenerateImage_not_resident E R request now now' s m :
  fst (_validate_image_request request) = true ->
  lookup (requested request) (models s) = Some m ->
  resident m = false ->
  GenerateImage E R request now now' s
  = (Return (Failed (uuid4 R)
               ("Model " ++ requested request ++ " is not available or failed to load")),
     snd (_get_model_info (requested request) now s)).
Proof.
  intros V L Rm. unfold GenerateImage, try_except.
  destruct (_validate_image_request request) as [ok msg]. simpl in V. subst ok.
  change (negb true) with false. cbv beta iota. rewrite bind_run.
  fold (requested request). rewrite (get_model_info_run _ now s m L).
  unfold resident in Rm.
  destruct (loaded m) eqn:Ld; simpl in *.
  - rewrite Ld. simpl. destruct (pipeline m); [discriminate Rm | reflexivity].
  - destruct (loading m) eqn:Lg; simpl; rewrite Ld; reflexivity.
Qed.

Lemma GenerateImage_resident E R request now now' s m pipe :
  fst (_validate_image_request request) = true ->
  lookup (requested request) (models s) = Some m ->
  loaded m = true -> pipeline m = Some pipe ->
  exists c,
    let s1 := with_pipe_calls (pipe_calls s ++ [c])
                (write (requested request) (set_last_used now')
                   (write (requested request) (set_last_used now) s)) in
    GenerateImage E R request now now' s
    = match (match pipe_call E c with Some e => Some e | None => image_save R c end) with
      | None =>
          (Return (Generated (uuid4 R) c "image/png" (requested request) (gen_seed c)), s1)
      | Some e =>
          (Return (Failed (uuid4 R) ("Image generation failed: " ++ e)),
           write (requested request) (fun m => set_error_count (error_count m + 1) m)
             (with_log (log s ++ [(ERROR, Msg "Error in GenerateImage")]) s1))
      end
    /\ within_limits c /\ gen_pipe c = pipe /\ gen_prompt c = prompt request
    /\ gen_num_images c = 1
    /\ (forall st, settings request = Some st -> c = call_of E pipe (prompt request) st)
    /\ (settings request = None ->
        c = mkGenCall pipe (prompt request) 512 512 25 (75 # 10) 0 1).
Proof.
  intros V L Ld Pm.
  pose proof (fun st => accepted_settings request st V) as Acc.
  set (st := match settings request with Some st => st | None => no_settings end).
  set (s0 := write (requested request) (set_last_used now')
               (write (requested request) (set_last_used now) s)).
  destruct (generate_image_run E pipe (prompt request) st 1 s0)
    as (c & Hr & Hl & Hp & Hq & Hn & Hacc & Hdef).
  exists c. cbv zeta. split.
  - unfold GenerateImage, try_except.
    destruct (_validate_image_request request) as [ok msg]. simpl in V. subst ok.
    change (negb true) with false. cbv beta iota. rewrite bind_run.
    fold (requested request). rewrite (get_model_info_run _ now s m L).
    rewrite Ld. simpl orb. cbv beta iota.
    change (loaded (set_last_used now m)) with (loaded m).
    change (pipeline (set_last_used now m)) with (pipeline m).
    rewrite Ld, Pm. simpl.
    rewrite bind_run. unfold attempt, try_except. rewrite !bind_run.
    unfold touch at 1, mutate at 1, modify at 1. cbv beta iota.
    change (with_models _ (write (requested request) (set_last_used now) s)) with s0.
    rewrite bind_run. fold st. rewrite Hr.
    unfold on_generation_error, count_error, mutate, logger, modify, effect, bind, ret, write.
    destruct (pipe_call E c) as [e|]; [reflexivity|].
    destruct (image_save R c) as [e|]; reflexivity.
  - repeat split; try apply Hl; auto.
    + intros st' Hs. subst st. rewrite Hs in Hacc. apply Hacc, Acc, Hs.
    + intros Hs. subst st. rewrite Hs in Hdef. now apply Hdef.
Qed.

Lemma get_model_info_pipe_calls id now s :
  pipe_calls (snd (_get_model_info id now s)) = pipe_calls s.
Proof.
  destruct (lookup id (models s)) as [m|] eqn:L.
  - rewrite (get_model_info_run id now s m L). destruct (loaded m || loading m); reflexivity.
  - now rewrite (get_model_info_unknown id now s L).
Qed.


Lemma prefix_app p s : String.prefix p (p ++ s) = true.
Proof.
  induction p as [|a p IH]; simpl; [now destruct s|].
  destruct (ascii_dec a a) as [_|N]; [exact IH | now elim N].
Qed.

Lemma generation_failed_image rid e :
  generation_failed (Failed rid ("Image generation failed: " ++ e)) = true.
Proof. apply prefix_app. Qed.









(** ** The registry *)

Lemma keys_reachable s :
  reachable s -> keys (models s) = [DEFAULT_MODEL; FALLBACK_MODEL].
Proof.
  apply (inv_reachable (fun s => keys (models s) = [DEFAULT_MODEL; FALLBACK_MODEL])
           (fun _ => True)); try (intros; exact I);
    try (intros; unfold write; simpl; rewrite keys_update; assumption).
  - intros s0 s1 Hm _ H. now rewrite Hm.
  - intros k s0 H. exact H.
  - reflexivity.
Qed.

Lemma config_reachable (P : string -> ModelConfig -> Prop) s :
  P DEFAULT_MODEL SD21 -> P FALLBACK_MODEL SD15 ->
  reachable s -> all_models (fun k m => P k (config m)) s.
Proof.
  intros P1 P2.
  apply (inv_reachable (all_models (fun k m => P k (config m))) (fun _ => True));
    try (intros; exact I);
    try (intros; apply all_models_write; [intros ? Hx; exact Hx | assumption]).
  - unfold all_models. intros s0 s1 Hm _ H. now rewrite Hm.
  - intros k s0 H. exact H.
  - intros. repeat constructor; simpl; assumption.
Qed.

(** X9. The registry is the catalogue for the whole life of the
    servicer: in every state it reaches, the registered ids are the two
    ids of [model_configs], in that order, and every entry holds the
    configuration of its id. No method adds, removes or reconfigures a
    model. *)
Theorem registry_is_the_catalogue s :
  reachable s ->
  keys (models s) = map model_id model_configs
  /\ forall id m, lookup id (models s) = Some m ->
       model_id (config m) = id /\ In (config m) model_configs.
Proof.
  intros H. split; [exact (keys_reachable s H)|].
  intros id m L.
  assert (A : all_models (fun k m => model_id (config m) = k /\ In (config m) model_configs) s).
  { apply (config_reachable (fun k c => model_id c = k /\ In c model_configs)); auto.
    - split; [reflexivity | left; reflexivity].
    - split; [reflexivity | right; left; reflexivity]. }
  unfold all_models in A. rewrite Forall_forall in A.
  exact (A (id, m) (lookup_In id m (models s) L)).
Qed.

Lemma registry_is_the_catalogue_witness :
  keys (models crowded) = map model_id model_configs
  /\ forall id m, lookup id (models crowded) = Some m ->
       model_id (config m) = id /\ In (config m) model_configs.
Proof.
  apply (registry_is_the_catalogue crowded).
  apply (reach_step
           (snd (_get_model_info FALLBACK_MODEL 6
                   (snd (run_loader uniform_host DEFAULT_MODEL 5
                           (snd (__init__ (fresh uniform_host 1 (10 * GB) Absent None)))))))).
  - apply (reach_step
             (snd (run_loader uniform_host DEFAULT_MODEL 5
                     (snd (__init__ (fresh uniform_host 1 (10 * GB) Absent None)))))).
    + apply (reach_step (snd (__init__ (fresh uniform_host 1 (10 * GB) Absent None)))).
      * apply reach_init.
      * apply step_loader. left. reflexivity.
    + apply step_get_model_info.
  - apply step_loader. left. reflexivity.
Defined.

(** ** The load task, for invariants that depend on what it installs *)

Section LoadTask.
Variable I : Servicer -> Prop.
Variable E : Engine.
Variable k : string.
Variable cfg : ModelConfig.
Hypothesis H_frame : forall s s',
  models s' = models s -> loaders s' = loaders s -> I s -> I s'.
Hypothesis H_success : forall pipe now s,
  fst (_validate_model pipe cfg) = true ->
  I s ->
  I (write k (fun m =>
       set_last_used now
         (set_load_count (load_count m + 1)
            (set_loading false (set_loaded true (set_pipeline (Some pipe) m))))) s).
Hypothesis H_failure : forall msg s,
  I s ->
  I (write k (fun m =>
       set_error_count (error_count m + 1)
         (set_loading false (set_load_error (Some msg) m))) s).
Hypothesis H_memory_usage : forall n s, I s -> I (write k (set_memory_usage n) s).
Hypothesis H_fallback : k = DEFAULT_MODEL -> preserves I (_load_model FALLBACK_MODEL).

Lemma task_commit now p : preserves I (commit E k cfg now p).
Proof.
  unfold commit. destruct (_validate_model p cfg) as [ok err] eqn:V.
  destruct ok; simpl; [|apply preserves_raise].
  apply preserves_bind; [apply inv_warmup_model, H_frame|]. intros [wok werr].
  apply preserves_bind; [apply preserves_when, inv_logger, H_frame|]. intros _.
  apply preserves_bind; [intros s H; apply H_success; [now rewrite V | exact H]|].
  intros _. apply preserves_bind.
  { apply preserves_when, preserves_bind; [apply preserves_lift|].
    intros n. intros s H; apply H_memory_usage, H. }
  intros _. apply preserves_bind; [apply inv_logger, H_frame|]. intros; apply preserves_ret.
Qed.

Lemma task_record_failure msg : preserves I (record_failure k msg).
Proof.
  unfold record_failure. apply preserves_bind; [apply inv_logger, H_frame|]. intros _.
  intros s H; now apply H_failure.
Qed.

Lemma task_on_failure b e : preserves I (on_failure E k b e).
Proof.
  unfold on_failure. apply preserves_bind.
  { apply preserves_when, preserves_when, preserves_effect. }
  intros _.
  assert (G : preserves I
                (bind (record_failure k ("Failed to load model " ++ k ++ ": " ++ e))
                      (fun _ => ret (@None bool)))).
  { apply preserves_bind; [apply task_record_failure|]. intros; apply preserves_ret. }
  destruct (contains _ e); [|exact G].
  apply preserves_bind; [apply inv_logger, H_frame|]. intros _.
  destruct (String.eqb k _) eqn:K; [|exact G].
  apply String.eqb_eq in K.
  apply preserves_bind; [exact (H_fallback K)|]. intros; apply preserves_ret.
Qed.

Lemma task_load now s m :
  lookup k (models s) = Some m -> config m = cfg -> I s -> I (snd (_load E k now s)).
Proof.
  intros L C. unfold _load. rewrite bind_run. unfold get_models at 1. cbv beta iota.
  rewrite L, C. apply preserves_try_except.
  - apply preserves_bind; [apply inv_logger, H_frame|]. intros _.
    apply preserves_bind; [apply preserves_effect|]. intros _.
    apply preserves_bind; [apply preserves_attempt, inv_construct, H_frame|].
    intros [pipe|e]; [|apply task_on_failure].
    apply preserves_try_except; [|intros; apply task_on_failure].
    unfold finish. apply preserves_bind; [apply inv_ready, H_frame|].
    intros; apply task_commit.
  - intros e. unfold on_unexpected.
    apply preserves_bind; [apply task_record_failure|]. intros; apply preserves_ret.
Qed.
End LoadTask.

(** One step keeps an invariant that the loader thread and the other
    writes keep. *)
Lemma step_invariant (I : Servicer -> Prop) :
  (forall s s', models s' = models s -> loaders s' = loaders s -> I s -> I s') ->
  (forall k s m,
     lookup k (models s) = Some m -> loaded m = false -> loading m = false ->
     I s -> I (with_loaders (loaders s ++ [k]) (write k (set_loading true) s))) ->
  (forall k s, I s -> I (write k (fun m => set_loaded false (set_pipeline None m)) s)) ->
  (forall k t s, I s -> I (write k (set_last_used t) s)) ->
  (forall k s, I s -> I (write k (fun m => set_error_count (error_count m + 1) m) s)) ->
  (forall E k now s, In k (loaders s) -> I s -> I (snd (run_loader E k now s))) ->
  forall s s', step s s' -> I s -> I s'.
Proof.
  intros Hf Hs Hu Ht He Hl s s' St H. destruct St.
  - now apply inv_load_model.
  - now apply inv_unload_model.
  - now apply inv_get_model_info.
  - apply Ht, H.
  - apply He, H.
  - now apply inv_generate_image.
  - now apply Hl.
  - now apply inv_cleanup_models.
  - now apply inv_save_cache_metadata.
  - now apply inv_cleanup_disk_cache.
  - now apply inv_stop.
Qed.

(** ** Loader threads *)

Lemma NoDup_snoc {A} (x : A) l : NoDup l -> ~ In x l -> NoDup (l ++ [x]).
Proof.
  induction 1 as [|y l Hy Hl IH]; simpl; intros Hx.
  - constructor; [intros [] | constructor].
  - constructor.
    + rewrite in_app_iff. simpl. intros [H|[H|[]]]; [now apply Hy | subst; auto].
    + apply IH. auto.
Qed.

Lemma remove_first_NoDup k l :
  NoDup l -> NoDup (remove_first k l) /\ ~ In k (remove_first k l).
Proof.
  induction 1 as [|y l Hy Hl IH]; simpl; [split; [constructor | intros []]|].
  destruct (String.eqb k y) eqn:K.
  - apply String.eqb_eq in K. subst y. auto.
  - apply String.eqb_neq in K. destruct IH as [IH1 IH2]. split.
    + constructor; [|exact IH1]. intros H. apply Hy. now apply In_remove_first in H.
    + simpl. intros [H|H]; [now apply K | now apply IH2].
Qed.

Lemma loaders_but_write k k' f s :
  (k' = k \/ forall m, loading (f m) = loading m) ->
  loaders_but k s -> loaders_but k (write k' f s).
Proof.
  intros Hk [ND H]. split; [exact ND|]. simpl. intros id Hi Hn.
  destruct (H id Hi Hn) as (m & L & Lg). rewrite lookup_update, L.
  destruct (String.eqb id k') eqn:K; [|eauto].
  apply String.eqb_eq in K. subst k'. destruct Hk as [Hk|Hk]; [congruence|].
  simpl. eexists. split; [reflexivity|]. now rewrite Hk.
Qed.

Lemma loaders_but_started k k' s m :
  k' <> k ->
  lookup k' (models s) = Some m -> loading m = false ->
  loaders_but k s ->
  loaders_but k (with_loaders (loaders s ++ [k']) (write k' (set_loading true) s)).
Proof.
  intros Hk L Lg [ND H]. split; simpl.
  - apply NoDup_snoc; [exact ND|]. intros Hi.
    destruct (H k' Hi Hk) as (m' & L' & Lg'). congruence.
  - intros id Hi Hn. rewrite lookup_update.
    destruct (String.eqb id k') eqn:K.
    + apply String.eqb_eq in K. subst k'. rewrite L. simpl. eauto.
    + apply String.eqb_neq in K. apply in_app_iff in Hi.
      destruct Hi as [Hi|[Hi|[]]]; [now apply H | congruence].
Qed.

Lemma loaders_but_load_model k id : id <> k -> preserves (loaders_but k) (_load_model id).
Proof.
  intros Hk s H. unfold _load_model, bind, get_models, logger, mutate, start_loader,
    modify, ret.
  destruct (lookup id (models s)) as [m|] eqn:L; simpl.
  - destruct (loaded m); [exact H|].
    destruct (loading m) eqn:Lg; [exact H|]. simpl.
    exact (loaders_but_started k id s m Hk L Lg H).
  - destruct H as [ND H]. split; [exact ND | exact H].
Qed.

Lemma one_loader_each_but k s : one_loader_each s -> loaders_but k s.
Proof. intros [ND H]. split; [exact ND|]. intros id Hi _. now apply H. Qed.

Lemma load_returns E id now s : exists o, fst (_load E id now s) = Return o.
Proof.
  destruct (lookup id (models s)) as [m|] eqn:L.
  - pose proof (load_task_outcome E id now s m L) as H.
    destruct (_load E id now s) as [[o|e] s1]; [simpl; eauto | destruct H].
  - unfold _load, bind, get_models, ret. rewrite L. simpl. eauto.
Qed.

Lemma run_loader_state E id now s :
  snd (run_loader E id now s)
  = with_loaders (remove_first id (loaders (snd (_load E id now s))))
                 (snd (_load E id now s)).
Proof.
  unfold run_loader. rewrite bind_run.
  destruct (load_returns E id now s) as (o & Ho).
  destruct (_load E id now s) as [o' s1]. simpl in Ho. subst o'. reflexivity.
Qed.

Lemma one_loader_each_loader E k now s :
  In k (loaders s) -> one_loader_each s -> one_loader_each (snd (run_loader E k now s)).
Proof.
  intros Hi J. destruct (proj2 J k Hi) as (m & L & Lg).
  assert (B : loaders_but k (snd (_load E k now s))).
  { apply (task_load (loaders_but k) E k (config m)) with (m := m); auto.
    - unfold loaders_but. intros s0 s1 Hm Hl. now rewrite Hm, Hl.
    - intros; apply loaders_but_write; auto.
    - intros; apply loaders_but_write; auto.
    - intros; apply loaders_but_write; auto.
    - intros K. apply loaders_but_load_model. rewrite K. discriminate.
    - now apply one_loader_each_but. }
  rewrite run_loader_state. destruct B as [ND H].
  destruct (remove_first_NoDup k _ ND) as [ND' Hk].
  split; simpl; [exact ND'|].
  intros id Hid. apply H; [now apply In_remove_first in Hid|].
  intros ->. now apply Hk.
Qed.

Lemma one_loader_each_write k f s :
  (forall m, loading (f m) = loading m) ->
  one_loader_each s -> one_loader_each (write k f s).
Proof.
  intros Hf [ND H]. split; [exact ND|]. simpl. intros id Hi.
  destruct (H id Hi) as (m & L & Lg). rewrite lookup_update, L.
  destruct (String.eqb id k); [|eauto].
  simpl. eexists. split; [reflexivity|]. now rewrite Hf.
Qed.

Lemma one_loader_each_frame s s' :
  models s' = models s -> loaders s' = loaders s -> one_loader_each s -> one_loader_each s'.
Proof. unfold one_loader_each. intros Hm Hl. now rewrite Hm, Hl. Qed.

Lemma one_loader_each_started k s m :
  lookup k (models s) = Some m -> loaded m = false -> loading m = false ->
  one_loader_each s ->
  one_loader_each (with_loaders (loaders s ++ [k]) (write k (set_loading true) s)).
Proof.
  intros L _ Lg [ND H]. split; simpl.
  - apply NoDup_snoc; [exact ND|]. intros Hi.
    destruct (H k Hi) as (m' & L' & Lg'). congruence.
  - intros id Hi. rewrite lookup_update.
    destruct (String.eqb id k) eqn:K.
    + apply String.eqb_eq in K. subst k. rewrite L. simpl. eauto.
    + apply String.eqb_neq in K. apply in_app_iff in Hi.
      destruct Hi as [Hi|[Hi|[]]]; [now apply H | congruence].
Qed.



Lemma ask_while_loading id times :
  forall s m,
    lookup id (models s) = Some m -> loading m = true ->
    fst (ask id times s) = Return tt
    /\ loaders (snd (ask id times s)) = loaders s
    /\ exists m', lookup id (models (snd (ask id times s))) = Some m'
                  /\ loading m' = true /\ loaded m' = loaded m.
Proof.
  unfold ask. induction times as [|t times IH]; intros s m L Lg.
  - simpl. split; [reflexivity|]. split; [reflexivity|]. eauto.
  - rewrite for_each_cons, bind_run, (get_model_info_run id t s m L), Lg, orb_true_r.
    cbv beta iota.
    destruct (IH (write id (set_last_used t) s) (set_last_used t m)) as (Hr & Hl & Hm).
    + simpl. now rewrite lookup_update, String.eqb_refl, L.
    + exact Lg.
    + exact (conj Hr (conj Hl Hm)).
Qed.

(** X11. However many requests for a model arrive while it is not
    loaded, one loader is started: the first request for a model that is
    neither loaded nor loading starts its loader, and the requests that
    follow while the model is loading start none. *)
Theorem repeated_requests_start_one_loader id now times s m :
  lookup id (models s) = Some m -> loaded m = false -> loading m = false ->
  fst (ask id (now :: times) s) = Return tt
  /\ loaders (snd (ask id (now :: times) s)) = (loaders s ++ [id])%list
  /\ exists m', lookup id (models (snd (ask id (now :: times) s))) = Some m'
                /\ loading m' = true /\ loaded m' = false.
Proof.
  intros L Ld Lg. unfold ask.
  rewrite for_each_cons, bind_run, (get_model_info_run id now s m L), Ld, Lg.
  cbv beta iota. simpl orb. cbv iota.
  destruct (ask_while_loading id times
              (with_loaders (loaders s ++ [id])
                 (write id (set_loading true) (write id (set_last_used now) s)))
              (set_loading true (set_last_used now m))) as (Hr & Hl & m' & Hm & Hg & Hd).
  - simpl. now rewrite !lookup_update, String.eqb_refl, L.
  - reflexivity.
  - unfold ask in *. split; [exact Hr|]. split; [exact Hl|].
    exists m'. simpl in Hd. rewrite Ld in Hd. auto.
Qed.

Lemma repeated_requests_start_one_loader_witness :
  fst (ask FALLBACK_MODEL [6; 7; 8] serving) = Return tt
  /\ loaders (snd (ask FALLBACK_MODEL [6; 7; 8] serving))
     = (loaders serving ++ [FALLBACK_MODEL])%list
  /\ exists m', lookup FALLBACK_MODEL (models (snd (ask FALLBACK_MODEL [6; 7; 8] serving)))
                = Some m'
                /\ loading m' = true /\ loaded m' = false.
Proof.
  apply (repeated_requests_start_one_loader FALLBACK_MODEL 6 [7; 8] serving
           (new_ModelInfo SD15)); reflexivity.
Defined.

(** ** What a model holds *)

Lemma validated_write P k f s :
  (forall m, P m -> P (f m)) ->
  all_models (fun _ => P) s -> all_models (fun _ => P) (write k f s).
Proof. intros Hf H. apply Forall_update; auto. Qed.

Lemma validated_loader E k now s :
  all_models (fun _ => pipeline_validated) s ->
  all_models (fun _ => pipeline_validated) (snd (run_loader E k now s)).
Proof.
  intros H. rewrite run_loader_state.
  change (all_models (fun _ => pipeline_validated) (snd (_load E k now s))).
  destruct (lookup k (models s)) as [m|] eqn:L.
  2:{ unfold _load, bind, get_models, ret. rewrite L. exact H. }
  assert (W : forall (f : ModelInfo -> ModelInfo) k' s0 cfg,
             (forall m0, config (f m0) = config m0) ->
             (exists m0, lookup k (models s0) = Some m0 /\ config m0 = cfg) ->
             exists m0, lookup k (models (write k' f s0)) = Some m0 /\ config m0 = cfg).
  { intros f k' s0 cfg Hf (m0 & L0 & C0). simpl. rewrite lookup_update, L0.
    destruct (String.eqb k k'); simpl; eexists; (split; [reflexivity|]);
      rewrite ?Hf; exact C0. }
  apply (task_load
           (fun s => all_models (fun _ => pipeline_validated) s
                     /\ exists m0, lookup k (models s) = Some m0 /\ config m0 = config m)
           E k (config m)) with (m := m) (now := now); auto.
  - unfold all_models. intros s0 s1 Hm _. now rewrite Hm.
  - intros pipe t s0 V [A B]. split; [|apply W; auto].
    destruct B as (m0 & L0 & C0).
    apply Forall_update; [exact A|].
    intros m1 L1 _ p Hp. simpl in L1. rewrite L0 in L1. inversion L1; subst m1.
    simpl in Hp. inversion Hp; subst p. simpl. now rewrite C0.
  - intros msg s0 [A B]. split; [|apply W; auto].
    apply validated_write; [|exact A]. intros m0 H0 p Hp. exact (H0 p Hp).
  - intros n s0 [A B]. split; [|apply W; auto].
    apply validated_write; [|exact A]. intros m0 H0 p Hp. exact (H0 p Hp).
  - intros _. apply inv_load_model.
    + unfold all_models. intros s0 s1 Hm _. now rewrite Hm.
    + intros k' s0 m0 L0 _ _ [A B]. split; [|apply (W (set_loading true)); auto].
      apply (validated_write _ k' (set_loading true) s0); [|exact A].
      intros m1 H1 p Hp. exact (H1 p Hp).
  - split; [exact H | eauto].
Qed.

Lemma validated_reachable s :
  reachable s -> all_models (fun _ => pipeline_validated) s.
Proof.
  assert (F : forall s0 s1, models s1 = models s0 -> loaders s1 = loaders s0 ->
              all_models (fun _ => pipeline_validated) s0 ->
              all_models (fun _ => pipeline_validated) s1).
  { unfold all_models. intros s0 s1 Hm _. now rewrite Hm. }
  assert (S : forall k s0 m,
              lookup k (models s0) = Some m -> loaded m = false -> loading m = false ->
              all_models (fun _ => pipeline_validated) s0 ->
              all_models (fun _ => pipeline_validated)
                (with_loaders (loaders s0 ++ [k]) (write k (set_loading true) s0))).
  { intros k s0 m _ _ _ A. apply (validated_write _ k (set_loading true) s0); [|exact A].
    intros m1 H1 p Hp. exact (H1 p Hp). }
  induction 1 as [E mm md file root | s s' _ IH Hs].
  - apply inv_init; [exact F | exact S | |].
    + intros; apply validated_write; [|assumption]. intros m1 H1 p Hp. exact (H1 p Hp).
    + repeat constructor; intros p Hp; discriminate Hp.
  - revert Hs IH. apply step_invariant; [exact F | exact S | | | |].
    + intros; apply validated_write; [|assumption]. intros m1 H1 p Hp. discriminate Hp.
    + intros; apply validated_write; [|assumption]. intros m1 H1 p Hp. exact (H1 p Hp).
    + intros; apply validated_write; [|assumption]. intros m1 H1 p Hp. exact (H1 p Hp).
    + intros; now apply validated_loader.
Qed.

(** X12. A model never holds a pipeline that has not passed
    [_validate_model] against the configuration of that model: in every
    state that the servicer reaches, the pipeline of a model, if it has
    one, is accepted by [_validate_model], so it has its UNet, its text
    encoder and its VAE. *)
Theorem installed_pipelines_are_validated s id m p :
  reachable s -> lookup id (models s) = Some m -> pipeline m = Some p ->
  fst (_validate_model p (config m)) = true
  /\ has_unet p = true /\ has_text_encoder p = true /\ has_vae p = true.
Proof.
  intros H L Pm.
  pose proof (validated_reachable s H) as A.
  unfold all_models in A. rewrite Forall_forall in A.
  pose proof (A (id, m) (lookup_In id m (models s) L) p Pm) as V. simpl in V.
  split; [exact V|]. unfold _validate_model in V.
  destruct (has_unet p); destruct (has_text_encoder p); destruct (has_vae p);
    simpl in V; try discriminate V; auto.
Qed.

Lemma installed_pipelines_are_validated_witness :
  fst (_validate_model (sd_pipeline FALLBACK_MODEL 64) (config (resident_model SD15 7))) = true
  /\ has_unet (sd_pipeline FALLBACK_MODEL 64) = true
  /\ has_text_encoder (sd_pipeline FALLBACK_MODEL 64) = true
  /\ has_vae (sd_pipeline FALLBACK_MODEL 64) = true.
Proof.
  apply (installed_pipelines_are_validated crowded FALLBACK_MODEL (resident_model SD15 7)
           (sd_pipeline FALLBACK_MODEL 64)); [|reflexivity|reflexivity].
  apply (reach_step
           (snd (_get_model_info FALLBACK_MODEL 6
                   (snd (run_loader uniform_host DEFAULT_MODEL 5
                           (snd (__init__ (fresh uniform_host 1 (10 * GB) Absent None)))))))).
  - apply (reach_step
             (snd (run_loader uniform_host DEFAULT_MODEL 5
                     (snd (__init__ (fresh uniform_host 1 (10 * GB) Absent None)))))).
    + apply (reach_step (snd (__init__ (fresh uniform_host 1 (10 * GB) Absent None)))).
      * apply reach_init.
      * apply step_loader. left. reflexivity.
    + apply step_get_model_info.
  - apply step_loader. left. reflexivity.
Defined.

(** ** The load task: bookkeeping *)

Lemma load_installs E id now s m p :
  lookup id (models s) = Some m ->
  validated E id (device s) = Return p ->
  fst (_validate_model p (config m)) = true ->
  (String.prefix "cuda" (DEFAULT_DEVICE E) && cuda_is_available E = true ->
   exists n, cuda_memory_allocated E 0 = Return n) ->
  exists m',
    lookup id (models (snd (_load E id now s))) = Some m'
    /\ loaded m' = true /\ pipeline m' = Some p.
Proof.
  intros L V W C.
  destruct (load_validated E id now s m p L V) as (s1 & Eq & Hm & _).
  rewrite Eq. clear Eq. rewrite <- Hm in L. clear Hm V.
  destruct (_validate_model p (config m)) as [ok err] eqn:Hv. simpl in W. subst ok.
  run_commit. rewrite Hv. simpl. rewrite warmup_model_run.
  destruct (String.prefix "cuda" (DEFAULT_DEVICE E) && cuda_is_available E) eqn:Cu;
    [destruct (C eq_refl) as (n & Hn); rewrite Hn|];
    destruct (pipe_call E (warmup_call p)); simpl;
    rewrite ?lookup_update, ?String.eqb_refl, ?L; simpl;
    eexists; repeat split.
Qed.

(** X13. A load whose pipeline passes validation ends with the model
    loaded and holding that pipeline, not loading, [load_count] one
    higher and [last_used] at the time of the load; [error_count] and a
    [load_error] recorded by an earlier failure are left as they were. On
    a CUDA device [memory_usage] becomes the reading of the memory in
    use. The task returns nothing and starts no loader. *)
Theorem load_success_bookkeeping E id now s m p :
  lookup id (models s) = Some m ->
  validated E id (device s) = Return p ->
  fst (_validate_model p (config m)) = true ->
  (String.prefix "cuda" (DEFAULT_DEVICE E) && cuda_is_available E = true ->
   exists n, cuda_memory_allocated E 0 = Return n) ->
  exists m',
    fst (_load E id now s) = Return None
    /\ lookup id (models (snd (_load E id now s))) = Some m'
    /\ loaded m' = true /\ loading m' = false /\ pipeline m' = Some p
    /\ load_count m' = load_count m + 1 /\ last_used m' = now
    /\ error_count m' = error_count m /\ load_error m' = load_error m
    /\ config m' = config m
    /\ memory_usage m'
       = (if String.prefix "cuda" (DEFAULT_DEVICE E) && cuda_is_available E
          then match cuda_memory_allocated E 0 with
               | Return n => n
               | Raise _ => memory_usage m
               end
          else memory_usage m)
    /\ loaders (snd (_load E id now s)) = loaders s.
Proof.
  intros L V W C.
  destruct (load_validated E id now s m p L V) as (s1 & Eq & Hm & _ & Hl).
  rewrite Eq. clear Eq. rewrite <- Hm in L. rewrite <- Hl. clear Hm Hl V.
  destruct (_validate_model p (config m)) as [ok err] eqn:Hv. simpl in W. subst ok.
  run_commit. rewrite Hv. simpl. rewrite warmup_model_run.
  destruct (String.prefix "cuda" (DEFAULT_DEVICE E) && cuda_is_available E) eqn:Cu.
  - destruct (C eq_refl) as (n & Hn). rewrite Hn.
    destruct (pipe_call E (warmup_call p)); simpl;
      rewrite ?lookup_update, ?String.eqb_refl, ?L; simpl;
      eexists; repeat split.
  - destruct (pipe_call E (warmup_call p)); simpl;
      rewrite ?lookup_update, ?String.eqb_refl, ?L; simpl;
      eexists; repeat split.
Qed.

Lemma load_success_bookkeeping_witness :
  exists m',
    fst (_load (cuda_host (fun _ => 3)) DEFAULT_MODEL 30 started) = Return None
    /\ lookup DEFAULT_MODEL
         (models (snd (_load (cuda_host (fun _ => 3)) DEFAULT_MODEL 30 started))) = Some m'
    /\ loaded m' = true /\ loading m' = false
    /\ pipeline m' = Some (sd_pipeline DEFAULT_MODEL 64)
    /\ load_count m' = load_count (set_loading true (new_ModelInfo SD21)) + 1
    /\ last_used m' = 30
    /\ error_count m' = error_count (set_loading true (new_ModelInfo SD21))
    /\ load_error m' = load_error (set_loading true (new_ModelInfo SD21))
    /\ config m' = config (set_loading true (new_ModelInfo SD21))
    /\ memory_usage m'
       = (if String.prefix "cuda" (DEFAULT_DEVICE (cuda_host (fun _ => 3)))
             && cuda_is_available (cuda_host (fun _ => 3))
          then match cuda_memory_allocated (cuda_host (fun _ => 3)) 0 with
               | Return n => n
               | Raise _ => memory_usage (set_loading true (new_ModelInfo SD21))
               end
          else memory_usage (set_loading true (new_ModelInfo SD21)))
    /\ loaders (snd (_load (cuda_host (fun _ => 3)) DEFAULT_MODEL 30 started))
       = loaders started.
Proof.
  apply (load_success_bookkeeping (cuda_host (fun _ => 3)) DEFAULT_MODEL 30 started
           (set_loading true (new_ModelInfo SD21)) (sd_pipeline DEFAULT_MODEL 64)).
  - reflexivity.
  - reflexivity.
  - reflexivity.
  - intros _. exists 3. reflexivity.
Defined.

(** X14. A load that raises before validation (creating the cache
    directory, downloading the weights in both variants, moving the
    pipeline to the device and then to the CPU, or configuring the
    scheduler) ends with the error recorded in a message that names the
    model, the model out of the loading phase and [error_count] one
    higher. The loaded flag, the pipeline and [load_count] are as before
    and no pipeline is called. The task itself returns normally. *)
Theorem load_failure_is_recorded E id now s m e :
  lookup id (models s) = Some m ->
  validated E id (device s) = Raise e ->
  contains "Unexpected UNet sample size" e = false ->
  exists m' msg,
    fst (_load E id now s) = Return None
    /\ lookup id (models (snd (_load E id now s))) = Some m'
    /\ load_error m' = Some msg /\ names msg id
    /\ loading m' = false /\ loaded m' = loaded m /\ pipeline m' = pipeline m
    /\ error_count m' = error_count m + 1 /\ load_count m' = load_count m
    /\ pipe_calls (snd (_load E id now s)) = pipe_calls s
    /\ loaders (snd (_load E id now s)) = loaders s.
Proof.
  intros L V C. unfold validated in V.
  remember (commit E id (config m) now) as K.
  unfold _load, finish, ready, construct, attempt, on_failure, on_unexpected,
    record_failure, mutate, logger, modify, when, effect,
    lift, try_except, bind, ret, raise, get, get_models.
  rewrite L.
  repeat (next_case_but K; simpl in *; pair_eq; try congruence).
  all: do 2 eexists; split; [reflexivity|]; split; [same_model L|]; simpl.
  all: split; [reflexivity|]; split; [|auto 10].
  all: first [ exists "Failed to load model "; eexists; reflexivity
             | exists "Unexpected error loading model "; eexists; reflexivity ].
Qed.

Lemma load_failure_is_recorded_witness :
  exists m' msg,
    fst (_load offline_host DEFAULT_MODEL 10 started) = Return None
    /\ lookup DEFAULT_MODEL (models (snd (_load offline_host DEFAULT_MODEL 10 started)))
       = Some m'
    /\ load_error m' = Some msg /\ names msg DEFAULT_MODEL
    /\ loading m' = false
    /\ loaded m' = loaded (set_loading true (new_ModelInfo SD21))
    /\ pipeline m' = pipeline (set_loading true (new_ModelInfo SD21))
    /\ error_count m' = error_count (set_loading true (new_ModelInfo SD21)) + 1
    /\ load_count m' = load_count (set_loading true (new_ModelInfo SD21))
    /\ pipe_calls (snd (_load offline_host DEFAULT_MODEL 10 started)) = pipe_calls started
    /\ loaders (snd (_load offline_host DEFAULT_MODEL 10 started)) = loaders started.
Proof.
  apply (load_failure_is_recorded offline_host DEFAULT_MODEL 10 started
           (set_loading true (new_ModelInfo SD21)) "Connection error"); reflexivity.
Defined.

(** X15. The writes of a successful load are not undone when the load
    fails afterwards: when the reading of the CUDA memory raises, the
    model has been marked loaded with its pipeline and counted as a load,
    and it stays so while the handler records the error and counts it.
    The model then serves requests and reports an error. *)
Theorem load_error_after_commit E id now s m p e :
  lookup id (models s) = Some m ->
  validated E id (device s) = Return p ->
  fst (_validate_model p (config m)) = true ->
  String.prefix "cuda" (DEFAULT_DEVICE E) && cuda_is_available E = true ->
  cuda_memory_allocated E 0 = Raise e ->
  contains "Unexpected UNet sample size" e = false ->
  exists m' msg,
    fst (_load E id now s) = Return None
    /\ lookup id (models (snd (_load E id now s))) = Some m'
    /\ loaded m' = true /\ pipeline m' = Some p /\ loading m' = false
    /\ load_count m' = load_count m + 1
    /\ load_error m' = Some msg /\ names msg id
    /\ error_count m' = error_count m + 1
    /\ String.prefix "error: " (status_of m') = true.
Proof.
  intros L V W Cu Hn C.
  destruct (load_validated E id now s m p L V) as (s1 & Eq & Hm & _ & Hl).
  rewrite Eq. clear Eq. rewrite <- Hm in L. clear Hm Hl V.
  destruct (_validate_model p (config m)) as [ok err] eqn:Hv. simpl in W. subst ok.
  apply andb_true_iff in Cu. destruct Cu as [Cd Ca].
  run_commit. rewrite Hv. simpl. rewrite warmup_model_run. rewrite Cd, Ca, Hn.
  repeat (next_case; simpl in *; pair_eq; try congruence).
  all: do 2 eexists; split; [reflexivity|]; split; [same_model L|]; simpl.
  all: repeat (split; [reflexivity|]).
  all: split; [|split; [reflexivity|]].
  all: first [ exists "Failed to load model "; eexists; reflexivity
             | exists "Unexpected error loading model "; eexists; reflexivity
             | idtac ].
  all: unfold status_of; simpl; destruct id; reflexivity.
Qed.

Lemma load_error_after_commit_witness :
  exists m' msg,
    fst (_load blind_cuda_host DEFAULT_MODEL 30 started) = Return None
    /\ lookup DEFAULT_MODEL (models (snd (_load blind_cuda_host DEFAULT_MODEL 30 started)))
       = Some m'
    /\ loaded m' = true /\ pipeline m' = Some (sd_pipeline DEFAULT_MODEL 64)
    /\ loading m' = false
    /\ load_count m' = load_count (set_loading true (new_ModelInfo SD21)) + 1
    /\ load_error m' = Some msg /\ names msg DEFAULT_MODEL
    /\ error_count m' = error_count (set_loading true (new_ModelInfo SD21)) + 1
    /\ String.prefix "error: " (status_of m') = true.
Proof.
  apply (load_error_after_commit blind_cuda_host DEFAULT_MODEL 30 started
           (set_loading true (new_ModelInfo SD21)) (sd_pipeline DEFAULT_MODEL 64)
           "CUDA error: unknown error"); reflexivity.
Defined.

(** ** Computations that never raise *)

Lemma returns_ret A (a : A) : returns (ret a).
Proof. intros s. now exists a. Qed.

Lemma returns_bind A B (c : M A) (k : A -> M B) :
  returns c -> (forall a, returns (k a)) -> returns (bind c k).
Proof.
  intros Hc Hk s. unfold bind. destruct (Hc s) as (a & Ha).
  destruct (c s) as [o s1]. simpl in Ha. subst o. apply Hk.
Qed.

Lemma returns_try_except A (c : M A) (h : string -> M A) :
  (forall e, returns (h e)) -> returns (try_except c h).
Proof.
  intros Hh s. unfold try_except. destruct (c s) as [[a|e] s1]; [now exists a | apply Hh].
Qed.

Lemma returns_attempt A (c : M A) : returns (attempt c).
Proof. apply returns_try_except. intros e. apply returns_ret. Qed.

Lemma returns_when b (c : M unit) : returns c -> returns (when b c).
Proof. intros Hc. destruct b; [exact Hc | apply returns_ret]. Qed.

Lemma returns_for_each A (l : list A) (body : A -> M bool) :
  (forall x, returns (body x)) -> returns (for_each l body).
Proof.
  intros Hb. induction l as [|x l IH]; simpl; [apply returns_ret|].
  apply returns_bind; [apply Hb|]. intros [|]; [apply returns_ret | exact IH].
Qed.

Lemma returns_modify f : returns (modify f).
Proof. intros s. now exists tt. Qed.

Lemma returns_logger l m : returns (logger l m).
Proof. apply returns_modify. Qed.

Lemma returns_get : returns get.
Proof. intros s. now exists s. Qed.

Lemma returns_get_models : returns get_models.
Proof. intros s. now exists (models s). Qed.

Lemma returns_unload_model E id : returns (_unload_model E id).
Proof. intros s. exists tt. apply unload_model_returns. Qed.

Lemma returns_unit (c : M unit) s : returns c -> fst (c s) = Return tt.
Proof. intros H. destruct (H s) as ([] & Ha). exact Ha. Qed.

(** A handler that is not needed. *)
Lemma try_except_returns A (c : M A) h s :
  returns c -> try_except c h s = c s.
Proof.
  intros H. unfold try_except. destruct (H s) as (a & Ha).
  destruct (c s) as [o s1]. simpl in Ha. now subst o.
Qed.

(** ** The memory sweep *)

Lemma returns_count_sweep E l : returns (count_sweep E l).
Proof.
  unfold count_sweep. apply returns_bind; [apply returns_get|]. intros s0.
  destruct (_ <? _); [|apply returns_ret].
  destruct (_ <=? _); [apply returns_ret|].
  apply returns_bind; [apply returns_logger|]. intros _.
  apply returns_bind; [|intros; apply returns_ret].
  apply returns_for_each. intros id.
  destruct (skip_default _ _); [apply returns_ret|].
  apply returns_bind; [apply returns_unload_model|]. intros _.
  apply returns_bind; [apply returns_get_models|]. intros; apply returns_ret.
Qed.

Lemma returns_conservative_cleanup E l e : returns (conservative_cleanup E l e).
Proof.
  unfold conservative_cleanup. apply returns_bind; [apply returns_logger|].
  intros _. apply returns_bind; [apply returns_get|]. intros s0.
  apply returns_when, returns_for_each. intros id.
  apply returns_bind; [apply returns_unload_model|]. intros _.
  apply returns_bind; [apply returns_get_models|]. intros; apply returns_ret.
Qed.

Lemma returns_cleanup_models E : returns (_cleanup_models E).
Proof.
  unfold _cleanup_models. apply returns_bind; [apply returns_get_models|].
  intros r. apply returns_bind; [apply returns_count_sweep|].
  intros [returned l]. destruct returned; [apply returns_ret|].
  apply returns_when, returns_bind; [apply returns_attempt|].
  intros [[total allocated]|e]; [|apply returns_conservative_cleanup].
  destruct (_ <? _); [|apply returns_ret].
  apply returns_bind; [apply returns_logger|]. intros _.
  apply returns_bind; [apply returns_get_models|]. intros r'.
  apply returns_try_except. intros; apply returns_conservative_cleanup.
Qed.

Lemma evicted_at_most_refl m : evicted_at_most m m.
Proof. unfold evicted_at_most. repeat split; auto. lia. Qed.

(** [s'] differs from [s0] in evictions and counted errors at most. *)
Lemma evicted_write s0 k f s :
  (forall m m', evicted_at_most m m' -> evicted_at_most m (f m')) ->
  (forall id m, lookup id (models s0) = Some m ->
     exists m', lookup id (models s) = Some m' /\ evicted_at_most m m') ->
  forall id m, lookup id (models s0) = Some m ->
    exists m', lookup id (models (write k f s)) = Some m' /\ evicted_at_most m m'.
Proof.
  intros Hf H id m L. destruct (H id m L) as (m' & L' & Ev).
  simpl. rewrite lookup_update, L'.
  destruct (String.eqb id k); simpl; eauto.
Qed.

(** X16. The memory sweep never raises, whatever the device does, and
    it does nothing to a model but evict it or count an error against it:
    after [_cleanup_models] every model is registered as before with the
    same configuration, loading flag, recorded error, [last_used],
    [load_count] and [memory_usage]; its pipeline and loaded flag are as
    before or cleared, and [error_count] has not gone down. The sweep
    never loads a model and never starts a loader. *)
Theorem cleanup_models_only_evicts E s :
  fst (_cleanup_models E s) = Return tt
  /\ loaders (snd (_cleanup_models E s)) = loaders s
  /\ forall id m, lookup id (models s) = Some m ->
       exists m', lookup id (models (snd (_cleanup_models E s))) = Some m'
                  /\ evicted_at_most m m'.
Proof.
  split; [apply returns_unit, returns_cleanup_models|].
  apply (inv_cleanup_models
           (fun s' => loaders s' = loaders s
                      /\ forall id m, lookup id (models s) = Some m ->
                           exists m', lookup id (models s') = Some m'
                                      /\ evicted_at_most m m')).
  - intros s0 s1 Hm Hl. now rewrite Hm, Hl.
  - intros k s0 [Hl H]. split; [exact Hl|]. apply evicted_write; [|exact H].
    unfold evicted_at_most. simpl. intros m m' Ev. tauto.
  - intros k s0 [Hl H]. split; [exact Hl|]. apply evicted_write; [|exact H].
    unfold evicted_at_most. simpl. intros m m' Ev. repeat split; try tauto. lia.
  - split; [reflexivity|]. intros id m L. exists m. split; [exact L|].
    apply evicted_at_most_refl.
Qed.

(** X17. The memory sweep leaves the servicer exactly as it is when no
    more models are resident than [max_models_in_memory] allows and the
    device gives no reason to evict: CUDA is not available, or the memory
    in use is at most 90% of the total. Nothing is evicted and nothing is
    logged. *)
Theorem cleanup_models_within_limits_is_noop E s :
  len (loaded_ids (models s)) <= max_models_in_memory s ->
  cuda_is_available E = false \/ no_pressure E ->
  _cleanup_models E s = (Return tt, s).
Proof.
  intros Hn Hc. unfold _cleanup_models, count_sweep. rewrite bind_run.
  unfold get_models at 1. cbv beta iota. rewrite !bind_run. unfold get at 1.
  cbv beta iota.
  assert ((max_models_in_memory s <? len (loaded_ids (models s))) = false) as ->
    by (apply Z.ltb_ge; exact Hn).
  unfold ret at 1. cbv beta iota.
  destruct (cuda_is_available E) eqn:Ca; [|reflexivity].
  destruct Hc as [Hc|(t & r & a & Ht & Hr & Ha & Hp)]; [discriminate Hc|].
  unfold when, attempt, cuda_readings, try_except, bind, lift, ret.
  rewrite Ht, Hr, Ha.
  assert ((9 * t <? 10 * a) = false) as -> by (apply Z.ltb_ge; lia).
  reflexivity.
Qed.

Lemma cleanup_models_within_limits_is_noop_witness :
  _cleanup_models (cuda_host (fun _ => 9)) both_loaded = (Return tt, both_loaded).
Proof.
  apply (cleanup_models_within_limits_is_noop (cuda_host (fun _ => 9)) both_loaded).
  - vm_compute. discriminate.
  - right. exists 10, 0, 9. repeat split. lia.
Defined.

(** A bind whose continuation may rely on what the first part returns. *)
Lemma preserves_bind_with {A B} (I : Servicer -> Prop) (Q : A -> Prop)
    (c : M A) (k : A -> M B) :
  (forall s a, fst (c s) = Return a -> Q a) ->
  preserves I c -> (forall a, Q a -> preserves I (k a)) -> preserves I (bind c k).
Proof.
  intros Hq Hc Hk s H. unfold bind.
  specialize (Hc s H). specialize (Hq s).
  destruct (c s) as [[a|e] s']; simpl in *; [|exact Hc].
  apply Hk; [now apply Hq | exact Hc].
Qed.

Lemma len_sort {A} (le : A -> A -> bool) l : len (sort le l) = len l.
Proof.
  unfold len. f_equal. symmetry. apply Permutation_length, sort_perm.
Qed.

Lemma count_sweep_list E l s a :
  fst (count_sweep E l s) = Return a -> len (snd a) = len l.
Proof.
  unfold count_sweep. rewrite bind_run. unfold get at 1. cbv beta iota.
  destruct (_ <? _); [|intros H; inversion H; reflexivity].
  destruct (_ <=? _); [intros H; inversion H; apply len_sort|].
  rewrite !bind_run. unfold logger at 1, modify at 1. cbv beta iota. rewrite bind_run.
  match goal with
  | |- context [for_each ?l ?b ?s] => destruct (for_each l b s) as [[[]|e] s1]
  end; intros H; inversion H. apply len_sort.
Qed.

Section SparesDefault.
Variable E : Engine.
Variable s0 : Servicer.

Lemma spares_unload id :
  String.eqb id DEFAULT_MODEL = false -> preserves (same_default s0) (_unload_model E id).
Proof.
  intros Hk s H. unfold same_default in *. rewrite unload_model_models, lookup_update.
  rewrite String.eqb_sym, Hk. exact H.
Qed.

Lemma spares_logger l m : preserves (same_default s0) (logger l m).
Proof. intros s H. exact H. Qed.

Lemma spares_count_sweep l :
  1 < len l -> preserves (same_default s0) (count_sweep E l).
Proof.
  intros Hl. unfold count_sweep. apply preserves_bind; [apply preserves_get|].
  intros s1. destruct (_ <? _); [|apply preserves_ret].
  destruct (_ <=? _); [apply preserves_ret|].
  apply preserves_bind; [apply spares_logger|]. intros _.
  apply preserves_bind; [|intros; apply preserves_ret].
  apply preserves_for_each. intros id. unfold skip_default. rewrite len_sort.
  assert ((1 <? len l) = true) as -> by (apply Z.ltb_lt; exact Hl).
  rewrite andb_true_r.
  destruct (String.eqb id DEFAULT_MODEL) eqn:K; [apply preserves_ret|].
  apply preserves_bind; [now apply spares_unload|]. intros _.
  apply preserves_bind; [apply preserves_get_models|]. intros; apply preserves_ret.
Qed.

Lemma spares_pressure_loop total all todo n :
  1 < len all -> preserves (same_default s0) (pressure_loop E total all todo n).
Proof.
  intros Hl. revert n. induction todo as [|id todo IH]; intros n; simpl.
  - apply preserves_ret.
  - unfold skip_default.
    assert ((1 <? len all) = true) as -> by (apply Z.ltb_lt; exact Hl).
    rewrite andb_true_r.
    destruct (String.eqb id DEFAULT_MODEL) eqn:K; [apply IH|].
    apply preserves_bind; [now apply spares_unload|]. intros _.
    apply preserves_bind; [apply preserves_effect|]. intros _.
    apply preserves_bind; [apply preserves_lift|]. intros a.
    destruct (_ <=? _); [apply preserves_ret | apply IH].
Qed.

Hypothesis quiet : cuda_quiet E.

Lemma returns_pressure_loop total all todo n :
  returns (pressure_loop E total all todo n).
Proof.
  destruct quiet as (Qe & _ & _ & Qa).
  revert n. induction todo as [|id todo IH]; intros n; simpl.
  - apply returns_ret.
  - destruct (skip_default _ _); [apply IH|].
    apply returns_bind; [apply returns_unload_model|]. intros _.
    apply returns_bind; [rewrite Qe; apply returns_ret|]. intros _.
    destruct (Qa n) as (a & Ha). rewrite Ha.
    apply returns_bind; [intros s; now exists a|]. intros a'.
    destruct (_ <=? _); [apply returns_ret | apply IH].
Qed.

Lemma spares_cuda_part l :
  1 < len l ->
  preserves (same_default s0)
    (bind (attempt (cuda_readings E)) (fun readings =>
       match readings with
       | Raise e => conservative_cleanup E l e
       | Return (total_mem, allocated) =>
           if 9 * total_mem <? 10 * allocated then
             bind (logger WARNING (MsgHighGpu allocated total_mem)) (fun _ =>
             bind get_models (fun r =>
               let loaded_models := sort (by_size_desc r) l in
               try_except
                 (pressure_loop E total_mem loaded_models loaded_models 1)
                 (conservative_cleanup E loaded_models)))
           else ret tt
       end)).
Proof.
  intros Hl. destruct quiet as (Qe & (t & Qt) & (r & Qr) & Qa).
  destruct (Qa 0%nat) as (a & Ha).
  assert (R : forall s, attempt (cuda_readings E) s = (Return (Return (t, a)), s)).
  { intros s. unfold attempt, cuda_readings, try_except, bind, lift, ret.
    now rewrite Qt, Qr, Ha. }
  intros s H. rewrite bind_run, R.
  destruct (9 * t <? 10 * a); [|exact H].
  rewrite bind_run. unfold logger at 1, modify at 1. cbv beta iota.
  rewrite bind_run. unfold get_models at 1. cbv beta iota zeta.
  rewrite try_except_returns by apply returns_pressure_loop.
  apply spares_pressure_loop; [now rewrite len_sort | exact H].
Qed.
End SparesDefault.

(** X18. A memory sweep that starts with two or more resident models
    never evicts the default model, neither to get under
    [max_models_in_memory] nor under memory pressure, even when every
    other model has been evicted and the pressure persists. This holds
    when CUDA is not available or no reading of the device raises (when
    one raises, the conservative clean-up spares the first model of the
    list instead). *)
Theorem cleanup_models_spares_default E s :
  1 < len (loaded_ids (models s)) ->
  cuda_is_available E = false \/ cuda_quiet E ->
  lookup DEFAULT_MODEL (models (snd (_cleanup_models E s)))
  = lookup DEFAULT_MODEL (models s).
Proof.
  intros Hl Hc. change (same_default s (snd (_cleanup_models E s))).
  unfold _cleanup_models. rewrite bind_run. unfold get_models at 1. cbv beta iota.
  assert (H : same_default s s) by reflexivity. revert H.
  apply (preserves_bind_with _ (fun a => len (snd a) = len (loaded_ids (models s)))).
  - intros s1 a Ha. exact (count_sweep_list E _ s1 a Ha).
  - now apply spares_count_sweep.
  - intros [returned l] Hq. simpl in Hq. destruct returned; [apply preserves_ret|].
    destruct (cuda_is_available E) eqn:Ca; [|apply preserves_ret].
    destruct Hc as [Hc|Hc]; [discriminate Hc|].
    apply spares_cuda_part; [exact Hc | now rewrite Hq].
Qed.

Lemma cleanup_models_spares_default_witness :
  lookup DEFAULT_MODEL (models (snd (_cleanup_models (cuda_host (fun _ => 10)) both_loaded)))
  = lookup DEFAULT_MODEL (models both_loaded).
Proof.
  apply (cleanup_models_spares_default (cuda_host (fun _ => 10)) both_loaded).
  - vm_compute. reflexivity.
  - right. split; [reflexivity|]. split; [exists 10; reflexivity|].
    split; [exists 0; reflexivity|]. intros n. exists 10. reflexivity.
Defined.

(** On that host the sweep finds all the memory in use, evicts the other
    model and ends with the pressure as it was. *)
Example cleanup_models_under_pressure :
  loaded_ids (models (snd (_cleanup_models (cuda_host (fun _ => 10)) both_loaded)))
  = [DEFAULT_MODEL].
Proof. reflexivity. Qed.

(** ** The disk sweep *)

Lemma NoDup_map_eq {A B} (f : A -> B) l a b :
  NoDup (map f l) -> In a l -> In b l -> f a = f b -> a = b.
Proof.
  induction l as [|x l IH]; simpl; intros ND Ha Hb Hf; [destruct Ha|].
  inversion ND as [|y l' Hx Hl]; subst.
  destruct Ha as [Ha|Ha]; destruct Hb as [Hb|Hb]; subst.
  - reflexivity.
  - exfalso. apply Hx. rewrite Hf. now apply in_map.
  - exfalso. apply Hx. rewrite <- Hf. now apply in_map.
  - now apply IH.
Qed.

Lemma In_scan d entries :
  In d (scan entries) ->
  exists e, In e entries /\ is_dir e = true /\ atime e = Some (cd_last_used d)
            /\ cd_path d = entry_name e /\ cd_size d = _get_disk_usage (files e).
Proof.
  unfold scan. rewrite in_flat_map. intros (e & He & Hd). exists e.
  destruct (is_dir e); simpl in Hd; [|destruct Hd].
  destruct (atime e) as [t|]; simpl in Hd; [|destruct Hd].
  destruct Hd as [Hd|[]]. subst d. simpl. auto.
Qed.

Lemma swept_entries E s entries :
  cache_root s = Some entries ->
  exists attempted kept,
    sorted_dirs entries = (attempted ++ kept)%list
    /\ swept E s = Some (filter (survives E attempted) entries)
    /\ (kept = []
        \/ 10 * (scanned_size entries - freed E attempted) <= 9 * max_disk_cache_bytes s).
Proof.
  intros H. unfold swept. rewrite (cleanup_disk_cache_state E s entries H).
  destruct (disk_loop_run E (max_disk_cache_bytes s) (sorted_dirs entries)
              (scanned_size entries) s) as (att & kept & s' & Hl & Hd & _ & Hs & Hc).
  exists att, kept. rewrite Hl. simpl. rewrite Hc, H. auto.
Qed.

(** X19. The disk sweep deletes nothing but directories of the cache
    root whose access time it could read: a plain file, and a directory
    whose access time cannot be read, are still there after the sweep,
    whatever their size and however far the cache is over its quota. *)
Theorem disk_sweep_spares_other_entries E s entries e :
  cache_root s = Some entries ->
  NoDup (map entry_name entries) ->
  In e entries ->
  is_dir e = false \/ atime e = None ->
  exists entries', swept E s = Some entries' /\ In e entries'.
Proof.
  intros H ND He Hk.
  destruct (swept_entries E s entries H) as (att & kept & Hd & Hs & _).
  rewrite Hs. eexists. split; [reflexivity|].
  apply filter_In. split; [exact He|].
  unfold survives. apply negb_true_iff.
  destruct (existsb _ att) eqn:X; [|reflexivity]. exfalso.
  apply existsb_exists in X. destruct X as (d & Hin & Hx).
  apply andb_true_iff in Hx. destruct Hx as [_ Hn]. apply String.eqb_eq in Hn.
  assert (Hsc : In d (scan entries)).
  { apply (Permutation_in d (Permutation_sym (sort_perm by_last_used (scan entries)))).
    fold (sorted_dirs entries). rewrite Hd. apply in_or_app. now left. }
  destruct (In_scan d entries Hsc) as (e' & He' & Hdir & Hat & Hp & _).
  assert (e = e').
  { apply (NoDup_map_eq entry_name entries); auto. congruence. }
  subst e'. destruct Hk as [Hk|Hk]; congruence.
Qed.

Lemma disk_sweep_spares_other_entries_witness :
  exists entries', swept cpu_host with_strays = Some entries' /\ In stray_file entries'.
Proof.
  apply (disk_sweep_spares_other_entries cpu_host with_strays
           [stray_file; cache_2; cache_5; sealed_dir; cache_3] stray_file).
  - reflexivity.
  - repeat constructor; simpl; intuition discriminate.
  - left. reflexivity.
  - left. reflexivity.
Defined.

(** With a plain file and an unreadable directory of 9 GB each beside
    the three cached models, the sweep accounts 10 GB only, removes the
    5 GB subtree and leaves the two alone. *)
Example disk_sweep_ignores_strays :
  swept cpu_host with_strays = Some [stray_file; cache_2; sealed_dir; cache_3].
Proof. reflexivity. Qed.

Lemma Permutation_filter' {A} (f : A -> bool) l l' :
  Permutation l l' -> Permutation (filter f l) (filter f l').
Proof.
  induction 1 as [|x l l' _ IH|x y l|l l' l'' _ IH1 _ IH2]; simpl.
  - constructor.
  - destruct (f x); [now constructor | exact IH].
  - destruct (f x); destruct (f y); try reflexivity. apply perm_swap.
  - now transitivity (filter f l').
Qed.

Lemma sum_perm l l' : Permutation l l' -> sum l = sum l'.
Proof.
  induction 1 as [|x l l' _ IH|x y l|l l' l'' _ IH1 _ IH2].
  - reflexivity.
  - rewrite !sum_cons. now rewrite IH.
  - rewrite !sum_cons. lia.
  - congruence.
Qed.

Lemma sum_app l l' : sum (l ++ l') = sum l + sum l'.
Proof.
  induction l as [|x l IH]; simpl.
  - change (sum []) with 0. lia.
  - rewrite !sum_cons, IH. lia.
Qed.

(** What is left of the scan when the subtrees of [l] that could be
    deleted are gone. *)
Lemma scan_survivors E l entries :
  scan (filter (survives E l) entries)
  = filter (fun d => negb (existsb (fun x => deleted E x
                                            && String.eqb (cd_path d) (cd_path x)) l))
           (scan entries).
Proof.
  induction entries as [|e entries IH]; simpl; [reflexivity|].
  unfold survives at 1.
  destruct (is_dir e) eqn:D; simpl.
  - destruct (atime e) as [t|] eqn:T; simpl.
    + destruct (existsb _ l) eqn:X; simpl; [exact IH|].
      rewrite D, T. simpl. now rewrite IH.
    + destruct (existsb _ l) eqn:X; simpl; [exact IH|].
      rewrite D, T. simpl. exact IH.
  - destruct (existsb _ l) eqn:X; simpl; [exact IH|].
    rewrite D. simpl. exact IH.
Qed.

Lemma scan_paths entries :
  NoDup (map entry_name entries) -> NoDup (map cd_path (scan entries)).
Proof.
  induction entries as [|e entries IH]; simpl; intros ND; [constructor|].
  inversion ND as [|x l Hx Hl]; subst.
  destruct (is_dir e); simpl; [|now apply IH].
  destruct (atime e) as [t|]; simpl; [|now apply IH].
  constructor; [|now apply IH].
  intros Hin. apply Hx. apply in_map_iff in Hin. destruct Hin as (d & Hp & Hd).
  destruct (In_scan d entries Hd) as (e' & He' & _ & _ & Hn & _).
  apply in_map_iff. exists e'. split; [congruence | exact He'].
Qed.

Lemma freed_all E l : removals_succeed E -> freed E l = sum (map cd_size l).
Proof.
  intros H. unfold freed. f_equal. f_equal.
  induction l as [|d l IH]; simpl; [reflexivity|].
  unfold deleted at 1, is_None. rewrite H. simpl. now rewrite IH.
Qed.

(** After a sweep in which every removal succeeded, the scan finds
    exactly the subtrees that the loop kept. *)
Lemma scan_after_sweep E entries attempted kept :
  removals_succeed E ->
  NoDup (map entry_name entries) ->
  sorted_dirs entries = (attempted ++ kept)%list ->
  Permutation (scan (filter (survives E attempted) entries)) kept.
Proof.
  intros HE ND Hd. rewrite scan_survivors.
  set (g := fun d => negb (existsb (fun x => deleted E x
                                             && String.eqb (cd_path d) (cd_path x))
                                   attempted)).
  assert (P : Permutation (scan entries) (attempted ++ kept)).
  { rewrite <- Hd. apply sort_perm. }
  rewrite (Permutation_filter' g _ _ P), filter_app.
  assert (NDp : NoDup (map cd_path (attempted ++ kept))).
  { apply (Permutation_NoDup (Permutation_map cd_path P)), scan_paths, ND. }
  assert (A : filter g attempted = []).
  { clear - HE. subst g. 
    assert (G : forall l, (forall d, In d l -> In d attempted) ->
                filter (fun d => negb (existsb (fun x => deleted E x
                                   && String.eqb (cd_path d) (cd_path x)) attempted)) l = []).
    { induction l as [|d l IH]; simpl; intros Hl; [reflexivity|].
      assert (X : existsb (fun x => deleted E x && String.eqb (cd_path d) (cd_path x))
                          attempted = true).
      { apply existsb_exists. exists d. split; [apply Hl; now left|].
        unfold deleted, is_None. rewrite HE, String.eqb_refl. reflexivity. }
      rewrite X. simpl. apply IH. intros d' Hd'. apply Hl. now right. }
    apply G. auto. }
  assert (K : filter g kept = kept).
  { clear - NDp. subst g.
    assert (G : forall l, (forall d, In d l -> In d kept) ->
                filter (fun d => negb (existsb (fun x => deleted E x
                                   && String.eqb (cd_path d) (cd_path x)) attempted)) l = l).
    { induction l as [|d l IH]; simpl; intros Hl; [reflexivity|].
      assert (X : existsb (fun x => deleted E x && String.eqb (cd_path d) (cd_path x))
                          attempted = false).
      { destruct (existsb _ attempted) eqn:X; [|reflexivity]. exfalso.
        apply existsb_exists in X. destruct X as (x & Hx & Hc).
        apply andb_true_iff in Hc. destruct Hc as [_ Hc]. apply String.eqb_eq in Hc.
        rewrite map_app in NDp.
        assert (Hk : In d kept) by (apply Hl; now left).
        clear - NDp Hx Hk Hc.
        induction attempted as [|a att IHa]; simpl in *; [destruct Hx|].
        inversion NDp as [|y l' Ha Hn]; subst.
        destruct Hx as [Hx|Hx]; [|now apply IHa].
        subst a. apply Ha. apply in_or_app. right. rewrite <- Hc. now apply in_map. }
      rewrite X. simpl. f_equal. apply IH. intros d' Hd'. apply Hl. now right. }
    apply G. auto. }
  rewrite A, K. reflexivity.
Qed.

Lemma disk_loop_quota E quota dirs :
  forall total s,
    max_disk_cache_bytes (snd (disk_loop E quota dirs total s)) = max_disk_cache_bytes s.
Proof.
  induction dirs as [|d dirs IH]; intros total s; [reflexivity|].
  rewrite disk_loop_cons. destruct (9 * quota <? 10 * total); [|reflexivity].
  destruct (remove_cache_run E d total s) as (s1 & Hr & _ & _ & Hq).
  rewrite Hr, IH. exact Hq.
Qed.

Lemma cleanup_disk_cache_noop E s entries :
  cache_root s = Some entries ->
  scan entries = [] \/ 10 * scanned_size entries <= 9 * max_disk_cache_bytes s ->
  _cleanup_disk_cache E s = (Return tt, s).
Proof.
  intros H Hk. unfold _cleanup_disk_cache. rewrite bind_run. unfold get at 1.
  cbv beta iota. rewrite H. rewrite bind_run.
  fold (sorted_dirs entries). fold (scanned_size entries).
  destruct (sorted_dirs entries) as [|d dirs] eqn:Sd; [reflexivity|].
  rewrite disk_loop_cons.
  destruct Hk as [Hk|Hk].
  - unfold sorted_dirs in Sd. rewrite Hk in Sd. discriminate Sd.
  - assert ((9 * max_disk_cache_bytes s <? 10 * scanned_size entries) = false) as ->
      by (apply Z.ltb_ge; exact Hk).
    reflexivity.
Qed.

(** X20. When every removal succeeds, a disk sweep leaves the cache at
    or below 90% of the quota, or without any subtree that it could
    remove, by the real sizes and not only by its own accounting; a second
    sweep right after it finds nothing to do and leaves the servicer as it
    is. *)
Theorem disk_sweep_settles E s entries :
  removals_succeed E ->
  cache_root s = Some entries ->
  NoDup (map entry_name entries) ->
  exists entries',
    swept E s = Some entries'
    /\ (scan entries' = []
        \/ 10 * scanned_size entries' <= 9 * max_disk_cache_bytes s)
    /\ _cleanup_disk_cache E (snd (_cleanup_disk_cache E s))
       = (Return tt, snd (_cleanup_disk_cache E s)).
Proof.
  intros HE H ND.
  destruct (swept_entries E s entries H) as (att & kept & Hd & Hs & Hk).
  pose proof (scan_after_sweep E entries att kept HE ND Hd) as P.
  exists (filter (survives E att) entries).
  assert (K : scan (filter (survives E att) entries) = []
              \/ 10 * scanned_size (filter (survives E att) entries)
                 <= 9 * max_disk_cache_bytes s).
  { destruct Hk as [Hk|Hk].
    - left. subst kept. now apply Permutation_nil, Permutation_sym.
    - right.
      assert (scanned_size (filter (survives E att) entries)
              = scanned_size entries - freed E att) as ->; [|exact Hk].
      unfold scanned_size at 1 2. rewrite Hd, map_app, sum_app, (freed_all E att HE).
      unfold sorted_dirs.
      rewrite <- (sum_perm _ _ (Permutation_map cd_size
                                  (sort_perm by_last_used
                                     (scan (filter (survives E att) entries))))).
      rewrite (sum_perm _ _ (Permutation_map cd_size P)). lia. }
  split; [exact Hs|]. split; [exact K|].
  apply (cleanup_disk_cache_noop E _ (filter (survives E att) entries)).
  - exact Hs.
  - rewrite (cleanup_disk_cache_state E s entries H), disk_loop_quota. exact K.
Qed.

Lemma disk_sweep_settles_witness :
  exists entries',
    swept cpu_host with_cache = Some entries'
    /\ (scan entries' = []
        \/ 10 * scanned_size entries' <= 9 * max_disk_cache_bytes with_cache)
    /\ _cleanup_disk_cache cpu_host (snd (_cleanup_disk_cache cpu_host with_cache))
       = (Return tt, snd (_cleanup_disk_cache cpu_host with_cache)).
Proof.
  apply (disk_sweep_settles cpu_host with_cache [cache_2; cache_5; cache_3]).
  - intros path. reflexivity.
  - reflexivity.
  - repeat constructor; simpl; intuition discriminate.
Defined.

(** ** Shutdown *)

(** X21. [stop] can raise only in its last statement: a failure to save
    the metadata or to release a pipeline is logged and the shutdown goes
    on; what [stop] raises, if anything, is the exception of the final
    [torch.cuda.empty_cache()], after every model has been dealt with. *)
Theorem stop_raises_only_at_the_end E s :
  fst (stop E s)
  = (if cuda_is_available E
     then match cuda_empty_cache E with
          | Some e => Raise e
          | None => Return tt
          end
     else Return tt).
Proof.
  unfold stop. rewrite bind_run.
  pose proof (save_cache_metadata_returns E s) as Hr.
  destruct (_save_cache_metadata E s) as [o s1] eqn:Hs. simpl in Hr. subst o.
  cbv beta iota. rewrite bind_run. unfold get_models at 1. cbv beta iota.
  rewrite bind_run.
  change (for_each (keys (models s1)) _ s1)
    with (for_each (keys (models s1)) (stop_body E) s1).
  pose proof (stop_loop_returns E (keys (models s1)) s1) as Hl.
  destruct (for_each (keys (models s1)) (stop_body E) s1) as [o s2] eqn:Hf.
  simpl in Hl. subst o. unfold when, effect, ret.
  destruct (cuda_is_available E); try destruct (cuda_empty_cache E); reflexivity.
Qed.

Lemma stop_keys E s : keys (models (snd (stop E s))) = keys (models s).
Proof.
  apply (inv_stop (fun s' => keys (models s') = keys (models s))).
  - intros s0 s1 Hm _ H. now rewrite Hm.
  - intros k s0 H. simpl. now rewrite keys_update.
  - intros k s0 H. simpl. now rewrite keys_update.
  - reflexivity.
Qed.

Lemma stop_lookup E s k :
  NoDup (keys (models s)) ->
  lookup k (models (snd (stop E s))) = option_map (stopped E) (lookup k (models s)).
Proof.
  intros ND. rewrite stop_state.
  pose proof (save_cache_metadata_models E s) as Hm.
  destruct (stop_loop_run E (keys (models (snd (_save_cache_metadata E s))))
              ltac:(rewrite Hm; exact ND) (snd (_save_cache_metadata E s)) k) as (Hl & _).
  rewrite Hl, Hm.
  destruct (lookup k (models s)) as [m|] eqn:L.
  - now rewrite (lookup_keys k _ m L).
  - destruct (existsb (String.eqb k) (keys (models s))); reflexivity.
Qed.

(** X22. Shutting down twice, as [serve] does when it ends on an error,
    is shutting down once: when no release raises, the first [stop]
    leaves no model resident, and a second [stop] changes no model. *)
Theorem stop_twice_is_stop E s :
  NoDup (keys (models s)) ->
  (forall id m p, lookup id (models s) = Some m -> resident m = true ->
                  pipeline m = Some p -> release_error E p = None) ->
  forall id,
    lookup id (models (snd (stop E (snd (stop E s)))))
    = lookup id (models (snd (stop E s)))
    /\ forall m', lookup id (models (snd (stop E s))) = Some m' -> resident m' = false.
Proof.
  intros ND HR id.
  assert (ND' : NoDup (keys (models (snd (stop E s))))) by (now rewrite stop_keys).
  rewrite (stop_lookup E _ id ND'), (stop_lookup E s id ND).
  destruct (lookup id (models s)) as [m|] eqn:L; simpl; [|split; [reflexivity | discriminate]].
  assert (Rs : resident (stopped E m) = false).
  { unfold stopped. destruct (resident m) eqn:Rm; [|exact Rm].
    unfold unloaded_or_counted. destruct (pipeline m) as [p|] eqn:Pm.
    - rewrite (HR id m p L Rm Pm). reflexivity.
    - unfold resident in Rm. rewrite Pm, andb_false_r in Rm. discriminate Rm. }
  split.
  - f_equal. unfold stopped at 1. now rewrite Rs.
  - intros m' Hm'. inversion Hm'; subst m'. exact Rs.
Qed.

Lemma stop_twice_is_stop_witness :
  lookup FALLBACK_MODEL (models (snd (stop uniform_host (snd (stop uniform_host crowded)))))
  = lookup FALLBACK_MODEL (models (snd (stop uniform_host crowded)))
  /\ forall m', lookup FALLBACK_MODEL (models (snd (stop uniform_host crowded))) = Some m' ->
                resident m' = false.
Proof.
  refine (stop_twice_is_stop uniform_host crowded _ _ FALLBACK_MODEL).
  - repeat constructor; simpl; intuition discriminate.
  - intros id m p _ _ _. unfold release_error. destruct (has_to p); reflexivity.
Defined.

(** ** The metadata store *)

Lemma returns_load_cache_metadata : returns _load_cache_metadata.
Proof.
  unfold _load_cache_metadata. apply returns_bind; [apply returns_get|]. intros s0.
  destruct (metadata_file s0); try apply returns_ret;
    apply returns_try_except; intros; apply returns_logger.
Qed.

Lemma load_cache_metadata_bad_file s :
  (forall d, metadata_file s <> Document d) ->
  models (snd (_load_cache_metadata s)) = models s.
Proof.
  intros H. unfold _load_cache_metadata. rewrite bind_run. unfold get at 1.
  cbv beta iota. destruct (metadata_file s) as [| |e|d] eqn:F; try reflexivity.
  now elim (H d).
Qed.


(** X24. Loading a metadata document restores the three counters of
    every registered model that has a record in it, a key that the record
    lacks reading as 0; a registered model without a record keeps its
    values, and a record for an id that is not registered is ignored. *)
Theorem load_cache_metadata_restores_counters s d id m :
  metadata_file s = Document d ->
  NoDup (map fst d) ->
  lookup id (models s) = Some m ->
  exists m',
    lookup id (models (snd (_load_cache_metadata s))) = Some m'
    /\ match doc_lookup id d with
       | Some rec =>
           last_used m' = get_or 0 (meta_last_used rec)
           /\ load_count m' = get_or 0 (meta_load_count rec)
           /\ error_count m' = get_or 0 (meta_error_count rec)
       | None => m' = m
       end.
Proof.
  intros F ND L. rewrite (load_cache_metadata_document s d F).
  destruct (load_loop_run d ND s) as (_ & Hm & _). rewrite Hm, L.
  destruct (doc_lookup id d) as [rec|]; simpl; eexists; (split; [reflexivity|]); auto.
Qed.

Lemma load_cache_metadata_restores_counters_witness :
  exists m',
    lookup DEFAULT_MODEL
      (models (snd (_load_cache_metadata
                      (with_metadata_file (Document partial_doc) serving)))) = Some m'
    /\ match doc_lookup DEFAULT_MODEL partial_doc with
       | Some rec =>
           last_used m' = get_or 0 (meta_last_used rec)
           /\ load_count m' = get_or 0 (meta_load_count rec)
           /\ error_count m' = get_or 0 (meta_error_count rec)
       | None => m' = served_model
       end.
Proof.
  apply (load_cache_metadata_restores_counters
           (with_metadata_file (Document partial_doc) serving) partial_doc
           DEFAULT_MODEL served_model).
  - reflexivity.
  - repeat constructor; simpl; intuition discriminate.
  - reflexivity.
Defined.

(** With a record that has [last_used] only, [load_count] falls back
    to 0 although the model had been loaded once; the record of the
    unknown model adds nothing. *)
Example load_cache_metadata_partial_record :
  option_map (fun m => (last_used m, load_count m, error_count m))
    (lookup DEFAULT_MODEL
       (models (snd (_load_cache_metadata
                       (with_metadata_file (Document partial_doc) serving)))))
  = Some (100, 0, 0)
  /\ keys (models (snd (_load_cache_metadata
                         (with_metadata_file (Document partial_doc) serving))))
     = [DEFAULT_MODEL; FALLBACK_MODEL].
Proof. split; reflexivity. Qed.

(** X25. The counters survive a restart: after a save that did not
    fail, a servicer constructed anew over the file that the save left
    starts with [last_used], [load_count] and [error_count] of every
    model as they were when they were saved. *)
Theorem counters_survive_restart E E' s id m :
  reachable s ->
  save_succeeds E (metadata_file s) = true ->
  lookup id (models s) = Some m ->
  exists m',
    lookup id (models (restart E' (snd (_save_cache_metadata E s)))) = Some m'
    /\ last_used m' = last_used m
    /\ load_count m' = load_count m
    /\ error_count m' = error_count m.
Proof.
  intros Hr Hs L. unfold restart.
  rewrite (save_cache_metadata_written E s Hs).
  pose proof (keys_reachable s Hr) as K.
  destruct (models s) as [|[k1 m1] [|[k2 m2] [|]]]; try discriminate K.
  unfold keys in K. simpl in K. inversion K; subst k1 k2. clear K.
  simpl in L. 
  destruct (String.eqb id DEFAULT_MODEL) eqn:K1.
  - apply String.eqb_eq in K1. subst id. inversion L; subst m1.
    eexists. split; [reflexivity|]. simpl. auto.
  - destruct (String.eqb id FALLBACK_MODEL) eqn:K2; [|discriminate L].
    apply String.eqb_eq in K2. subst id. inversion L; subst m2.
    eexists. split; [reflexivity|]. simpl. auto.
Qed.

Lemma counters_survive_restart_witness :
  exists m',
    lookup DEFAULT_MODEL
      (models (restart cpu_host (snd (_save_cache_metadata uniform_host crowded)))) = Some m'
    /\ last_used m' = last_used (resident_model SD21 5)
    /\ load_count m' = load_count (resident_model SD21 5)
    /\ error_count m' = error_count (resident_model SD21 5).
Proof.
  apply (counters_survive_restart uniform_host cpu_host crowded DEFAULT_MODEL
           (resident_model SD21 5)); [|reflexivity|reflexivity].
  apply (reach_step
           (snd (_get_model_info FALLBACK_MODEL 6
                   (snd (run_loader uniform_host DEFAULT_MODEL 5
                           (snd (__init__ (fresh uniform_host 1 (10 * GB) Absent None)))))))).
  - apply (reach_step
             (snd (run_loader uniform_host DEFAULT_MODEL 5
                     (snd (__init__ (fresh uniform_host 1 (10 * GB) Absent None)))))).
    + apply (reach_step (snd (__init__ (fresh uniform_host 1 (10 * GB) Absent None)))).
      * apply reach_init.
      * apply step_loader. left. reflexivity.
    + apply step_get_model_info.
  - apply step_loader. left. reflexivity.
Defined.

(** ** The maintenance loops *)

Section SweepWrites.
Variable I : Servicer -> Prop.
Hypothesis I_logger : forall l m, preserves I (logger l m).
Hypothesis I_unload : forall E id, preserves I (_unload_model E id).

Lemma sweep_count_sweep E l : preserves I (count_sweep E l).
Proof.
  unfold count_sweep. apply preserves_bind; [apply preserves_get|]. intros s0.
  destruct (_ <? _); [|apply preserves_ret].
  destruct (_ <=? _); [apply preserves_ret|].
  apply preserves_bind; [apply I_logger|]. intros _.
  apply preserves_bind; [|intros; apply preserves_ret].
  apply preserves_for_each. intros id.
  destruct (skip_default _ _); [apply preserves_ret|].
  apply preserves_bind; [apply I_unload|]. intros _.
  apply preserves_bind; [apply preserves_get_models|]. intros; apply preserves_ret.
Qed.

Lemma sweep_pressure_loop E total all todo n :
  preserves I (pressure_loop E total all todo n).
Proof.
  revert n. induction todo as [|id todo IH]; intros n; simpl.
  - apply preserves_ret.
  - destruct (skip_default _ _); [apply IH|].
    apply preserves_bind; [apply I_unload|]. intros _.
    apply preserves_bind; [apply preserves_effect|]. intros _.
    apply preserves_bind; [apply preserves_lift|]. intros a.
    destruct (_ <=? _); [apply preserves_ret | apply IH].
Qed.

Lemma sweep_conservative_cleanup E l e :
  preserves I (conservative_cleanup E l e).
Proof.
  unfold conservative_cleanup. apply preserves_bind; [apply I_logger|].
  intros _. apply preserves_bind; [apply preserves_get|]. intros s0.
  apply preserves_when, preserves_for_each. intros id.
  apply preserves_bind; [apply I_unload|]. intros _.
  apply preserves_bind; [apply preserves_get_models|]. intros; apply preserves_ret.
Qed.

Lemma sweep_cleanup_models E : preserves I (_cleanup_models E).
Proof.
  unfold _cleanup_models. apply preserves_bind; [apply preserves_get_models|].
  intros r. apply preserves_bind; [apply sweep_count_sweep|].
  intros [returned l]. destruct returned; [apply preserves_ret|].
  apply preserves_when, preserves_bind.
  { apply preserves_attempt. unfold cuda_readings.
    repeat (apply preserves_bind; [apply preserves_lift|]; intros).
    apply preserves_ret. }
  intros [[total allocated]|e]; [|apply sweep_conservative_cleanup].
  destruct (_ <? _); [|apply preserves_ret].
  apply preserves_bind; [apply I_logger|]. intros _.
  apply preserves_bind; [apply preserves_get_models|]. intros r'.
  apply preserves_try_except;
    [apply sweep_pressure_loop | intros; apply sweep_conservative_cleanup].
Qed.
End SweepWrites.

Lemma cleanup_models_files E s :
  metadata_file (snd (_cleanup_models E s)) = metadata_file s
  /\ cache_root (snd (_cleanup_models E s)) = cache_root s
  /\ pipe_calls (snd (_cleanup_models E s)) = pipe_calls s.
Proof.
  apply (sweep_cleanup_models
           (fun s' => metadata_file s' = metadata_file s
                      /\ cache_root s' = cache_root s
                      /\ pipe_calls s' = pipe_calls s)).
  - intros l m s0 H. exact H.
  - intros E0 id s0 (H1 & H2 & H3).
    destruct (unload_model_frame E0 id s0) as (F1 & _ & _ & F4 & F5).
    rewrite F1, F4, F5. auto.
  - auto.
Qed.

(** X26. A round of the clean-up loop never raises, and it saves the
    metadata after the sweep: when the save does not fail, the file holds
    the counters of every model as the sweep left them, the errors that
    the sweep counted included. The sweep itself touches neither the
    metadata file nor the disk cache and calls no pipeline. *)
Theorem cleanup_round_saves_after_the_sweep E s :
  fst (_cleanup_models_loop E s) = Return tt
  /\ models (snd (_cleanup_models_loop E s)) = models (snd (_cleanup_models E s))
  /\ cache_root (snd (_cleanup_models E s)) = cache_root s
  /\ pipe_calls (snd (_cleanup_models E s)) = pipe_calls s
  /\ (save_succeeds E (metadata_file s) = true ->
      metadata_file (snd (_cleanup_models_loop E s))
      = Document (cache_data_of (models (snd (_cleanup_models E s))))).
Proof.
  destruct (cleanup_models_files E s) as (Ff & Fc & Fp).
  assert (R : _cleanup_models_loop E s
              = _save_cache_metadata E (snd (_cleanup_models E s))).
  { unfold _cleanup_models_loop, try_except. rewrite bind_run.
    pose proof (returns_unit _ s (returns_cleanup_models E)) as Hr.
    destruct (_cleanup_models E s) as [o s1]. simpl in Hr. subst o. cbv beta iota.
    simpl snd.
    pose proof (save_cache_metadata_returns E s1) as Hs.
    destruct (_save_cache_metadata E s1) as [o s2]. simpl in Hs. now subst o. }
  rewrite R. split; [apply save_cache_metadata_returns|].
  split; [apply save_cache_metadata_models|].
  split; [exact Fc|]. split; [exact Fp|].
  intros Hs. apply save_cache_metadata_written. now rewrite Ff.
Qed.

Lemma cleanup_round_saves_after_the_sweep_witness :
  fst (_cleanup_models_loop busy_host (three_loaded 20 10 30)) = Return tt
  /\ models (snd (_cleanup_models_loop busy_host (three_loaded 20 10 30)))
     = models (snd (_cleanup_models busy_host (three_loaded 20 10 30)))
  /\ cache_root (snd (_cleanup_models busy_host (three_loaded 20 10 30)))
     = cache_root (three_loaded 20 10 30)
  /\ pipe_calls (snd (_cleanup_models busy_host (three_loaded 20 10 30)))
     = pipe_calls (three_loaded 20 10 30)
  /\ (save_succeeds busy_host (metadata_file (three_loaded 20 10 30)) = true ->
      metadata_file (snd (_cleanup_models_loop busy_host (three_loaded 20 10 30)))
      = Document (cache_data_of
                    (models (snd (_cleanup_models busy_host (three_loaded 20 10 30)))))).
Proof.
  apply (cleanup_round_saves_after_the_sweep busy_host (three_loaded 20 10 30)).
Defined.

(** On a host whose device does not let go of a pipeline, the sweep
    fails to evict the oldest model and counts the error; the file written
    by the same round has that count. *)
Example cleanup_round_persists_counted_error :
  option_map meta_error_count
    (match metadata_file (snd (_cleanup_models_loop busy_host (three_loaded 20 10 30))) with
     | Document d => doc_lookup FALLBACK_MODEL d
     | _ => None
     end)
  = Some (Some 1).
Proof. reflexivity. Qed.

(** X27. Falling back to the CPU is for good: when moving a downloaded
    pipeline to the device of the servicer raises, the load task logs a
    warning and sets [self.device] to [cpu] and [self.torch_dtype] to
    [float32]; they are so when the task ends, whether the load then
    succeeded or failed, so that every later load goes to the CPU. *)
Theorem device_fallback_is_kept E id now s m p0 e :
  lookup id (models s) = Some m ->
  mkdir E id = None ->
  (forall fp16, from_pretrained E id fp16 = Return p0) ->
  pipe_to E p0 (device s) = Raise e ->
  device (snd (_load E id now s)) = "cpu"
  /\ torch_dtype (snd (_load E id now s)) = float32
  /\ In (WARNING, Msg ("Failed to move model to " ++ device s
                         ++ ", falling back to CPU: " ++ e))
        (log (snd (_load E id now s))).
Proof.
  intros L Hm Hf Hp. run_load. rewrite L, Hm. simpl. rewrite !Hf.
  destruct (negb (String.eqb (DEFAULT_DEVICE E) "cpu")); simpl; rewrite Hp; simpl.
  all: repeat (next_case; simpl in *; pair_eq; try congruence).
  all: repeat split; rewrite ?in_app_iff; simpl; tauto.
Qed.

Lemma device_fallback_is_kept_witness :
  device (snd (_load no_gpu_host DEFAULT_MODEL 5 gpu_started)) = "cpu"
  /\ torch_dtype (snd (_load no_gpu_host DEFAULT_MODEL 5 gpu_started)) = float32
  /\ In (WARNING, Msg ("Failed to move model to " ++ device gpu_started
                         ++ ", falling back to CPU: " ++ "CUDA out of memory"))
        (log (snd (_load no_gpu_host DEFAULT_MODEL 5 gpu_started))).
Proof.
  apply (device_fallback_is_kept no_gpu_host DEFAULT_MODEL 5 gpu_started
           (set_loading true (new_ModelInfo SD21)) (sd_pipeline DEFAULT_MODEL 64)
           "CUDA out of memory").
  - reflexivity.
  - reflexivity.
  - intros fp16. reflexivity.
  - reflexivity.
Defined.

(** ** Construction *)

Lemma load_cache_metadata_counters s id m :
  lookup id (models s) = Some m ->
  exists m', lookup id (models (snd (_load_cache_metadata s))) = Some m'
             /\ same_but_counters m m'.
Proof.
  revert id m.
  apply (inv_load_cache_metadata
           (fun s' => forall id m, lookup id (models s) = Some m ->
                        exists m', lookup id (models s') = Some m'
                                   /\ same_but_counters m m')).
  - intros s0 s1 Hm _ H. now rewrite Hm.
  - intros k a b c s0 H id m L. destruct (H id m L) as (m' & L' & Hc).
    simpl. rewrite lookup_update, L'.
    destruct (String.eqb id k); simpl; eauto.
  - intros id m L. exists m. split; [exact L|]. unfold same_but_counters. auto 10.
Qed.

Lemma load_cache_metadata_loaders s :
  loaders (snd (_load_cache_metadata s)) = loaders s.
Proof.
  apply (inv_load_cache_metadata (fun s' => loaders s' = loaders s)).
  - intros s0 s1 _ Hl H. now rewrite Hl.
  - intros k a b c s0 H. exact H.
  - reflexivity.
Qed.


(** ** From the first request to the image *)



(** ** The disk round *)

Lemma cleanup_disk_cache_returns E s : fst (_cleanup_disk_cache E s) = Return tt.
Proof.
  unfold _cleanup_disk_cache. rewrite bind_run. unfold get at 1. cbv beta iota.
  destruct (cache_root s) as [entries|]; [|reflexivity].
  rewrite bind_run.
  match goal with
  | |- context [disk_loop E ?q ?d ?t s] =>
      destruct (disk_loop_run E q d t s) as (att & kept & s' & Hl & _)
  end.
  rewrite Hl. reflexivity.
Qed.

(** X30. A round of the disk cache loop never raises, whatever fails
    on the disk, and does nothing but delete: the registry and the
    loaders are untouched, a missing cache directory stays missing, and
    every entry of the cache root after the round was there before it. *)
Theorem disk_round_only_deletes E s :
  fst (_manage_disk_cache_loop E s) = Return tt
  /\ models (snd (_manage_disk_cache_loop E s)) = models s
  /\ loaders (snd (_manage_disk_cache_loop E s)) = loaders s
  /\ match cache_root s with
     | Some entries =>
         exists entries',
           cache_root (snd (_manage_disk_cache_loop E s)) = Some entries'
           /\ incl entries' entries
     | None => cache_root (snd (_manage_disk_cache_loop E s)) = None
     end.
Proof.
  assert (R : _manage_disk_cache_loop E s = _cleanup_disk_cache E s).
  { unfold _manage_disk_cache_loop, try_except.
    pose proof (cleanup_disk_cache_returns E s) as Hr.
    destruct (_cleanup_disk_cache E s) as [o s1]. simpl in Hr. now subst o. }
  rewrite R. split; [apply cleanup_disk_cache_returns|].
  assert (F : models (snd (_cleanup_disk_cache E s)) = models s
              /\ loaders (snd (_cleanup_disk_cache E s)) = loaders s).
  { apply (inv_cleanup_disk_cache
             (fun s' => models s' = models s /\ loaders s' = loaders s)).
    - intros s0 s1 Hm Hl [H1 H2]. now rewrite Hm, Hl.
    - auto. }
  destruct F as [Fm Fl]. split; [exact Fm|]. split; [exact Fl|].
  destruct (cache_root s) as [entries|] eqn:C.
  - destruct (swept_entries E s entries C) as (att & kept & _ & Hs & _).
    unfold swept in Hs. eexists. split; [exact Hs|].
    intros e He. apply filter_In in He. tauto.
  - unfold _cleanup_disk_cache, bind, get. now rewrite C.
Qed.
